(** * PDF-FILLER-OCR: a shallow embedding of the parsing, conversion,
      polling and row-selection code, with the properties of its
      specification.

    Strings are sequences of code units below 256 (Rocq's [string]); the
    white space of [String.prototype.trim] and of the regular expression
    class [\s] is, in that range, the six ASCII white-space characters and
    the no-break space.  A JavaScript object used as a dictionary is an
    association list in insertion order holding own properties only:
    members of [Object.prototype] and the special enumeration order of
    array-index keys are outside the model. *)

From Stdlib Require Import Bool Arith ZArith Lia List Ascii String.
Import ListNotations.
Local Open Scope string_scope.
Local Open Scope bool_scope.
Local Open Scope nat_scope.

(* ================================================================== *)
(** ** JavaScript strings *)

Module JsString.

Definition code (c : ascii) : nat := nat_of_ascii c.

(** White space as [trim] and [\s] see it. *)
Definition is_ws (c : ascii) : bool :=
  let n := code c in
  ((9 <=? n) && (n <=? 13)) || (n =? 32) || (n =? 160).

(** Line terminators: the characters [.] does not match. *)
Definition is_lt (c : ascii) : bool :=
  let n := code c in (n =? 10) || (n =? 13).

Definition is_empty (s : string) : bool :=
  match s with EmptyString => true | String _ _ => false end.

(** A string is truthy when it is not empty. *)
Definition truthy (s : string) : bool := negb (is_empty s).

Fixpoint trimStart (s : string) : string :=
  match s with
  | EmptyString => EmptyString
  | String c s' => if is_ws c then trimStart s' else s
  end.

Fixpoint trimEnd (s : string) : string :=
  match s with
  | EmptyString => EmptyString
  | String c s' =>
      let t := trimEnd s' in
      if is_ws c && is_empty t then EmptyString else String c t
  end.

Definition trim (s : string) : string := trimEnd (trimStart s).

(** [s.split(sep)] for a one-character separator. *)
Fixpoint split (sep : ascii) (s : string) : list string :=
  match s with
  | EmptyString => [EmptyString]
  | String c s' =>
      if Ascii.eqb c sep then EmptyString :: split sep s'
      else match split sep s' with
           | h :: t => String c h :: t
           | [] => [String c EmptyString]
           end
  end.

(** [parts.join(sep)]. *)
Fixpoint join (sep : string) (parts : list string) : string :=
  match parts with
  | [] => EmptyString
  | [p] => p
  | p :: rest => p ++ sep ++ join sep rest
  end.

Definition startsWith (c : ascii) (s : string) : bool :=
  match s with
  | String d _ => Ascii.eqb d c
  | EmptyString => false
  end.

Fixpoint endsWith (c : ascii) (s : string) : bool :=
  match s with
  | EmptyString => false
  | String d EmptyString => Ascii.eqb d c
  | String _ s' => endsWith c s'
  end.

Fixpoint includes (c : ascii) (s : string) : bool :=
  match s with
  | EmptyString => false
  | String d s' => Ascii.eqb d c || includes c s'
  end.

Definition lower_char (c : ascii) : ascii :=
  let n := code c in
  if ((65 <=? n) && (n <=? 90))
     || ((192 <=? n) && (n <=? 222) && negb (n =? 215))
  then ascii_of_nat (n + 32) else c.

Fixpoint toLowerCase (s : string) : string :=
  match s with
  | EmptyString => EmptyString
  | String c s' => String (lower_char c) (toLowerCase s')
  end.

(** [s.replace(/\s+/g, r)]: every maximal run of white space becomes
    one copy of [r]. *)
Fixpoint replace_ws_runs (r : string) (s : string) : string :=
  match s with
  | EmptyString => EmptyString
  | String c s' =>
      if is_ws c
      then match s' with
           | String d _ =>
               if is_ws d then replace_ws_runs r s'
               else r ++ replace_ws_runs r s'
           | EmptyString => r
           end
      else String c (replace_ws_runs r s')
  end.

(** The double quote, which the literals of this file cannot hold. *)
Definition dq : string := String (ascii_of_nat 34) EmptyString.
Definition cr : string := String (ascii_of_nat 13) EmptyString.
Definition lf : string := String (ascii_of_nat 10) EmptyString.
Definition tab : string := String (ascii_of_nat 9) EmptyString.

End JsString.

(* ================================================================== *)
(** ** JavaScript objects used as dictionaries *)

Module Obj.

Definition t (V : Type) : Type := list (string * V).

Definition empty {V} : t V := [].

Definition keys {V} (o : t V) : list string := map fst o.

Fixpoint get {V} (o : t V) (k : string) : option V :=
  match o with
  | [] => None
  | (k', v) :: o' => if String.eqb k' k then Some v else get o' k
  end.

(** [o[k] = v]: an existing key keeps its place, a new one goes last. *)
Fixpoint set {V} (k : string) (v : V) (o : t V) : t V :=
  match o with
  | [] => [(k, v)]
  | (k', v') :: o' =>
      if String.eqb k' k then (k', v) :: o' else (k', v') :: set k v o'
  end.

(** [Object.assign(target, source)]. *)
Definition assign {V} (target source : t V) : t V :=
  fold_left (fun acc kv => set (fst kv) (snd kv) acc) source target.

Definition has {V} (o : t V) (k : string) : bool :=
  match get o k with Some _ => true | None => false end.

End Obj.

(* ================================================================== *)
(** ** JavaScript values and [JSON.parse] *)

#[local] Set Warnings "-register-all".
Inductive JsValue : Type :=
| JUndefined
| JNull
| JBool (b : bool)
| JNumber (literal : string)
| JString (s : string)
| JArray (items : list JsValue)
| JObject (members : list (string * JsValue)).

Module Json.
Import JsString.

(** The four white-space characters of the JSON grammar. *)
Definition is_json_ws (c : ascii) : bool :=
  let n := code c in (n =? 32) || (n =? 9) || (n =? 10) || (n =? 13).

Fixpoint skip_ws (s : string) : string :=
  match s with
  | String c s' => if is_json_ws c then skip_ws s' else s
  | EmptyString => EmptyString
  end.

Definition is_digit (c : ascii) : bool :=
  let n := code c in (48 <=? n) && (n <=? 57).

Definition hex_val (c : ascii) : option nat :=
  let n := code c in
  if (48 <=? n) && (n <=? 57) then Some (n - 48)
  else if (65 <=? n) && (n <=? 70) then Some (n - 55)
  else if (97 <=? n) && (n <=? 102) then Some (n - 87)
  else None.

(** The four hexadecimal digits of a [\u] escape; code units above 255
    are outside the string model and make the parse fail. *)
Definition parse_hex4 (s : string) : option (ascii * string) :=
  match s with
  | String a (String b (String c (String d r))) =>
      match hex_val a, hex_val b, hex_val c, hex_val d with
      | Some x, Some y, Some z, Some w =>
          let n := ((x * 16 + y) * 16 + z) * 16 + w in
          if n <? 256 then Some (ascii_of_nat n, r) else None
      | _, _, _, _ => None
      end
  | _ => None
  end.

(** The characters of a string literal after its opening quote, up to
    and including the closing quote. *)
Fixpoint parse_chars (fuel : nat) (s : string) : option (string * string) :=
  match fuel with
  | O => None
  | S fuel' =>
      match s with
      | EmptyString => None
      | String c r =>
          let n := code c in
          if n =? 34 then Some (EmptyString, r)
          else if n =? 92 then
            match r with
            | String e r' =>
                let m := code e in
                let simple (x : nat) :=
                  match parse_chars fuel' r' with
                  | Some (t, rest) => Some (String (ascii_of_nat x) t, rest)
                  | None => None
                  end in
                if m =? 34 then simple 34
                else if m =? 92 then simple 92
                else if m =? 47 then simple 47
                else if m =? 98 then simple 8
                else if m =? 102 then simple 12
                else if m =? 110 then simple 10
                else if m =? 114 then simple 13
                else if m =? 116 then simple 9
                else if m =? 117 then
                  match parse_hex4 r' with
                  | Some (x, r'') =>
                      match parse_chars fuel' r'' with
                      | Some (t, rest) => Some (String x t, rest)
                      | None => None
                      end
                  | None => None
                  end
                else None
            | EmptyString => None
            end
          else if n <? 32 then None
          else match parse_chars fuel' r with
               | Some (t, rest) => Some (String c t, rest)
               | None => None
               end
      end
  end.

Fixpoint take_digits (s : string) : string * string :=
  match s with
  | String c r =>
      if is_digit c then let (d, rest) := take_digits r in (String c d, rest)
      else (EmptyString, s)
  | EmptyString => (EmptyString, EmptyString)
  end.

Definition take_sign (s : string) : string * string :=
  match s with
  | String c r => if code c =? 45 then ("-", r) else (EmptyString, s)
  | EmptyString => (EmptyString, s)
  end.

(** The integer part: one digit, or several that do not start with 0. *)
Definition int_ok (int : string) : bool :=
  match int with
  | EmptyString => false
  | String c EmptyString => true
  | String c _ => negb (code c =? 48)
  end.

Definition take_fraction (s : string) : option (string * string) :=
  match s with
  | String c r =>
      if code c =? 46 then
        let (d, rest) := take_digits r in
        if is_empty d then None else Some ("." ++ d, rest)
      else Some (EmptyString, s)
  | EmptyString => Some (EmptyString, s)
  end.

Definition take_exponent (s : string) : option (string * string) :=
  match s with
  | String c r =>
      if (code c =? 101) || (code c =? 69) then
        let (sg, r1) :=
          match r with
          | String d r' =>
              if (code d =? 43) || (code d =? 45)
              then (String d EmptyString, r') else (EmptyString, r)
          | EmptyString => (EmptyString, r)
          end in
        let (d, rest) := take_digits r1 in
        if is_empty d then None else Some (String c (sg ++ d), rest)
      else Some (EmptyString, s)
  | EmptyString => Some (EmptyString, s)
  end.

(** A number token, kept as its literal. *)
Definition parse_number (s : string) : option (string * string) :=
  let (sign, s1) := take_sign s in
  let (int, s2) := take_digits s1 in
  if negb (int_ok int) then None else
  match take_fraction s2 with
  | None => None
  | Some (fr, s3) =>
      match take_exponent s3 with
      | None => None
      | Some (ex, s4) => Some (sign ++ int ++ fr ++ ex, s4)
      end
  end.

Fixpoint strip_prefix (p s : string) : option string :=
  match p with
  | EmptyString => Some s
  | String a p' =>
      match s with
      | String b s' => if Ascii.eqb a b then strip_prefix p' s' else None
      | EmptyString => None
      end
  end.

(** Recursive descent over the JSON grammar.  Every call consumes a
    character before it recurses, so a budget of one more than the
    length of the text is never used up. *)
Fixpoint parse_value (fuel : nat) (s : string) : option (JsValue * string) :=
  match fuel with
  | O => None
  | S fuel' =>
      match skip_ws s with
      | EmptyString => None
      | String c r =>
          let n := code c in
          if n =? 123 then
            match skip_ws r with
            | String d r' =>
                if code d =? 125 then Some (JObject [], r')
                else parse_members fuel' (skip_ws r) []
            | EmptyString => None
            end
          else if n =? 91 then
            match skip_ws r with
            | String d r' =>
                if code d =? 93 then Some (JArray [], r')
                else parse_elements fuel' (skip_ws r) []
            | EmptyString => None
            end
          else if n =? 34 then
            match parse_chars (String.length r) r with
            | Some (t, rest) => Some (JString t, rest)
            | None => None
            end
          else if (n =? 45) || is_digit c then
            match parse_number (String c r) with
            | Some (lit, rest) => Some (JNumber lit, rest)
            | None => None
            end
          else
            match strip_prefix "true" (String c r) with
            | Some rest => Some (JBool true, rest)
            | None =>
                match strip_prefix "false" (String c r) with
                | Some rest => Some (JBool false, rest)
                | None =>
                    match strip_prefix "null" (String c r) with
                    | Some rest => Some (JNull, rest)
                    | None => None
                    end
                end
            end
      end
  end

with parse_members (fuel : nat) (s : string) (acc : list (string * JsValue))
  : option (JsValue * string) :=
  match fuel with
  | O => None
  | S fuel' =>
      match s with
      | String q r =>
          if code q =? 34 then
            match parse_chars (String.length r) r with
            | Some (k, r1) =>
                match skip_ws r1 with
                | String colon r2 =>
                    if code colon =? 58 then
                      match parse_value fuel' r2 with
                      | Some (v, r3) =>
                          let acc' := Obj.set k v acc in
                          match skip_ws r3 with
                          | String e r4 =>
                              if code e =? 125 then Some (JObject acc', r4)
                              else if code e =? 44
                              then parse_members fuel' (skip_ws r4) acc'
                              else None
                          | EmptyString => None
                          end
                      | None => None
                      end
                    else None
                | EmptyString => None
                end
            | None => None
            end
          else None
      | EmptyString => None
      end
  end

with parse_elements (fuel : nat) (s : string) (acc : list JsValue)
  : option (JsValue * string) :=
  match fuel with
  | O => None
  | S fuel' =>
      match parse_value fuel' s with
      | Some (v, r1) =>
          match skip_ws r1 with
          | String e r2 =>
              if code e =? 93 then Some (JArray (acc ++ [v]), r2)
              else if code e =? 44 then parse_elements fuel' r2 (acc ++ [v])
              else None
          | EmptyString => None
          end
      | None => None
      end
  end.

(** [JSON.parse(text)]; [None] stands for the [SyntaxError]. *)
Definition parse (text : string) : option JsValue :=
  match parse_value (2 * String.length text + 2) text with
  | Some (v, rest) => if is_empty (skip_ws rest) then Some v else None
  | None => None
  end.

End Json.

(* ================================================================== *)
(** ** The shape every parser returns *)

Record TabularResult : Type := mkTabular {
  headers : list string;
  rows : list (Obj.t JsValue);
  rowCount : nat
}.

(* ================================================================== *)
(** ** services/textParser.js *)

Module TextParser.
Import JsString.

(** [(.+)$]: the rest of the line, not empty and without a line
    terminator. *)
Fixpoint dot_plus_end_ok (s : string) : bool :=
  match s with
  | EmptyString => true
  | String c s' => negb (is_lt c) && dot_plus_end_ok s'
  end.

Definition dot_plus_end (s : string) : option string :=
  if truthy s && dot_plus_end_ok s then Some s else None.

(** [\s*(.+)$]: the greedy [\s*] first takes all the white space it can
    and gives characters back one at a time. *)
Fixpoint value_match (s : string) : option string :=
  match s with
  | EmptyString => None
  | String c s' =>
      if is_ws c then
        match value_match s' with
        | Some v => Some v
        | None => dot_plus_end s
        end
      else dot_plus_end s
  end.

(** [\s*] then the separator: as the separator is not white space, the
    greedy [\s*] can only stop where the white space ends. *)
Fixpoint skip_to_sep (sep : ascii) (s : string) : option string :=
  match s with
  | EmptyString => None
  | String c s' =>
      if Ascii.eqb c sep then Some s'
      else if is_ws c then skip_to_sep sep s'
      else None
  end.

(** [\s*SEP\s*(.+)$] at the current position. *)
Definition after_key (sep : ascii) (s : string) : option string :=
  match skip_to_sep sep s with
  | Some rest => value_match rest
  | None => None
  end.

(** The lazy [(.+?)] grows one character at a time, the rest of the
    pattern being tried at every length; [.] refuses line terminators.
    The result is what the group takes beyond its first character, and
    the second group. *)
Fixpoint lazy_key (sep : ascii) (s : string) : option (string * string) :=
  match after_key sep s with
  | Some v => Some (EmptyString, v)
  | None =>
      match s with
      | EmptyString => None
      | String c s' =>
          if is_lt c then None
          else match lazy_key sep s' with
               | Some (k, v) => Some (String c k, v)
               | None => None
               end
      end
  end.

(** [line.match(/^(.+?)\s*SEP\s*(.+)$/)]: the two groups. *)
Definition match_kv (sep : ascii) (line : string) : option (string * string) :=
  match line with
  | EmptyString => None
  | String c s =>
      if is_lt c then None
      else match lazy_key sep s with
           | Some (k, v) => Some (String c k, v)
           | None => None
           end
  end.

(** A pattern of the loop: the match, then [if (key && value)]. *)
Definition try_kv (sep : ascii) (line : string) : option (string * string) :=
  match match_kv sep line with
  | Some (key, value) =>
      if truthy key && truthy value then Some (key, value) else None
  | None => None
  end.

(** [Object.assign(fields, jsonData)]: the members of an object are
    copied; [null], a boolean or a number has none. *)
Definition assign_json (fields : Obj.t JsValue) (jsonData : JsValue)
  : Obj.t JsValue :=
  match jsonData with
  | JObject members => Obj.assign fields members
  | _ => fields
  end.

Definition braced (s : string) : bool :=
  startsWith "{" s && endsWith "}" s.

(** Pattern 6: [split('\t').map(p => p.trim()).filter(p => p)]. *)
Definition tab_parts (line : string) : list string :=
  filter truthy (map trim (split (ascii_of_nat 9) line)).

(** One turn of the loop over the lines. *)
Definition parseLine (fields : Obj.t JsValue) (line : string)
  : Obj.t JsValue :=
  let trimmedLine := trim line in
  if is_empty trimmedLine then fields else
  match try_kv ":" trimmedLine with
  | Some (key, value) => Obj.set (trim key) (JString (trim value)) fields
  | None =>
  match try_kv "=" trimmedLine with
  | Some (key, value) => Obj.set (trim key) (JString (trim value)) fields
  | None =>
  match try_kv "-" trimmedLine with
  | Some (key, value) => Obj.set (trim key) (JString (trim value)) fields
  | None =>
  match try_kv "|" trimmedLine with
  | Some (key, value) => Obj.set (trim key) (JString (trim value)) fields
  | None =>
  match (if braced trimmedLine then Json.parse trimmedLine else None) with
  | Some jsonData => assign_json fields jsonData
  | None =>
      if includes (ascii_of_nat 9) trimmedLine then
        match tab_parts trimmedLine with
        | [k; v] => Obj.set k (JString v) fields
        | _ => fields
        end
      else fields
  end end end end end.

(** The fields after the loop and the whole-text JSON merge. *)
Definition parseFields (text : string) : Obj.t JsValue :=
  let fields := fold_left parseLine (split (ascii_of_nat 10) text) Obj.empty in
  if braced (trim text) then
    match Json.parse (trim text) with
    | Some jsonData => assign_json fields jsonData
    | None => fields
    end
  else fields.

Definition lookup (fields : Obj.t JsValue) (k : string) : JsValue :=
  match Obj.get fields k with Some v => v | None => JUndefined end.

Definition parseText (text : string) : TabularResult :=
  let fields := parseFields text in
  let headers := Obj.keys fields in
  let row := fold_left (fun row header => Obj.set header (lookup fields header) row)
                       headers Obj.empty in
  {| headers := headers; rows := [row]; rowCount := 1 |}.

(** The canonical serialization of a row: one [Key: Value] line per
    header; only string values have one. *)
Definition serializeValue (v : JsValue) : option string :=
  match v with JString s => Some s | _ => None end.

Fixpoint serializeLines (hs : list string) (row : Obj.t JsValue)
  : option (list string) :=
  match hs with
  | [] => Some []
  | h :: hs' =>
      match serializeValue (lookup row h), serializeLines hs' row with
      | Some v, Some ls => Some ((h ++ ": " ++ v) :: ls)
      | _, _ => None
      end
  end.

Definition serialize (r : TabularResult) : option string :=
  match rows r with
  | [row] =>
      match serializeLines (headers r) row with
      | Some ls => Some (join lf ls)
      | None => None
      end
  | _ => None
  end.

End TextParser.

(** The words of the properties of the free-text parser. *)
Module TextSpec.
Import JsString.

(** The text before, and after, the first occurrence of a character. *)
Fixpoint before (sep : ascii) (s : string) : string :=
  match s with
  | EmptyString => EmptyString
  | String c s' => if Ascii.eqb c sep then EmptyString else String c (before sep s')
  end.

Fixpoint after (sep : ascii) (s : string) : string :=
  match s with
  | EmptyString => EmptyString
  | String c s' => if Ascii.eqb c sep then s' else after sep s'
  end.

Fixpoint all_ws (s : string) : bool :=
  match s with
  | EmptyString => true
  | String c s' => is_ws c && all_ws s'
  end.

(** No line feed and no carriage return. *)
Definition single_line (s : string) : bool := TextParser.dot_plus_end_ok s.

(** Not empty, no white space at either end, on a single line. *)
Definition clean_text (s : string) : bool :=
  match s with
  | String c _ => negb (is_ws c)
  | EmptyString => false
  end && String.eqb (trimEnd s) s && single_line s.

(** A clean text with no colon after its first character. *)
Definition clean_key (k : string) : bool :=
  clean_text k
  && match k with
     | String _ k' => negb (includes ":" k')
     | EmptyString => false
     end.

Definition canonical_entry (entry : string * JsValue) : bool :=
  match entry with
  | (k, JString v) => clean_key k && clean_text v
  | _ => false
  end.

(** A parse result whose single row holds only clean keys with clean
    string values. *)
Definition canonical (r : TabularResult) : bool :=
  match rows r with
  | [row] => forallb canonical_entry row
  | _ => false
  end.

(** The line of an entry in the canonical serialization. *)
Definition line_of (entry : string * JsValue) : string :=
  fst entry ++ ": " ++ match snd entry with JString v => v | _ => EmptyString end.

End TextSpec.

(* ================================================================== *)
(** ** Effects: what a call does to the outside world

    An asynchronous function of the source is a computation that leaves a
    trace of the calls it made to the libraries, the file system and the
    network, and ends by returning a value or by throwing an [Error] with
    a message.  [OutOfFuel] is the outcome of a loop that was not given
    enough turns to finish. *)

Record FieldDescriptor : Type := mkDescriptor {
  value : string;
  description : string
}.

Inductive FileContent : Type :=
| FromBase64 (payload : string)   (* [Buffer.from(payload, 'base64')] *)
| FromUrl (url : string).         (* the body fetched from [url] *)

Inductive Event : Type :=
| EvLoadForm (pdfPath : string)
| EvPdf2Json (pdfPath : string)
| EvPdfParse (pdfPath : string)
| EvOcr (pdfPath : string)
| EvReadCsv (filePath : string)
| EvSubmit (pdfPath : string) (fieldData : Obj.t FieldDescriptor) (context : string)
| EvPoll (requestId : string)
| EvSleep (ms : nat)
| EvWriteFile (path : string) (content : FileContent)
| EvFetch (url : string).

Module Eff.

Inductive Outcome (A : Type) : Type :=
| Returned (a : A)
| Thrown (message : string)
| OutOfFuel.
Arguments Returned {A} a.
Arguments Thrown {A} message.
Arguments OutOfFuel {A}.

Definition M (A : Type) : Type := (list Event * Outcome A)%type.

Definition ret {A} (a : A) : M A := ([], Returned a).

Definition throw {A} (message : string) : M A := ([], Thrown message).

Definition emit (e : Event) : M unit := ([e], Returned tt).

Definition bind {A B} (m : M A) (f : A -> M B) : M B :=
  match m with
  | (tr, Returned a) => let (tr', r) := f a in ((tr ++ tr')%list, r)
  | (tr, Thrown msg) => (tr, Thrown msg)
  | (tr, OutOfFuel) => (tr, OutOfFuel)
  end.

(** [try { m } catch (error) { handler(error.message) }]. *)
Definition catch {A} (m : M A) (handler : string -> M A) : M A :=
  match m with
  | (tr, Thrown msg) => let (tr', r) := handler msg in ((tr ++ tr')%list, r)
  | other => other
  end.

(** What an awaited call that the outside world answers gives: the
    answer, or the message of the error it throws. *)
Definition await {A} (e : Event) (answer : string + A) : M A :=
  match answer with
  | inr a => ([e], Returned a)
  | inl msg => ([e], Thrown msg)
  end.

Definition trace {A} (m : M A) : list Event := fst m.
Definition outcome {A} (m : M A) : Outcome A := snd m.

End Eff.

Export Eff(Returned, Thrown, OutOfFuel).

Declare Scope eff_scope.
Delimit Scope eff_scope with eff.
Notation "x <- c1 ;; c2" := (Eff.bind c1 (fun x => c2))
  (at level 61, c1 at next level, right associativity) : eff_scope.
Notation "c1 ;; c2" := (Eff.bind c1 (fun _ => c2))
  (at level 61, right associativity) : eff_scope.

(* ================================================================== *)
(** ** services/csvParser.js *)

Module CsvParser.
Import JsString.

(** What Papa.parse hands to the [complete] callback.  An error is kept
    as the text [JSON.stringify] gives for it. *)
Record PapaResults : Type := mkPapa {
  data : list (Obj.t JsValue);
  errors : list string;
  meta_fields : option (list string)
}.

(** The file system and the Papa Parse library, as the parser sees them. *)
Record CsvWorld : Type := mkCsvWorld {
  readFile : string -> string + string;
  Papa_parse : string -> PapaResults
}.

(** Papa Parse in header mode, as its documentation has it: the keys of
    a row are fields of the header line, but for [__parsed_extra], which
    collects the cells of a line longer than the header and comes with
    a FieldMismatch error. *)
Definition header_mode (results : PapaResults) : Prop :=
  forall row, In row (data results) ->
    forall k, In k (Obj.keys row) ->
      (exists fields, meta_fields results = Some fields /\ In k fields)
      \/ (k = "__parsed_extra" /\ errors results <> []).

Definition parseCSV (w : CsvWorld) (filePath : string) : Eff.M TabularResult :=
  (fileContent <-
     Eff.catch (Eff.await (EvReadCsv filePath) (readFile w filePath))
               (fun message => Eff.throw ("Failed to read CSV file: " ++ message));;
   let results := Papa_parse w fileContent in
   if 0 <? List.length (errors results)
   then Eff.throw ("CSV parsing errors: [" ++ join "," (errors results) ++ "]")
   else Eff.ret {| headers := match meta_fields results with
                              | Some fields => fields
                              | None => []
                              end;
                   rows := data results;
                   rowCount := List.length (data results) |})%eff.

Definition defaultMappings : Obj.t string :=
  [ ("title", "Title or Company Name");
    ("company_name", "Company Name");
    ("company", "Company Name");
    ("surname", "Surname or Last Name");
    ("last_name", "Surname or Last Name");
    ("lastname", "Surname or Last Name");
    ("name", "First Name");
    ("first_name", "First Name");
    ("firstname", "First Name");
    ("street", "Street Address");
    ("address", "Street Address");
    ("address_street", "Street Address");
    ("number", "Street Number");
    ("street_number", "Street Number");
    ("postcode", "Postal Code");
    ("postal_code", "Postal Code");
    ("zip", "Postal Code");
    ("zip_code", "Postal Code");
    ("town", "Town or City");
    ("city", "Town or City");
    ("town_city", "Town or City");
    ("country", "Country");
    ("account_holder", "Account Holder Name");
    ("iban", "IBAN Number");
    ("swift", "SWIFT Code (BIC)");
    ("swift_code", "SWIFT Code (BIC)");
    ("bic", "SWIFT Code (BIC)");
    ("currency", "Currency");
    ("bank_account_number", "Bank Account Number");
    ("account_number", "Bank Account Number");
    ("routing_number", "Routing Number (US banks)");
    ("bank_name", "Bank Name");
    ("bank_street", "Bank Street Address");
    ("bank_address", "Bank Street Address");
    ("bank_number", "Bank Street Number");
    ("bank_postcode", "Bank Postal Code");
    ("bank_zip", "Bank Postal Code");
    ("bank_town", "Bank Town or City");
    ("bank_city", "Bank Town or City");
    ("bank_country", "Bank Country");
    ("swift_correspondent", "SWIFT Correspondent") ].

(** A number literal denotes zero when its digits before the exponent
    are all zeros. *)
Fixpoint zero_literal (s : string) : bool :=
  match s with
  | EmptyString => true
  | String c s' =>
      let n := code c in
      if (n =? 101) || (n =? 69) then true
      else ((n =? 48) || (n =? 45) || (n =? 46)) && zero_literal s'
  end.

(** The truth value of [value] in [value && ...]. *)
Definition js_truthy (v : JsValue) : bool :=
  match v with
  | JUndefined | JNull => false
  | JBool b => b
  | JNumber lit => negb (zero_literal lit)
  | JString s => truthy s
  | JArray _ | JObject _ => true
  end.

(** [value.toString()].  A number prints as its literal; an array joins
    the texts of its items with commas, [null] and [undefined] items
    giving nothing. *)
Fixpoint js_toString (v : JsValue) : string :=
  match v with
  | JUndefined => "undefined"
  | JNull => "null"
  | JBool true => "true"
  | JBool false => "false"
  | JNumber lit => lit
  | JString s => s
  | JArray items =>
      join "," (map (fun item => match item with
                                 | JUndefined | JNull => EmptyString
                                 | _ => js_toString item
                                 end) items)
  | JObject _ => "[object Object]"
  end.

Definition normalizeKey (key : string) : string :=
  replace_ws_runs "_" (toLowerCase key).

(** [mappings[normalizedKey] || key]. *)
Definition describe (mappings : Obj.t string) (key : string) : string :=
  match Obj.get mappings (normalizeKey key) with
  | Some d => if truthy d then d else key
  | None => key
  end.

(** The body of the loop over [Object.entries(row)]. *)
Definition emitField (mappings : Obj.t string)
           (fieldData : Obj.t FieldDescriptor) (entry : string * JsValue)
  : Obj.t FieldDescriptor :=
  let '(key, value) := entry in
  if js_truthy value && negb (is_empty (trim (js_toString value)))
  then Obj.set key {| value := trim (js_toString value);
                      description := describe mappings key |} fieldData
  else fieldData.

Definition convertRowToFieldData (row : Obj.t JsValue)
           (columnMappings : option (Obj.t string)) : Obj.t FieldDescriptor :=
  let mappings := match columnMappings with
                  | Some m => m
                  | None => defaultMappings
                  end in
  fold_left (emitField mappings) row Obj.empty.

End CsvParser.

(* ================================================================== *)
(** ** services/pdfParser.js *)

Module PdfParser.
Import JsString.

(** A form field as pdf-lib presents it: its class and what the
    accessor of that class returns ([None] for [undefined]);
    [Unreadable] is a field whose accessor throws. *)
Inductive FieldContent : Type :=
| PDFTextField (text : option string)
| PDFCheckBox (checked : bool)
| PDFRadioGroup (selected : option string)
| PDFDropdown (selected : option (list string))
| OtherField
| Unreadable.

Record PDFField : Type := mkField {
  getName : string;
  content : FieldContent
}.

(** What the three PDF libraries make of a file:
    - [form]: the fields pdf-lib finds, [None] when loading throws;
    - [pages]: per page, the decoded text of each item pdf2json finds,
      [None] for an item that cannot be decoded; [None] for the whole
      when the parser reports [pdfParser_dataError];
    - [text]: the flattened text pdf-parse returns, or the message of
      the error that reading or parsing throws;
    - [detected]: the fields the remote OCR of [extractWithOCR] ends up
      with (none when the remote fails or times out). *)
Record PdfFile : Type := mkPdfFile {
  form : option (list PDFField);
  pages : option (list (list (option string)));
  text : string + string;
  detected : Obj.t JsValue
}.

Section Extraction.

(** The line heuristics of [parseFieldsFromText]; the strategy chain
    only looks at how many fields they return. *)
Variable parseFieldsFromText : string -> Obj.t JsValue.

Variable files : string -> PdfFile.

Definition or_empty (s : option string) : string :=
  match s with Some t => t | None => EmptyString end.

Definition fieldValue (c : FieldContent) : option string :=
  match c with
  | PDFTextField text => Some (or_empty text)
  | PDFCheckBox checked => Some (if checked then "Yes" else "No")
  | PDFRadioGroup selected => Some (or_empty selected)
  | PDFDropdown selected =>
      Some (match selected with
            | Some options => join ", " options
            | None => EmptyString
            end)
  | OtherField => Some EmptyString
  | Unreadable => None
  end.

(** The loop of [extractFormFields] over the fields of the form; a
    document that cannot be loaded gives the empty object. *)
Definition readFormFields (file : PdfFile) : Obj.t JsValue :=
  match form file with
  | None => Obj.empty
  | Some fields =>
      fold_left
        (fun extractedFields field =>
           match fieldValue (content field) with
           | Some v =>
               if truthy v && negb (is_empty (trim v))
               then Obj.set (getName field) (JString (trim v)) extractedFields
               else extractedFields
           | None => extractedFields
           end)
        fields Obj.empty
  end.

Definition extractFormFields (pdfPath : string) : Eff.M (Obj.t JsValue) :=
  (Eff.emit (EvLoadForm pdfPath);;
   Eff.ret (readFormFields (files pdfPath)))%eff.

(** [s.replace(':', '')]: the first colon goes. *)
Fixpoint remove_first_colon (s : string) : string :=
  match s with
  | EmptyString => EmptyString
  | String c s' => if Ascii.eqb c ":" then s' else String c (remove_first_colon s')
  end.

(** The loop over the adjacent items of one page; [None] when an item
    cannot be decoded, which the source catches. *)
Fixpoint pairTexts (texts : list (option string)) (fields : Obj.t JsValue)
  : option (Obj.t JsValue) :=
  match texts with
  | current :: ((next :: _) as rest) =>
      match current, next with
      | Some currentText, Some nextText =>
          let fields' :=
            if endsWith ":" (trim currentText)
               && (0 <? String.length (trim nextText))
            then Obj.set (trim (remove_first_colon currentText))
                         (JString (trim nextText)) fields
            else if (2 <? String.length (trim currentText))
                    && (0 <? String.length (trim nextText))
            then Obj.set (trim currentText) (JString (trim nextText)) fields
            else fields in
          pairTexts rest fields'
      | _, _ => None
      end
  | _ => Some fields
  end.

Fixpoint pairPages (ps : list (list (option string))) (fields : Obj.t JsValue)
  : option (Obj.t JsValue) :=
  match ps with
  | [] => Some fields
  | page :: ps' =>
      match pairTexts page fields with
      | Some fields' => pairPages ps' fields'
      | None => None
      end
  end.

(** What the [pdfParser_dataReady] and [pdfParser_dataError] handlers
    resolve with. *)
Definition readStructure (file : PdfFile) : Obj.t JsValue :=
  match pages file with
  | None => Obj.empty
  | Some ps =>
      match pairPages ps Obj.empty with
      | Some fields => fields
      | None => Obj.empty
      end
  end.

Definition extractWithPdf2Json (pdfPath : string) : Eff.M (Obj.t JsValue) :=
  (Eff.emit (EvPdf2Json pdfPath);;
   Eff.ret (readStructure (files pdfPath)))%eff.

(** The remote OCR; every failure inside it ends in an empty object. *)
Definition extractWithOCR (pdfPath : string) (apiKey : option string)
  : Eff.M (Obj.t JsValue) :=
  match apiKey with
  | Some (String _ _) =>
      (Eff.emit (EvOcr pdfPath);; Eff.ret (detected (files pdfPath)))%eff
  | _ => Eff.ret Obj.empty
  end.

Record ExtractionResult : Type := mkExtraction {
  success : bool;
  fields : Obj.t JsValue;
  fieldCount : nat;
  rawText : option string;
  method : string;
  message : option string
}.

Definition fieldTotal (o : Obj.t JsValue) : nat := List.length (Obj.keys o).

Definition extractPDFData (pdfPath : string) : Eff.M ExtractionResult :=
  Eff.catch
    (formFields <- extractFormFields pdfPath;;
     if 0 <? fieldTotal formFields then
       Eff.ret {| success := true; fields := formFields;
                  fieldCount := fieldTotal formFields;
                  rawText := None; method := "form-fields"; message := None |}
     else
     structuredData <- extractWithPdf2Json pdfPath;;
     if 5 <? fieldTotal structuredData then
       Eff.ret {| success := true; fields := structuredData;
                  fieldCount := fieldTotal structuredData;
                  rawText := None; method := "pdf2json"; message := None |}
     else
     pdfText <- Eff.await (EvPdfParse pdfPath) (text (files pdfPath));;
     let none :=
       {| success := true; fields := Obj.empty; fieldCount := 0;
          rawText := None; method := "none";
          message := Some "Could not extract data. PDF may be empty, encrypted, or have unrecognizable format." |} in
     if 50 <? String.length pdfText then
       let fields := parseFieldsFromText pdfText in
       if 5 <? fieldTotal fields then
         Eff.ret {| success := true; fields := fields;
                    fieldCount := fieldTotal fields;
                    rawText := Some pdfText; method := "text-extraction";
                    message := None |}
       else Eff.ret none
     else Eff.ret none)%eff
    (fun msg => Eff.throw ("PDF read error: " ++ msg)).

(** [String(value)] on what is neither a string nor a number. *)
Definition js_String (v : JsValue) : string := CsvParser.js_toString v.

Definition convertExtractedDataToRows (extractedFields : Obj.t JsValue)
  : TabularResult :=
  let row :=
    fold_left
      (fun row kv =>
         let '(key, value) := kv in
         match value with
         | JObject members =>
             match Obj.get members "value" with
             | Some inner => Obj.set key inner row
             | None => Obj.set key (JString (js_String value)) row
             end
         | JString _ | JNumber _ => Obj.set key value row
         | _ => Obj.set key (JString (js_String value)) row
         end)
      extractedFields Obj.empty in
  {| headers := Obj.keys row; rows := [row]; rowCount := 1 |}.

Record ParsedPdf : Type := mkParsedPdf {
  parsed_success : bool;
  parsed_data : TabularResult;
  extractedFieldCount : nat;
  parsed_method : string
}.

Definition parsePDF (pdfPath : string) (apiKey : option string)
  : Eff.M ParsedPdf :=
  Eff.catch
    (result <- extractPDFData pdfPath;;
     let standard :=
       {| parsed_success := true;
          parsed_data := convertExtractedDataToRows (fields result);
          extractedFieldCount := fieldCount result;
          parsed_method := method result |} in
     if (fieldCount result =? 0)
        && match apiKey with Some k => truthy k | None => false end
     then
       ocrFields <- extractWithOCR pdfPath apiKey;;
       if 0 <? fieldTotal ocrFields then
         Eff.ret {| parsed_success := true;
                    parsed_data := convertExtractedDataToRows ocrFields;
                    extractedFieldCount := fieldTotal ocrFields;
                    parsed_method := "datalab-ocr" |}
       else Eff.ret standard
     else Eff.ret standard)%eff
    (fun msg => Eff.throw ("Failed to parse PDF: " ++ msg)).

End Extraction.

End PdfParser.

(* ================================================================== *)
(** ** services/datalabService.js *)

Module DatalabService.
Import JsString.

(** The body of a status reply, with the members the client reads;
    [None] is an absent member.  [fields_filled] is the length of that
    array, [own_keys] is [Object.keys(status)]. *)
Record FillStatus : Type := mkStatus {
  status : string;
  output_base64 : option string;
  output_url : option string;
  output_file_url : option string;
  file_url : option string;
  download_url : option string;
  url : option string;
  error : option string;
  fields_filled : option nat;
  fields_filled_count : option nat;
  fieldsFilledCount : option nat;
  own_keys : list string
}.

Record SubmitReply : Type := mkSubmitReply {
  request_id : string;
  reply_status : string
}.

(** The remote service and the network: each answer is the reply, or
    the message of the error the call throws.  The answer to a poll may
    change from one poll to the next. *)
Record Remote : Type := mkRemote {
  submit_reply : string -> Obj.t FieldDescriptor -> string -> string + SubmitReply;
  poll_reply : string -> nat -> string + FillStatus;
  fetch_reply : string -> string + unit
}.

Record FillRequest : Type := mkFillRequest {
  requestId : string;
  submitted_status : string
}.

Record FillResult : Type := mkFillResult {
  success : bool;
  filePath : string;
  fieldsFilledCount_result : nat
}.

Section Client.

Variable remote : Remote.

Definition fillPDFForm (pdfPath : string) (fieldData : Obj.t FieldDescriptor)
           (context : string) (apiKey : string) : Eff.M FillRequest :=
  Eff.catch
    (response <- Eff.await (EvSubmit pdfPath fieldData context)
                           (submit_reply remote pdfPath fieldData context);;
     Eff.ret {| requestId := request_id response;
                submitted_status := reply_status response |})%eff
    (fun msg => Eff.throw ("Datalab API error: " ++ msg)).

(** The [attempts]-th status check of one request. *)
Definition checkFillStatus (requestId : string) (apiKey : string)
           (attempts : nat) : Eff.M FillStatus :=
  Eff.catch
    (Eff.await (EvPoll requestId) (poll_reply remote requestId attempts))
    (fun msg => Eff.throw ("Status check error: " ++ msg)).

Definition downloadFilledPDF (fileUrl outputPath : string) : Eff.M string :=
  Eff.catch
    (Eff.await (EvFetch fileUrl) (fetch_reply remote fileUrl);;
     Eff.emit (EvWriteFile outputPath (FromUrl fileUrl));;
     Eff.ret outputPath)%eff
    (fun msg => Eff.throw ("Download error: " ++ msg)).

Definition is_complete (s : FillStatus) : bool :=
  String.eqb (status s) "complete" || String.eqb (status s) "completed"
  || String.eqb (status s) "finished".

Definition is_failed (s : FillStatus) : bool :=
  String.eqb (status s) "failed" || String.eqb (status s) "error".

(** [a || b] on members that are strings when present. *)
Definition or_else (a b : option string) : option string :=
  match a with
  | Some s => if truthy s then a else b
  | None => b
  end.

Definition count_or (a : option nat) (b : nat) : nat :=
  match a with
  | Some (S n) => S n
  | _ => b
  end.

(** [status.output_base64 && status.output_base64 !== '']. *)
Definition inlinePayload (s : FillStatus) : option string :=
  or_else (output_base64 s) None.

Definition outputUrl (s : FillStatus) : option string :=
  or_else (output_url s)
    (or_else (output_file_url s)
       (or_else (file_url s)
          (or_else (download_url s) (or_else (url s) None)))).

(** [status.error || 'Unknown error']. *)
Definition failureDetail (s : FillStatus) : string :=
  match or_else (error s) None with
  | Some detail => detail
  | None => "Unknown error"
  end.

(** What a turn of the loop does with a complete status. *)
Definition finish (s : FillStatus) (outputPath : string) : Eff.M FillResult :=
  match inlinePayload s with
  | Some base64Data =>
      (Eff.emit (EvWriteFile outputPath (FromBase64 base64Data));;
       Eff.ret {| success := true; filePath := outputPath;
                  fieldsFilledCount_result := count_or (fields_filled s) 0 |})%eff
  | None =>
      match outputUrl s with
      | Some u =>
          (downloadFilledPDF u outputPath;;
           Eff.ret {| success := true; filePath := outputPath;
                      fieldsFilledCount_result :=
                        count_or (fields_filled_count s)
                                 (count_or (fieldsFilledCount s) 0) |})%eff
      | None =>
          Eff.throw ("No output data in completed response. Available fields: "
                     ++ join ", " (own_keys s))
      end
  end.

(** The [while (attempts < maxAttempts)] loop; [fuel] bounds the
    number of turns the model may take. *)
Fixpoint pollLoop (fuel : nat) (requestId outputPath apiKey : string)
         (maxAttempts intervalMs attempts : nat) : Eff.M FillResult :=
  match fuel with
  | O => ([], OutOfFuel)
  | S fuel' =>
      if attempts <? maxAttempts then
        (s <- checkFillStatus requestId apiKey attempts;;
         if is_complete s then finish s outputPath
         else if is_failed s then
           Eff.throw ("Form filling failed: " ++ failureDetail s)
         else
           Eff.emit (EvSleep intervalMs);;
           pollLoop fuel' requestId outputPath apiKey
                    maxAttempts intervalMs (S attempts))%eff
      else Eff.throw "Timeout waiting for form filling to complete"
  end.

Definition pollAndDownloadPDF (requestId outputPath apiKey : string)
           (maxAttempts intervalMs : nat) : Eff.M FillResult :=
  pollLoop (S maxAttempts) requestId outputPath apiKey maxAttempts intervalMs 0.

Definition default_maxAttempts : nat := 90.
Definition default_intervalMs : nat := 3000.

End Client.

(** The number of status checks in a trace. *)
Definition polls (tr : list Event) : nat :=
  List.length (filter (fun e => match e with EvPoll _ => true | _ => false end) tr).

(** The trace of [n] turns that each poll and then sleep. *)
Fixpoint waiting (requestId : string) (intervalMs n : nat) : list Event :=
  match n with
  | O => []
  | S n' => EvPoll requestId :: EvSleep intervalMs :: waiting requestId intervalMs n'
  end.

Definition complete_statuses : list string := ["complete"; "completed"; "finished"].
Definition failure_statuses : list string := ["failed"; "error"].

(** The [i]-th poll is answered, with a status that is neither
    complete-equivalent nor failure-equivalent. *)
Definition pending (remote : Remote) (requestId : string) (i : nat) : Prop :=
  exists s, poll_reply remote requestId i = inr s
            /\ ~ In (status s) (complete_statuses ++ failure_statuses)%list.

End DatalabService.

(* ================================================================== *)
(** ** routes/formFilling.js: POST /api/fill-form *)

Module FormFilling.
Import JsString.

Record FillFormBody : Type := mkBody {
  pdfPath : option string;
  csvPath : option string;
  dataPdfPath : option string;
  textData : option string;
  rowIndex : option Z;
  context : option string;
  customMappings : option (Obj.t string)
}.

Inductive ResponseBody : Type :=
| ErrorBody (error : string)
| FilledBody (filledPdfPath filledPdfFilename : string)
             (fieldsFilledCount : nat) (requestId : string).

Record HttpResponse : Type := mkResponse {
  statusCode : nat;
  body : ResponseBody
}.

(** Everything outside the handler: the file system and the libraries,
    the environment variable, the clock and the remote service. *)
Record World : Type := mkWorld {
  csv : CsvParser.CsvWorld;
  pdfs : string -> PdfParser.PdfFile;
  DATALAB_API_KEY : option string;
  now : string;
  remote : DatalabService.Remote
}.

Section Route.

Variable parseFieldsFromText : string -> Obj.t JsValue.
Variable w : World.

Definition given (s : option string) : bool :=
  match s with Some t => truthy t | None => false end.

Definition text_of (s : option string) : string :=
  match s with Some t => t | None => EmptyString end.

Definition respond (code : nat) (message : string) : Eff.M HttpResponse :=
  Eff.ret {| statusCode := code; body := ErrorBody message |}.

(** The branch on the data source: the parsed data, or the response of
    an early [return]. *)
Definition parseSource (req : FillFormBody)
  : Eff.M (HttpResponse + TabularResult) :=
  (if given (textData req) then
     Eff.ret (inr (TextParser.parseText (text_of (textData req))))
   else if given (csvPath req) then
     parsedData <- CsvParser.parseCSV (csv w) (text_of (csvPath req));;
     Eff.ret (inr parsedData)
   else if negb (given (DATALAB_API_KEY w)) then
     Eff.ret (inl {| statusCode := 500;
                     body := ErrorBody "DATALAB_API_KEY not configured" |})
   else
     pdfResult <- PdfParser.parsePDF parseFieldsFromText (pdfs w)
                    (text_of (dataPdfPath req)) (DATALAB_API_KEY w);;
     Eff.ret (inr (PdfParser.parsed_data pdfResult)))%eff.

(** From the row-index check to the response. *)
Definition fillRow (req : FillFormBody) (index : Z) (parsedData : TabularResult)
  : Eff.M HttpResponse :=
  (if (index <? 0)%Z || (index >=? Z.of_nat (List.length (rows parsedData)))%Z
   then respond 400 "Invalid row index"
   else
     let selectedRow := nth (Z.to_nat index) (rows parsedData) Obj.empty in
     let fieldData :=
       CsvParser.convertRowToFieldData selectedRow (customMappings req) in
     if negb (given (DATALAB_API_KEY w)) then
       respond 500 "DATALAB_API_KEY not configured"
     else
       let apiKey := text_of (DATALAB_API_KEY w) in
       fillResult <- DatalabService.fillPDFForm (remote w)
                       (text_of (pdfPath req)) fieldData
                       (text_of (context req)) apiKey;;
       let outputFilename := "filled-" ++ now w ++ ".pdf" in
       let outputPath := "uploads/" ++ outputFilename in
       result <- DatalabService.pollAndDownloadPDF (remote w)
                   (DatalabService.requestId fillResult) outputPath apiKey
                   DatalabService.default_maxAttempts
                   DatalabService.default_intervalMs;;
       Eff.ret {| statusCode := 200;
                  body := FilledBody outputPath outputFilename
                            (DatalabService.fieldsFilledCount_result result)
                            (DatalabService.requestId fillResult) |})%eff.

Definition fill_form (req : FillFormBody) : Eff.M HttpResponse :=
  Eff.catch
    (if negb (given (pdfPath req)) then respond 400 "PDF path is required"
     else if negb (given (csvPath req)) && negb (given (dataPdfPath req))
             && negb (given (textData req))
     then respond 400 "Either CSV path, data PDF path, or text data is required"
     else match rowIndex req with
          | None => respond 400 "Row index is required"
          | Some index =>
              parsed <- parseSource req;;
              match parsed with
              | inl early => Eff.ret early
              | inr parsedData => fillRow req index parsedData
              end
          end)%eff
    (fun msg => respond 500 msg).

(** Whether a trace holds a submission of [fillPDFForm]. *)
Definition submits (tr : list Event) : bool :=
  existsb (fun e => match e with EvSubmit _ _ _ => true | _ => false end) tr.

(** Whether a trace holds a request to the remote service of any kind:
    the OCR of [extractWithOCR], a submission, a poll or a download. *)
Definition calls_remote (tr : list Event) : bool :=
  existsb (fun e => match e with
                    | EvOcr _ | EvSubmit _ _ _ | EvPoll _ | EvFetch _ => true
                    | _ => false
                    end) tr.

End Route.

End FormFilling.

(* ================================================================== *)
(** ** The properties *)

(** The data-model invariant of a [TabularResult]. *)
Definition tabular_invariant (r : TabularResult) : Prop :=
  rowCount r = List.length (rows r)
  /\ forall row, In row (rows r) ->
       forall k, In k (Obj.keys row) -> In k (headers r).

(* ================================================================== *)
(** ** Sample data *)

Module Samples.
Import JsString.

Definition scenario_text : string :=
  "Name: Jane Doe" ++ lf ++ "Email: jane@x.com" ++ lf ++ lf ++ "Phone:555-1234".

(** A filled form with one native field and a page whose text holds six
    labelled values. *)
Definition filled_form : PdfParser.PdfFile :=
  {| PdfParser.form :=
       Some [ PdfParser.mkField "applicant" (PdfParser.PDFTextField (Some " Jane Doe "));
              PdfParser.mkField "notes" (PdfParser.PDFTextField None) ];
     PdfParser.pages :=
       Some [[ Some "Name:"; Some "Jane"; Some "Email:"; Some "jane@x.com";
               Some "Phone:"; Some "555-1234"; Some "City:"; Some "Paris";
               Some "Zip:"; Some "75001"; Some "Country:"; Some "France" ]];
     PdfParser.text := inr "Name: Jane";
     PdfParser.detected := [] |}.

(** A scanned document none of the libraries gets anything from. *)
Definition blank_scan : PdfParser.PdfFile :=
  {| PdfParser.form := None;
     PdfParser.pages := Some [[]];
     PdfParser.text := inr EmptyString;
     PdfParser.detected := [] |}.

Definition no_heuristics (pdfText : string) : Obj.t JsValue := [].

End Samples.

Module Samples2.
Import JsString DatalabService.

Definition pending_status : FillStatus :=
  {| status := "pending"; output_base64 := None; output_url := None;
     output_file_url := None; file_url := None; download_url := None;
     url := None; error := None; fields_filled := None;
     fields_filled_count := None; fieldsFilledCount := None;
     own_keys := ["status"] |}.

Definition completed_inline : FillStatus :=
  {| status := "completed"; output_base64 := Some "JVBERi0xLjQ=";
     output_url := None; output_file_url := None; file_url := None;
     download_url := None; url := None; error := None;
     fields_filled := Some 4; fields_filled_count := None;
     fieldsFilledCount := None;
     own_keys := ["status"; "output_base64"; "fields_filled"] |}.

Definition accepted : string + SubmitReply :=
  inr {| request_id := "req-1"; reply_status := "pending" |}.

(** A remote that finds the job pending twice and then completed. *)
Definition third_time_remote : Remote :=
  {| submit_reply := fun _ _ _ => accepted;
     poll_reply := fun _ i => inr (if i <? 2 then pending_status else completed_inline);
     fetch_reply := fun _ => inr tt |}.

(** A remote whose job never leaves the pending state. *)
Definition stalled_remote : Remote :=
  {| submit_reply := fun _ _ _ => accepted;
     poll_reply := fun _ _ => inr pending_status;
     fetch_reply := fun _ => inr tt |}.

(** A CSV file of two data lines, and what Papa Parse makes of it. *)
Definition two_rows : CsvParser.PapaResults :=
  {| CsvParser.data :=
       [ [("name", JString "Jane"); ("zip_code", JString "75001")];
         [("name", JString "John"); ("zip_code", JString " ")] ];
     CsvParser.errors := [];
     CsvParser.meta_fields := Some ["name"; "zip_code"] |}.

Definition two_rows_world : FormFilling.World :=
  {| FormFilling.csv :=
       {| CsvParser.readFile := fun _ => inr ("name,zip_code" ++ lf ++ "Jane,75001"
                                              ++ lf ++ "John, ");
          CsvParser.Papa_parse := fun _ => two_rows |};
     FormFilling.pdfs := fun _ => Samples.blank_scan;
     FormFilling.DATALAB_API_KEY := Some "key";
     FormFilling.now := "1700000000000";
     FormFilling.remote := third_time_remote |}.


End Samples2.

Module Samples3.
Import JsString.


(** A one-line JSON text whose key holds a colon. *)
Definition colon_key_json : string :=
  "{" ++ dq ++ "a:b" ++ dq ++ ": " ++ dq ++ "c" ++ dq ++ "}".

End Samples3.

(* ================================================================== *)
(** ** The field-name rules of the two mapping generators

    A rule of [generateFieldMappings] and [generateTextFieldMappings] is a
    regular expression under the [i] flag that is an alternation of
    literal words, some joined by [.*]; [pattern.test(header)] asks
    whether one alternative occurs somewhere in the header. *)

Module Rules.
Import JsString.

(** A letter of a pattern, written in lower case, against a character of
    the header under the [i] flag. *)
Definition same_letter (p c : ascii) : bool := Ascii.eqb (lower_char c) p.

(** A literal word at the start of [s]: what follows it. *)
Fixpoint word (w s : string) : option string :=
  match w with
  | EmptyString => Some s
  | String p w' =>
      match s with
      | String c s' => if same_letter p c then word w' s' else None
      | EmptyString => None
      end
  end.

(** [.*WORD.*WORD...]: each [.*] runs over characters that are not line
    terminators. *)
Fixpoint gaps (words : list string) : string -> bool :=
  match words with
  | [] => fun _ => true
  | w :: more =>
      fix scan (s : string) : bool :=
        match word w s with
        | Some rest => gaps more rest
        | None => false
        end
        || match s with
           | String c s' => negb (is_lt c) && scan s'
           | EmptyString => false
           end
  end.

(** An alternative, [WORD.*WORD...], at the start of [s]. *)
Definition alternative (words : list string) (s : string) : bool :=
  match words with
  | [] => true
  | w :: more =>
      match word w s with
      | Some rest => gaps more rest
      | None => false
      end
  end.

(** [pattern.test(header)]: some alternative at some position. *)
Fixpoint test (pattern : list (list string)) (header : string) : bool :=
  existsb (fun words => alternative words header) pattern
  || match header with
     | String _ rest => test pattern rest
     | EmptyString => false
     end.

(** The loop over the rules: the description of the first rule whose
    pattern matches. *)
Fixpoint firstMatch (rules : list (list (list string) * string)) (header : string)
  : option string :=
  match rules with
  | [] => None
  | (pattern, description) :: more =>
      if test pattern header then Some description else firstMatch more header
  end.

End Rules.

(** services/csvParser.js: [generateFieldMappings]. *)
Module CsvMappings.
Import JsString.

Definition fieldPatterns : list (list (list string) * string) :=
  [ ([["title"]; ["company"; "name"]], "Title or Company Name");
    ([["surname"]; ["last"; "name"]], "Surname or Last Name");
    ([["first"; "name"]; ["given"; "name"]], "First Name");
    ([["street"]; ["address"; "street"]], "Street Address");
    ([["number"]; ["street"; "number"]], "Street Number");
    ([["postcode"]; ["postal"; "code"]; ["zip"]], "Postal Code");
    ([["town"]; ["city"]], "Town or City");
    ([["country"]], "Country");
    ([["account"; "holder"]], "Account Holder Name");
    ([["iban"]], "IBAN Number");
    ([["swift"]; ["bic"]], "SWIFT Code (BIC)");
    ([["currency"]], "Currency");
    ([["bank"; "account"]; ["account"; "number"]], "Bank Account Number");
    ([["routing"]], "Routing Number (US banks)");
    ([["bank"; "name"]], "Bank Name") ].

(** What the loop body stores for a header. *)
Definition describeHeader (header : string) : string :=
  match Rules.firstMatch fieldPatterns header with
  | Some description => description
  | None => header
  end.

Definition generateFieldMappings (headers : list string) : Obj.t string :=
  fold_left
    (fun mappings header =>
       Obj.set (CsvParser.normalizeKey header) (describeHeader header) mappings)
    headers Obj.empty.

End CsvMappings.

(** services/textParser.js: [generateTextFieldMappings]. *)
Module TextMappings.
Import JsString.

Definition fieldPatterns : list (list (list string) * string) :=
  [ ([["name"]; ["full"; "name"]; ["first"; "name"]], "Name");
    ([["email"]; ["e-mail"]], "Email Address");
    ([["phone"]; ["telephone"]; ["mobile"]; ["contact"]], "Phone Number");
    ([["address"]; ["street"]], "Address");
    ([["city"]; ["town"]], "City");
    ([["state"]; ["province"]], "State/Province");
    ([["zip"]; ["postal"; "code"]; ["postcode"]], "Postal Code");
    ([["country"]], "Country");
    ([["company"]; ["organization"]], "Company Name");
    ([["title"]; ["position"]; ["job"]], "Job Title");
    ([["date"]; ["when"]], "Date");
    ([["signature"]; ["sign"]], "Signature") ].

Definition describeHeader (header : string) : string :=
  match Rules.firstMatch fieldPatterns header with
  | Some description => description
  | None => header
  end.

Definition generateTextFieldMappings (headers : list string) : Obj.t string :=
  fold_left
    (fun mappings header => Obj.set header (describeHeader header) mappings)
    headers Obj.empty.

End TextMappings.

(** components/CsvPreview.jsx: the "Field Mappings Preview" of the
    selected row. *)
Module CsvPreview.
Import JsString.

Record MappingItem : Type := mkItem {
  column : string;      (* "CSV Column" *)
  target : string;      (* "PDF Field" *)
  shown : JsValue       (* "Value" *)
}.

(** The items [Object.entries(row).map(...)] renders; an entry mapped to
    [null] renders nothing. *)
Definition mappingItems (row : Obj.t JsValue) (fieldMappings : Obj.t string)
  : list MappingItem :=
  flat_map
    (fun entry : string * JsValue =>
       let (key, value) := entry in
       if CsvParser.js_truthy value
          && negb (is_empty (trim (CsvParser.js_toString value)))
       then [ {| column := key;
                 target := match Obj.get fieldMappings
                                   (replace_ws_runs "_" (toLowerCase key)) with
                           | Some d => if truthy d then d else key
                           | None => key
                           end;
                 shown := value |} ]
       else [])
    row.

End CsvPreview.

Module Samples4.
Import JsString DatalabService.

(** A remote whose second status check fails in transport. *)
Definition flaky_remote : Remote :=
  {| submit_reply := fun _ _ _ => Samples2.accepted;
     poll_reply := fun _ i =>
       if i =? 0 then inr Samples2.pending_status else inl "socket hang up";
     fetch_reply := fun _ => inr tt |}.

(** The world of [Samples2.two_rows_world] without the API key. *)
Definition keyless_world : FormFilling.World :=
  {| FormFilling.csv := FormFilling.csv Samples2.two_rows_world;
     FormFilling.pdfs := fun _ => Samples.blank_scan;
     FormFilling.DATALAB_API_KEY := None;
     FormFilling.now := "1700000000000";
     FormFilling.remote := Samples2.third_time_remote |}.

Definition first_row_request : FormFilling.FillFormBody :=
  {| FormFilling.pdfPath := Some "uploads/form.pdf";
     FormFilling.csvPath := Some "uploads/data.csv";
     FormFilling.dataPdfPath := None;
     FormFilling.textData := None;
     FormFilling.rowIndex := Some 0%Z;
     FormFilling.context := None;
     FormFilling.customMappings := None |}.

(** A request that gives text and a CSV path at once, and asks for the
    second row. *)
Definition text_second_row_request : FormFilling.FillFormBody :=
  {| FormFilling.pdfPath := Some "uploads/form.pdf";
     FormFilling.csvPath := Some "uploads/data.csv";
     FormFilling.dataPdfPath := None;
     FormFilling.textData := Some "Name: Jane";
     FormFilling.rowIndex := Some 1%Z;
     FormFilling.context := None;
     FormFilling.customMappings := None |}.

(** A blank fillable form: an empty text field and an unchecked box. *)
Definition blank_form : PdfParser.PdfFile :=
  {| PdfParser.form :=
       Some [ PdfParser.mkField "name" (PdfParser.PDFTextField None);
              PdfParser.mkField "agree" (PdfParser.PDFCheckBox false) ];
     PdfParser.pages := Some [[]];
     PdfParser.text := inr EmptyString;
     PdfParser.detected := [] |}.

(** A document whose second page holds an item that cannot be decoded. *)
Definition broken_page : PdfParser.PdfFile :=
  {| PdfParser.form := None;
     PdfParser.pages := Some [[Some "Name:"; Some "Jane"]; [Some "Email:"; None]];
     PdfParser.text := inr EmptyString;
     PdfParser.detected := [] |}.

(** A scanned document with two pairs in its structure, nothing else
    locally, and one field found by the remote OCR. *)
Definition two_pairs_scan : PdfParser.PdfFile :=
  {| PdfParser.form := None;
     PdfParser.pages := Some [[Some "Name:"; Some "Jane"; Some "Doe"]];
     PdfParser.text := inr "Name: Jane Doe";
     PdfParser.detected := [("Name", JString "Jane Doe")] |}.

End Samples4.

Module Samples5.
Import JsString.

(** A CSV file whose second data line has a cell too many, and what
    Papa Parse makes of it. *)
Definition ragged : CsvParser.PapaResults :=
  {| CsvParser.data :=
       [ [("name", JString "Jane"); ("zip_code", JString "75001")];
         [("name", JString "John"); ("zip_code", JString "10001");
          ("__parsed_extra", JArray [JString "x"])] ];
     CsvParser.errors :=
       [ "{" ++ dq ++ "type" ++ dq ++ ":" ++ dq ++ "FieldMismatch" ++ dq ++ ","
         ++ dq ++ "code" ++ dq ++ ":" ++ dq ++ "TooManyFields" ++ dq ++ ","
         ++ dq ++ "row" ++ dq ++ ":1}" ];
     CsvParser.meta_fields := Some ["name"; "zip_code"] |}.

Definition ragged_world : FormFilling.World :=
  {| FormFilling.csv :=
       {| CsvParser.readFile := fun _ => inr ("name,zip_code" ++ lf ++ "Jane,75001"
                                              ++ lf ++ "John,10001,x");
          CsvParser.Papa_parse := fun _ => ragged |};
     FormFilling.pdfs := fun _ => Samples.blank_scan;
     FormFilling.DATALAB_API_KEY := Some "key";
     FormFilling.now := "1700000000000";
     FormFilling.remote := Samples2.third_time_remote |}.

End Samples5.

(* ================================================================== *)
(** ** services/pdfParser.js: the exchange of [extractWithOCR]

    [PdfParser.extractWithOCR] stands for the whole exchange with the
    remote service by one event and takes its result from the document.
    Here the exchange is followed request by request: [EvOcr] is the
    upload of the document, [EvPoll] a status check of the request and
    [EvSleep] the wait before it. *)

Module OcrExchange.
Import JsString.

(** A status reply as the loop reads it: its [status] member, and the
    object that the fields of the reply ([fields_filled], or
    [detected_fields]) are converted to, or the message of the error
    that the conversion throws. *)
Record OcrStatus : Type := mkOcrStatus {
  status : string;
  fields : string + Obj.t JsValue
}.

(** The remote service: the request id it answers an upload with, and
    its answer to the [attempts]-th status check of a request; or the
    message of the error the call throws. *)
Record OcrRemote : Type := mkOcrRemote {
  upload_reply : string -> string + string;
  status_reply : string -> nat -> string + OcrStatus
}.

Section Exchange.

Variable remote : OcrRemote.

Definition maxAttempts : nat := 60.

(** The [while (attempts < maxAttempts)] loop; [fuel] bounds the
    number of turns the model may take. *)
Fixpoint pollLoop (fuel : nat) (requestId : string) (attempts : nat)
  : Eff.M (Obj.t JsValue) :=
  match fuel with
  | O => ([], OutOfFuel)
  | S fuel' =>
      if attempts <? maxAttempts then
        (Eff.emit (EvSleep 3000);;
         statusResponse <- Eff.await (EvPoll requestId)
                                     (status_reply remote requestId attempts);;
         if String.eqb (status statusResponse) "complete"
            || String.eqb (status statusResponse) "completed"
         then
           match fields statusResponse with
           | inr detected => Eff.ret detected
           | inl message => Eff.throw message
           end
         else if String.eqb (status statusResponse) "failed"
                 || String.eqb (status statusResponse) "error"
         then Eff.ret Obj.empty
         else pollLoop fuel' requestId (S attempts))%eff
      else Eff.ret Obj.empty
  end.

Definition extractWithOCR (pdfPath : string) (apiKey : option string)
  : Eff.M (Obj.t JsValue) :=
  Eff.catch
    (match apiKey with
     | Some (String _ _) =>
         (requestId <- Eff.await (EvOcr pdfPath) (upload_reply remote pdfPath);;
          pollLoop (S maxAttempts) requestId 0)%eff
     | _ => Eff.ret Obj.empty
     end)
    (fun _ => Eff.ret Obj.empty).

End Exchange.

(** The trace of [n] turns that each sleep and then poll. *)
Fixpoint turns (requestId : string) (n : nat) : list Event :=
  match n with
  | O => []
  | S n' => EvSleep 3000 :: EvPoll requestId :: turns requestId n'
  end.

End OcrExchange.

Module Samples6.
Import JsString.

(** A remote that reports every job as finished. *)
Definition finished_remote : OcrExchange.OcrRemote :=
  {| OcrExchange.upload_reply := fun _ => inr "req-9";
     OcrExchange.status_reply := fun _ _ =>
       inr {| OcrExchange.status := "finished";
              OcrExchange.fields := inr [("Name", JString "Jane")] |} |}.

End Samples6.

(* ------------------------------------------------------------------ *)
(** *** Objects *)

Section ObjFacts.
Context {V : Type}.
Implicit Types (o : Obj.t V) (k : string) (v : V).

Lemma get_In_keys o k v : Obj.get o k = Some v -> In k (Obj.keys o).
Proof.
  induction o as [|[k' v'] o IH]; simpl; [discriminate|].
  destruct (String.eqb_spec k' k); intros H; auto.
Qed.

Lemma get_None_keys o k : Obj.get o k = None -> ~ In k (Obj.keys o).
Proof.
  induction o as [|[k' v'] o IH]; simpl; [tauto|].
  destruct (String.eqb_spec k' k); [discriminate|].
  intros H [E|HI]; [contradiction | exact (IH H HI)].
Qed.

Lemma In_keys_get o k : In k (Obj.keys o) -> exists v, Obj.get o k = Some v.
Proof.
  intros HI. destruct (Obj.get o k) eqn:E; [eauto|].
  destruct (get_None_keys _ _ E HI).
Qed.

Lemma get_In o k v : Obj.get o k = Some v -> In (k, v) o.
Proof.
  induction o as [|[k' v'] o IH]; simpl; [discriminate|].
  destruct (String.eqb_spec k' k); intros H.
  - left. congruence.
  - right. auto.
Qed.

Lemma keys_set o k v :
  Obj.keys (Obj.set k v o)
  = if Obj.has o k then Obj.keys o else (Obj.keys o ++ [k])%list.
Proof.
  unfold Obj.has.
  induction o as [|[k' v'] o IH]; simpl; [reflexivity|].
  destruct (String.eqb_spec k' k); simpl; [reflexivity|].
  rewrite IH. destruct (Obj.get o k); reflexivity.
Qed.

Lemma keys_set_new o k v : In k (Obj.keys (Obj.set k v o)).
Proof.
  rewrite keys_set. unfold Obj.has.
  destruct (Obj.get o k) eqn:E.
  - eapply get_In_keys; eauto.
  - apply in_or_app. right. left. reflexivity.
Qed.

Lemma keys_set_old o k k' v : In k (Obj.keys o) -> In k (Obj.keys (Obj.set k' v o)).
Proof.
  rewrite keys_set. destruct (Obj.has o k'); [auto|].
  intros H. apply in_or_app. auto.
Qed.

Lemma keys_set_inv o k k' v :
  In k (Obj.keys (Obj.set k' v o)) -> k = k' \/ In k (Obj.keys o).
Proof.
  rewrite keys_set. destruct (Obj.has o k'); [auto|].
  intros H. apply in_app_or in H. destruct H as [H|[H|[]]]; auto.
Qed.


Lemma get_set_same o k v : Obj.get (Obj.set k v o) k = Some v.
Proof.
  induction o as [|[k' v'] o IH]; simpl.
  - rewrite String.eqb_refl. reflexivity.
  - destruct (String.eqb_spec k' k) as [E|N]; simpl.
    + rewrite E, String.eqb_refl. reflexivity.
    + destruct (String.eqb_spec k' k); [contradiction | exact IH].
Qed.

Lemma get_set_other o k k' v : k' <> k -> Obj.get (Obj.set k' v o) k = Obj.get o k.
Proof.
  intros N.
  induction o as [|[k0 v0] o IH]; simpl.
  - destruct (String.eqb_spec k' k); [contradiction | reflexivity].
  - destruct (String.eqb_spec k0 k') as [E|N']; simpl.
    + subst k0. destruct (String.eqb_spec k' k); [contradiction | reflexivity].
    + destruct (String.eqb_spec k0 k); [reflexivity | exact IH].
Qed.

Lemma NoDup_keys_set o k v : NoDup (Obj.keys o) -> NoDup (Obj.keys (Obj.set k v o)).
Proof.
  intros ND. rewrite keys_set. unfold Obj.has.
  destruct (Obj.get o k) eqn:E; [exact ND|].
  apply NoDup_app; [exact ND | repeat constructor; simpl; tauto |].
  intros x Hx [<-|[]]. exact (get_None_keys _ _ E Hx).
Qed.

Lemma set_fresh o k v : ~ In k (Obj.keys o) -> Obj.set k v o = (o ++ [(k, v)])%list.
Proof.
  induction o as [|[k' v'] o IH]; simpl; [reflexivity|].
  intros N. destruct (String.eqb_spec k' k) as [E|_]; [tauto|].
  rewrite IH; tauto.
Qed.



Lemma NoDup_keys_assign (src : Obj.t V) o :
  NoDup (Obj.keys o) -> NoDup (Obj.keys (Obj.assign o src)).
Proof.
  unfold Obj.assign. revert o.
  induction src as [|[k' v'] src IH]; simpl; intros o H; [exact H|].
  apply IH. apply NoDup_keys_set. exact H.
Qed.

(** Writing the entries of an object one by one into an empty object
    gives the object back. *)
Lemma rebuild_from (o acc : Obj.t V) :
  NoDup (Obj.keys (acc ++ o)%list) ->
  fold_left (fun a kv => Obj.set (fst kv) (snd kv) a) o acc = (acc ++ o)%list.
Proof.
  revert acc.
  induction o as [|[k v] o IH]; simpl; intros acc ND.
  - rewrite app_nil_r. reflexivity.
  - assert (E : (acc ++ (k, v) :: o = (acc ++ [(k, v)]) ++ o)%list)
      by (rewrite <- app_assoc; reflexivity).
    rewrite set_fresh.
    + rewrite IH; [symmetry; exact E | rewrite <- E; exact ND].
    + unfold Obj.keys in *. rewrite map_app in ND. simpl in ND.
      apply NoDup_remove_2 in ND. intros HI. apply ND.
      apply in_or_app. left. exact HI.
Qed.

End ObjFacts.

(* ------------------------------------------------------------------ *)
(** *** The free-text scenario *)

Import JsString.

(** C8: on the scenario text, [parseText] returns the headers Name, Email,
    Phone in that order and the single row with their three values; the
    blank line adds nothing, and the line without a space after its colon
    is taken by the colon pattern, which comes first although the dash
    pattern would match it too. *)
Theorem C8_parseText_scenario :
  TextParser.parseText Samples.scenario_text
  = {| headers := ["Name"; "Email"; "Phone"];
       rows := [[("Name", JString "Jane Doe");
                 ("Email", JString "jane@x.com");
                 ("Phone", JString "555-1234")]];
       rowCount := 1 |}
  /\ TextParser.parseLine [("Name", JString "Jane Doe")] EmptyString
     = [("Name", JString "Jane Doe")]
  /\ TextParser.try_kv ":" "Phone:555-1234" = Some ("Phone", "555-1234")
  /\ TextParser.try_kv "-" "Phone:555-1234" = Some ("Phone:555", "1234")
  /\ TextParser.parseLine [] "Phone:555-1234" = [("Phone", JString "555-1234")].
Proof.
  repeat split; vm_compute; reflexivity.
Qed.

(* ------------------------------------------------------------------ *)
(** *** The strategy chain of the document extractor *)

Section Chain.
Import PdfParser.
Variable parseFieldsFromText : string -> Obj.t JsValue.
Variable files : string -> PdfFile.

Lemma extractPDFData_form pdfPath :
  0 < fieldTotal (readFormFields (files pdfPath)) ->
  extractPDFData parseFieldsFromText files pdfPath
  = ([EvLoadForm pdfPath],
     Returned {| success := true;
                 fields := readFormFields (files pdfPath);
                 fieldCount := fieldTotal (readFormFields (files pdfPath));
                 rawText := None; method := "form-fields"; message := None |}).
Proof.
  intros H. unfold extractPDFData, extractFormFields. simpl.
  apply Nat.ltb_lt in H. rewrite H. reflexivity.
Qed.

Lemma extractPDFData_accepts pdfPath tr r :
  extractPDFData parseFieldsFromText files pdfPath = (tr, Returned r) ->
  (method r = "form-fields" /\ 0 < fieldCount r
   /\ fields r = readFormFields (files pdfPath))
  \/ (method r = "pdf2json" /\ 5 < fieldCount r
      /\ fieldCount r = fieldTotal (readStructure (files pdfPath))
      /\ fields r = readStructure (files pdfPath))
  \/ (method r = "text-extraction" /\ 5 < fieldCount r
      /\ exists pdfText, text (files pdfPath) = inr pdfText
                         /\ fieldCount r = fieldTotal (parseFieldsFromText pdfText)
                         /\ fields r = parseFieldsFromText pdfText)
  \/ (method r = "none" /\ fieldCount r = 0 /\ fields r = Obj.empty).
Proof.
  unfold extractPDFData, extractFormFields, extractWithPdf2Json. simpl.
  destruct (0 <? fieldTotal (readFormFields (files pdfPath))) eqn:E1; simpl.
  { intros [= <- <-]. left. simpl. apply Nat.ltb_lt in E1. auto. }
  destruct (5 <? fieldTotal (readStructure (files pdfPath))) eqn:E2; simpl.
  { intros [= <- <-]. right. left. simpl. apply Nat.ltb_lt in E2. auto. }
  destruct (text (files pdfPath)) as [msg|pdfText] eqn:E3; simpl.
  { discriminate. }
  destruct (50 <? String.length pdfText); simpl.
  - destruct (5 <? fieldTotal (parseFieldsFromText pdfText)) eqn:E4; simpl.
    + intros [= <- <-]. right. right. left. simpl.
      apply Nat.ltb_lt in E4. eauto 6.
    + intros [= <- <-]. right. right. right. simpl. auto.
  - intros [= <- <-]. right. right. right. simpl. auto.
Qed.

(** C1: when the native form fields of a document give at least one
    non-empty field, [extractPDFData] returns that result under the
    method form-fields after the form-field extraction alone: its trace
    holds no structural pairing, no text extraction and no remote OCR,
    whatever those would have found, and [parsePDF] adds no OCR either.
    A result under the method pdf2json or text-extraction always has
    more than 5 fields. *)
Theorem C1_form_fields_first pdfPath
        (Hform : 0 < fieldTotal (readFormFields (files pdfPath))) :
  extractPDFData parseFieldsFromText files pdfPath
  = ([EvLoadForm pdfPath],
     Returned {| success := true;
                 fields := readFormFields (files pdfPath);
                 fieldCount := fieldTotal (readFormFields (files pdfPath));
                 rawText := None; method := "form-fields"; message := None |})
  /\ (forall apiKey,
        parsePDF parseFieldsFromText files pdfPath apiKey
        = ([EvLoadForm pdfPath],
           Returned {| parsed_success := true;
                       parsed_data :=
                         convertExtractedDataToRows (readFormFields (files pdfPath));
                       extractedFieldCount :=
                         fieldTotal (readFormFields (files pdfPath));
                       parsed_method := "form-fields" |}))
  /\ (forall otherPath tr r,
        extractPDFData parseFieldsFromText files otherPath = (tr, Returned r) ->
        (method r = "pdf2json" ->
         fields r = readStructure (files otherPath)
         /\ 5 < fieldTotal (readStructure (files otherPath)))
        /\ (method r = "text-extraction" ->
            exists pdfText, text (files otherPath) = inr pdfText
              /\ fields r = parseFieldsFromText pdfText
              /\ 5 < fieldTotal (parseFieldsFromText pdfText))).
Proof.
  split; [apply extractPDFData_form; exact Hform|].
  split.
  - intros apiKey. unfold parsePDF.
    rewrite (extractPDFData_form _ Hform). simpl.
    destruct (fieldTotal (readFormFields (files pdfPath))) eqn:E; [lia|].
    reflexivity.
  - intros otherPath tr r Hr.
    destruct (extractPDFData_accepts _ _ _ Hr)
      as [(M & _)|[(M & C & T & F)|[(M & C & pdfText & Ht & T & F)|(M & _)]]];
      split; intros M'; rewrite M in M'; try discriminate.
    + rewrite <- T. auto.
    + exists pdfText. rewrite <- T. auto.
Qed.


(** A document whose text cannot be read is another matter: the error
    of the reader goes through both functions. *)
Lemma parsePDF_read_error pdfPath apiKey msg :
  fieldTotal (readFormFields (files pdfPath)) = 0 ->
  fieldTotal (readStructure (files pdfPath)) <= 5 ->
  text (files pdfPath) = inl msg ->
  Eff.outcome (parsePDF parseFieldsFromText files pdfPath apiKey)
  = Thrown ("Failed to parse PDF: PDF read error: " ++ msg).
Proof.
  intros Hform Hstruct Htext.
  unfold parsePDF, extractPDFData, extractFormFields, extractWithPdf2Json.
  simpl. rewrite Hform, Htext. simpl.
  destruct (5 <? fieldTotal (readStructure (files pdfPath))) eqn:E.
  - apply Nat.ltb_lt in E. lia.
  - reflexivity.
Qed.

End Chain.

Lemma C1_form_fields_first_witness :
  5 < PdfParser.fieldTotal (PdfParser.readStructure Samples.filled_form)
  /\ PdfParser.extractPDFData Samples.no_heuristics (fun _ => Samples.filled_form) "a.pdf"
     = ([EvLoadForm "a.pdf"],
        Returned {| PdfParser.success := true;
                    PdfParser.fields := [("applicant", JString "Jane Doe")];
                    PdfParser.fieldCount := 1;
                    PdfParser.rawText := None;
                    PdfParser.method := "form-fields";
                    PdfParser.message := None |}).
Proof.
  split.
  - vm_compute. lia.
  - apply (proj1 (C1_form_fields_first Samples.no_heuristics
                    (fun _ => Samples.filled_form) "a.pdf"
                    ltac:(vm_compute; lia))).
Defined.


(* ------------------------------------------------------------------ *)
(** *** The polling loop of the fill client *)

Section Polling.
Import DatalabService.
Variable remote : Remote.
Variables requestId outputPath apiKey : string.
Variables maxAttempts intervalMs : nat.

Local Abbreviation loop fuel attempts :=
  (pollLoop remote fuel requestId outputPath apiKey maxAttempts intervalMs attempts).
Local Abbreviation run :=
  (pollAndDownloadPDF remote requestId outputPath apiKey maxAttempts intervalMs).

Lemma polls_app tr1 tr2 : polls (tr1 ++ tr2)%list = polls tr1 + polls tr2.
Proof. unfold polls. rewrite filter_app, length_app. reflexivity. Qed.

Lemma polls_waiting n : polls (waiting requestId intervalMs n) = n.
Proof.
  induction n as [|n IH]; [reflexivity|].
  change (S (polls (waiting requestId intervalMs n)) = S n). congruence.
Qed.


Lemma is_complete_spec s : is_complete s = true <-> In (status s) complete_statuses.
Proof.
  unfold is_complete, complete_statuses. simpl.
  rewrite !orb_true_iff, !String.eqb_eq. intuition congruence.
Qed.

Lemma is_failed_spec s : is_failed s = true <-> In (status s) failure_statuses.
Proof.
  unfold is_failed, failure_statuses. simpl.
  rewrite !orb_true_iff, !String.eqb_eq. intuition congruence.
Qed.

Lemma pending_flags s :
  ~ In (status s) (complete_statuses ++ failure_statuses)%list ->
  is_complete s = false /\ is_failed s = false.
Proof.
  intros H. split.
  - destruct (is_complete s) eqn:E; [|reflexivity].
    destruct H. apply in_or_app. left. apply is_complete_spec, E.
  - destruct (is_failed s) eqn:E; [|reflexivity].
    destruct H. apply in_or_app. right. apply is_failed_spec, E.
Qed.

(** The turns that find the job pending only poll and sleep. *)
Lemma pollLoop_wait n : forall fuel a,
  (forall i, i < n -> pending remote requestId (a + i)) ->
  a + n <= maxAttempts ->
  loop (n + fuel) a
  = ((waiting requestId intervalMs n ++ fst (loop fuel (a + n)))%list,
     snd (loop fuel (a + n))).
Proof.
  induction n as [|n IH]; intros fuel a Hw Hle.
  - rewrite Nat.add_0_r. simpl. destruct (loop fuel a); reflexivity.
  - change (S n + fuel) with (S (n + fuel)). simpl pollLoop.
    assert (Hlt : (a <? maxAttempts) = true) by (apply Nat.ltb_lt; lia).
    rewrite Hlt.
    destruct (Hw 0 ltac:(lia)) as (s & Hs & Hp).
    destruct (pending_flags s Hp) as [Hc Hf].
    rewrite Nat.add_0_r in Hs.
    unfold checkFillStatus. rewrite Hs. simpl. rewrite Hc, Hf.
    rewrite (IH fuel (S a)).
    + replace (S a + n) with (a + S n) by lia.
      destruct (loop fuel (a + S n)); reflexivity.
    + intros i Hi. replace (S a + i) with (a + S i) by lia. apply Hw. lia.
    + lia.
Qed.

(** The turn that gets an answer [s] at poll [n], after [n] pending ones. *)
Lemma run_reaches n :
  n < maxAttempts ->
  (forall i, i < n -> pending remote requestId i) ->
  run = ((waiting requestId intervalMs n ++ fst (loop (S (maxAttempts - n)) n))%list,
         snd (loop (S (maxAttempts - n)) n)).
Proof.
  intros Hn Hw. unfold pollAndDownloadPDF.
  replace (S maxAttempts) with (n + S (maxAttempts - n)) by lia.
  rewrite (pollLoop_wait n (S (maxAttempts - n)) 0); [reflexivity | exact Hw | lia].
Qed.



Lemma finish_no_poll s :
  polls (fst (finish remote s outputPath)) = 0
  /\ snd (finish remote s outputPath) <> OutOfFuel.
Proof.
  unfold finish, downloadFilledPDF.
  destruct (inlinePayload s); [split; [reflexivity | discriminate]|].
  destruct (outputUrl s) as [u|]; [|split; [reflexivity | discriminate]].
  destruct (fetch_reply remote u) as [msg|[]]; split;
    try reflexivity; discriminate.
Qed.

Lemma pollLoop_bounded fuel : forall a,
  maxAttempts - a < fuel ->
  polls (fst (loop fuel a)) <= maxAttempts - a
  /\ snd (loop fuel a) <> OutOfFuel.
Proof.
  induction fuel as [|fuel IH]; intros a Hfuel; [lia|].
  simpl pollLoop.
  destruct (a <? maxAttempts) eqn:Hlt;
    [|split; [unfold polls; simpl; lia | discriminate]].
  apply Nat.ltb_lt in Hlt.
  unfold checkFillStatus.
  destruct (poll_reply remote requestId a) as [msg|s]; simpl.
  { split; [unfold polls; simpl; lia | discriminate]. }
  destruct (is_complete s).
  { destruct (finish_no_poll s) as [P0 NF].
    destruct (finish remote s outputPath) as [tr r]. simpl in *.
    split; [|exact NF].
    change (polls (EvPoll requestId :: tr)) with (S (polls tr)). lia. }
  destruct (is_failed s).
  { split; [unfold polls; simpl; lia | discriminate]. }
  destruct (IH (S a) ltac:(lia)) as [P NF].
  destruct (loop fuel (S a)) as [tr r]. simpl in *.
  split; [|exact NF].
  change (polls (EvPoll requestId :: EvSleep intervalMs :: tr)) with (S (polls tr)).
  lia.
Qed.

(** C5: a call makes at most [maxAttempts] status checks and always
    ends (the budget of [maxAttempts] turns plus the one that leaves the
    loop is never exhausted); when every one of the [maxAttempts] polls
    finds the job neither complete nor failed, the call throws the
    timeout error after exactly [maxAttempts] polls.  The default
    [maxAttempts] is 90. *)
Theorem C5_polling_bound :
  polls (Eff.trace run) <= maxAttempts
  /\ Eff.outcome run <> OutOfFuel
  /\ ((forall i, i < maxAttempts -> pending remote requestId i) ->
      run = (waiting requestId intervalMs maxAttempts,
             Thrown "Timeout waiting for form filling to complete")
      /\ polls (Eff.trace run) = maxAttempts)
  /\ default_maxAttempts = 90.
Proof.
  destruct (pollLoop_bounded (S maxAttempts) 0 ltac:(lia)) as [P NF].
  split; [unfold Eff.trace, pollAndDownloadPDF; lia|].
  split; [exact NF|].
  split; [|reflexivity].
  intros Hw.
  assert (E : run = (waiting requestId intervalMs maxAttempts,
                     Thrown "Timeout waiting for form filling to complete")).
  { unfold pollAndDownloadPDF.
    replace (S maxAttempts) with (maxAttempts + 1) by lia.
    rewrite (pollLoop_wait maxAttempts 1 0 Hw ltac:(lia)).
    simpl pollLoop. rewrite Nat.ltb_irrefl. simpl.
    rewrite app_nil_r. reflexivity. }
  split; [exact E|].
  rewrite E. apply polls_waiting.
Qed.

End Polling.


Lemma C5_polling_bound_witness :
  DatalabService.pollAndDownloadPDF Samples2.stalled_remote
    "req-1" "uploads/filled-1.pdf" "key" 3 3000
  = (DatalabService.waiting "req-1" 3000 3,
     Thrown "Timeout waiting for form filling to complete").
Proof.
  apply (proj1 (proj2 (proj2 (C5_polling_bound Samples2.stalled_remote
                                "req-1" "uploads/filled-1.pdf" "key" 3 3000)))).
  intros i Hi. exists Samples2.pending_status.
  split; [reflexivity | simpl; intuition discriminate].
Defined.

(* ------------------------------------------------------------------ *)
(** *** The shape of what the parsers return *)

Section Shapes.
Import PdfParser.

Lemma keys_fold_set {V} (g : string -> V) (hs : list string) :
  forall (acc : Obj.t V) k,
    In k (Obj.keys (fold_left (fun row h => Obj.set h (g h) row) hs acc)) ->
    In k (Obj.keys acc) \/ In k hs.
Proof.
  induction hs as [|h hs IH]; simpl; intros acc k H; [auto|].
  destruct (IH _ _ H) as [H'|H']; [|auto].
  destruct (keys_set_inv _ _ _ _ H'); auto.
Qed.

Lemma parseText_invariant text : tabular_invariant (TextParser.parseText text).
Proof.
  split; [reflexivity|].
  intros row [<-|[]] k Hk. simpl.
  destruct (keys_fold_set _ _ _ _ Hk) as [[]|H]. exact H.
Qed.

Lemma convertExtractedDataToRows_invariant extractedFields :
  tabular_invariant (convertExtractedDataToRows extractedFields).
Proof.
  split; [reflexivity|].
  intros row [<-|[]] k Hk. exact Hk.
Qed.

Lemma parseCSV_returns w filePath tr r :
  CsvParser.parseCSV w filePath = (tr, Returned r) ->
  exists fileContent,
    CsvParser.readFile w filePath = inr fileContent
    /\ CsvParser.errors (CsvParser.Papa_parse w fileContent) = []
    /\ tr = [EvReadCsv filePath]
    /\ r = {| headers := match CsvParser.meta_fields (CsvParser.Papa_parse w fileContent) with
                         | Some fields => fields
                         | None => []
                         end;
              rows := CsvParser.data (CsvParser.Papa_parse w fileContent);
              rowCount := List.length (CsvParser.data (CsvParser.Papa_parse w fileContent)) |}.
Proof.
  unfold CsvParser.parseCSV.
  destruct (CsvParser.readFile w filePath) as [msg|fileContent]; simpl;
    [discriminate|].
  destruct (CsvParser.errors (CsvParser.Papa_parse w fileContent)) eqn:E; simpl;
    [|discriminate].
  intros [= <- <-]. exists fileContent. auto.
Qed.

(** C6: a table returned by [parseCSV] (Papa Parse behaving in header
    mode as documented), by [parseText] or by
    [convertExtractedDataToRows] has [rowCount] equal to its number of
    rows, and every key of every row among its headers. *)
Theorem C6_tabular_invariant :
  (forall w filePath tr r,
      (forall fileContent, CsvParser.header_mode (CsvParser.Papa_parse w fileContent)) ->
      CsvParser.parseCSV w filePath = (tr, Returned r) ->
      tabular_invariant r)
  /\ (forall text, tabular_invariant (TextParser.parseText text))
  /\ (forall extractedFields,
        tabular_invariant (convertExtractedDataToRows extractedFields)).
Proof.
  split; [|split; [exact parseText_invariant
                  | exact convertExtractedDataToRows_invariant]].
  intros w filePath tr r Hpapa Hr.
  destruct (parseCSV_returns _ _ _ _ Hr) as (fileContent & _ & Herr & _ & ->).
  split; [reflexivity|]. simpl.
  intros row Hrow k Hk.
  destruct (Hpapa fileContent row Hrow k Hk) as [(fields & -> & Hin)|[_ Hne]].
  - exact Hin.
  - contradiction.
Qed.

End Shapes.

Lemma C6_tabular_invariant_witness :
  tabular_invariant
    {| headers := ["name"; "zip_code"];
       rows := CsvParser.data Samples2.two_rows;
       rowCount := 2 |}.
Proof.
  apply (proj1 C6_tabular_invariant
               (FormFilling.csv Samples2.two_rows_world) "uploads/data.csv"
               [EvReadCsv "uploads/data.csv"]).
  - intros fileContent row Hrow k Hk. left. exists ["name"; "zip_code"].
    split; [reflexivity|].
    simpl in Hrow. destruct Hrow as [<-|[<-|[]]]; exact Hk.
  - reflexivity.
Defined.

(* ------------------------------------------------------------------ *)
(** *** The row-index check of the fill route *)

Section RowIndex.
Import FormFilling.
Variable parseFieldsFromText : string -> Obj.t JsValue.
Variable w : World.

Lemma parsePDF_shape pdfPath apiKey tr r :
  PdfParser.parsePDF parseFieldsFromText (pdfs w) pdfPath apiKey = (tr, Returned r) ->
  submits tr = false
  /\ exists extracted,
       PdfParser.parsed_data r = PdfParser.convertExtractedDataToRows extracted.
Proof.
  unfold PdfParser.parsePDF, PdfParser.extractPDFData,
    PdfParser.extractFormFields, PdfParser.extractWithPdf2Json,
    PdfParser.extractWithOCR.
  simpl.
  repeat match goal with
         | |- context [if ?b then _ else _] => destruct b; simpl
         | |- context [PdfParser.text ?f] => destruct (PdfParser.text f); simpl
         | |- context [match apiKey with _ => _ end] =>
             destruct apiKey as [[|? ?]|]; simpl
         end;
    try discriminate;
    intros [= <- <-]; (split; [reflexivity | eexists; reflexivity]).
Qed.



End RowIndex.


(* ------------------------------------------------------------------ *)
(** *** The row-to-field-data converter *)

Section Converter.
Import CsvParser.

Lemma convert_fold row columnMappings :
  convertRowToFieldData row columnMappings
  = fold_left (emitField match columnMappings with
                         | Some m => m
                         | None => defaultMappings
                         end) row Obj.empty.
Proof. reflexivity. Qed.


Lemma emitted_entry mappings row : forall acc key d,
  Obj.get (fold_left (emitField mappings) row acc) key = Some d ->
  Obj.get acc key = Some d
  \/ exists v, In (key, v) row
               /\ js_truthy v = true
               /\ is_empty (trim (js_toString v)) = false
               /\ d = {| value := trim (js_toString v);
                         description := describe mappings key |}.
Proof.
  induction row as [|[k v] row IH]; simpl; intros acc key d H; [auto|].
  destruct (IH _ _ _ H) as [H'|(v' & Hin & Ht & He & ->)].
  - destruct (js_truthy v && negb (is_empty (trim (js_toString v)))) eqn:E;
      [|auto].
    destruct (String.eqb_spec k key) as [->|N].
    + rewrite get_set_same in H'. injection H' as <-.
      apply andb_true_iff in E. destruct E as [E1 E2].
      apply negb_true_iff in E2.
      right. exists v. auto.
    + rewrite get_set_other in H' by exact N. auto.
  - right. exists v'. auto.
Qed.


Lemma NoDup_keys_In {V} (row : Obj.t V) key v v' :
  NoDup (Obj.keys row) -> In (key, v) row -> In (key, v') row -> v = v'.
Proof.
  induction row as [|[k0 v0] row IH]; simpl; [tauto|].
  intros ND H1 H2. inversion ND as [|? ? Hnot ND']; subst.
  assert (K : forall x, In (k0, x) row -> False).
  { intros x Hx. apply Hnot. change k0 with (fst (k0, x)). apply in_map. exact Hx. }
  destruct H1 as [E1|H1], H2 as [E2|H2].
  - congruence.
  - injection E1 as -> _. destruct (K _ H2).
  - injection E2 as -> _. destruct (K _ H1).
  - exact (IH ND' H1 H2).
Qed.


End Converter.



(* ------------------------------------------------------------------ *)
(** *** Strings and the line patterns *)

Section Patterns.
Import TextParser TextSpec.

Lemma lt_is_ws c : is_lt c = true -> is_ws c = true.
Proof.
  unfold is_lt, is_ws. intros H.
  apply orb_true_iff in H. destruct H as [H|H]; apply Nat.eqb_eq in H;
    rewrite H; reflexivity.
Qed.

Lemma not_ws_not_lt c : is_ws c = false -> is_lt c = false.
Proof.
  intros H. destruct (is_lt c) eqn:E; [|reflexivity].
  rewrite (lt_is_ws _ E) in H. discriminate.
Qed.

Lemma append_nil_r (s : string) : s ++ EmptyString = s.
Proof. induction s; simpl; congruence. Qed.

Lemma append_assoc (a b c : string) : (a ++ b) ++ c = a ++ (b ++ c).
Proof. induction a; simpl; congruence. Qed.

(** What [trimEnd] makes of a string with one more character in front
    only depends on what it makes of the string. *)
Lemma trimEnd_cons c a b : trimEnd a = trimEnd b -> trimEnd (String c a) = trimEnd (String c b).
Proof. simpl. intros ->. reflexivity. Qed.

Lemma trimEnd_all_ws s : all_ws s = true -> trimEnd s = EmptyString.
Proof.
  induction s as [|c s IH]; simpl; [reflexivity|].
  intros H. apply andb_true_iff in H. destruct H as [Hc Hs].
  rewrite (IH Hs), Hc. reflexivity.
Qed.

Lemma trimEnd_app_kept a v :
  trimEnd v = v -> v <> EmptyString -> trimEnd (a ++ v) = a ++ v.
Proof.
  intros Hv Hne. induction a as [|c a IH]; simpl; [exact Hv|].
  rewrite IH. destruct (a ++ v) eqn:E.
  - destruct a; simpl in E; [congruence | discriminate].
  - simpl. rewrite andb_false_r. reflexivity.
Qed.

Lemma single_line_app a b :
  single_line (a ++ b) = single_line a && single_line b.
Proof.
  unfold single_line.
  induction a as [|c a IH]; simpl; [reflexivity|].
  rewrite IH, andb_assoc. reflexivity.
Qed.




Lemma single_line_no_lf s : single_line s = true -> includes (ascii_of_nat 10) s = false.
Proof.
  unfold single_line. induction s as [|c s IH]; simpl; [reflexivity|].
  intros H. apply andb_true_iff in H. destruct H as [Hc Hs].
  rewrite (IH Hs), orb_false_r.
  destruct (Ascii.eqb_spec c (ascii_of_nat 10)) as [->|]; [discriminate | reflexivity].
Qed.

Lemma split_no_sep sep s : includes sep s = false -> split sep s = [s].
Proof.
  induction s as [|c s IH]; simpl; [reflexivity|].
  intros H. apply orb_false_iff in H. destruct H as [Hc Hs].
  rewrite Hc, (IH Hs). reflexivity.
Qed.

Lemma split_app sep a b :
  includes sep a = false ->
  split sep (a ++ String sep b) = a :: split sep b.
Proof.
  induction a as [|c a IH]; simpl.
  - intros _. rewrite Ascii.eqb_refl. reflexivity.
  - intros H. apply orb_false_iff in H. destruct H as [Hc Ha].
    rewrite Hc, (IH Ha). reflexivity.
Qed.

Lemma before_after sep s :
  includes sep s = true -> s = before sep s ++ String sep (after sep s).
Proof.
  induction s as [|c s IH]; simpl; [discriminate|].
  destruct (Ascii.eqb_spec c sep) as [->|N]; simpl; [reflexivity|].
  intros H. rewrite <- (IH H). reflexivity.
Qed.

Lemma before_app_sep sep a b :
  includes sep a = false -> before sep (a ++ String sep b) = a.
Proof.
  induction a as [|c a IH]; simpl.
  - rewrite Ascii.eqb_refl. reflexivity.
  - intros H. apply orb_false_iff in H. destruct H as [Hc Ha].
    rewrite Hc, (IH Ha). reflexivity.
Qed.

Lemma after_app_sep sep a b :
  includes sep a = false -> after sep (a ++ String sep b) = b.
Proof.
  induction a as [|c a IH]; simpl.
  - rewrite Ascii.eqb_refl. reflexivity.
  - intros H. apply orb_false_iff in H. destruct H as [Hc Ha].
    rewrite Hc, (IH Ha). reflexivity.
Qed.


Lemma value_match_truthy r v : value_match r = Some v -> truthy v = true.
Proof.
  revert v. induction r as [|c r IH]; simpl; intros v; [discriminate|].
  unfold dot_plus_end.
  destruct (is_ws c).
  - destruct (value_match r) as [v'|].
    + intros [= <-]. apply IH. reflexivity.
    + destruct (truthy (String c r) && dot_plus_end_ok (String c r));
        [|discriminate].
      intros [= <-]. reflexivity.
  - destruct (truthy (String c r) && dot_plus_end_ok (String c r));
      [|discriminate].
    intros [= <-]. reflexivity.
Qed.

Lemma value_match_total r :
  r <> EmptyString -> single_line r = true -> exists v, value_match r = Some v.
Proof.
  unfold single_line.
  induction r as [|c r IH]; [congruence|].
  intros _ H. simpl value_match. unfold dot_plus_end.
  change (truthy (String c r)) with true. rewrite H. simpl.
  destruct (is_ws c); [|eauto].
  destruct (value_match r); eauto.
Qed.

Lemma skip_to_sep_spec sep s rest :
  skip_to_sep sep s = Some rest ->
  includes sep s = true /\ all_ws (before sep s) = true /\ after sep s = rest.
Proof.
  induction s as [|c s IH]; simpl; [discriminate|].
  destruct (Ascii.eqb c sep); simpl.
  - intros [= <-]. auto.
  - destruct (is_ws c); [|discriminate].
    intros H. destruct (IH H) as (H1 & H2 & H3). auto.
Qed.

(** The lazy first group ends where the white space before the first
    separator begins, provided the rest of the pattern matches behind
    that separator. *)
Lemma lazy_key_first sep s v :
  includes sep s = true ->
  single_line (before sep s) = true ->
  value_match (after sep s) = Some v ->
  exists k, lazy_key sep s = Some (k, v)
            /\ trimEnd k = trimEnd (before sep s).
Proof.
  unfold single_line.
  induction s as [|c s IH]; [discriminate|].
  intros Hin Hline Hv.
  change (lazy_key sep (String c s))
    with (match after_key sep (String c s) with
          | Some v => Some (EmptyString, v)
          | None => if is_lt c then None
                    else match lazy_key sep s with
                         | Some (k, v) => Some (String c k, v)
                         | None => None
                         end
          end).
  unfold after_key.
  destruct (skip_to_sep sep (String c s)) as [rest|] eqn:Hskip.
  - destruct (skip_to_sep_spec _ _ _ Hskip) as (_ & Hws & Hafter).
    rewrite <- Hafter, Hv. exists EmptyString.
    rewrite (trimEnd_all_ws _ Hws). auto.
  - simpl in Hskip, Hin, Hline, Hv. simpl before.
    destruct (Ascii.eqb c sep); [discriminate|].
    simpl in Hin, Hline.
    apply andb_true_iff in Hline. destruct Hline as [Hc Hline].
    apply negb_true_iff in Hc. rewrite Hc.
    destruct (IH Hin Hline Hv) as (k & -> & Hk).
    exists (String c k). split; [reflexivity|].
    apply trimEnd_cons. exact Hk.
Qed.

(** Any of the four patterns on a line whose first character is not
    white space. *)
Lemma try_kv_first_gen sep c s v :
  is_ws c = false ->
  includes sep s = true ->
  single_line (before sep s) = true ->
  value_match (after sep s) = Some v ->
  exists key, try_kv sep (String c s) = Some (key, v)
              /\ trim key = trimEnd (String c (before sep s)).
Proof.
  intros Hc Hin Hline Hv.
  destruct (lazy_key_first sep s v Hin Hline Hv) as (k & Hk & Ht).
  exists (String c k). unfold try_kv, match_kv.
  rewrite (not_ws_not_lt _ Hc), Hk.
  rewrite (value_match_truthy _ _ Hv). simpl truthy. simpl andb.
  split; [reflexivity|].
  unfold trim. simpl trimStart. rewrite Hc.
  apply trimEnd_cons. exact Ht.
Qed.


End Patterns.

(* ------------------------------------------------------------------ *)
(** *** A JSON object on one line *)

Section JsonLine.
Import TextParser TextSpec.







End JsonLine.

(* ------------------------------------------------------------------ *)
(** *** What [JSON.parse] consumes *)

Section JsonFacts.
Import Json TextSpec.

Lemma json_ws_is_ws c : is_json_ws c = true -> is_ws c = true.
Proof.
  unfold is_json_ws, is_ws. intros H.
  repeat (apply orb_true_iff in H; destruct H as [H|H]);
    apply Nat.eqb_eq in H; rewrite H; reflexivity.
Qed.

Lemma skip_ws_suffix s : exists pre, s = pre ++ skip_ws s.
Proof.
  induction s as [|c s [pre IH]]; simpl.
  - exists EmptyString. reflexivity.
  - destruct (is_json_ws c).
    + exists (String c pre). simpl. congruence.
    + exists EmptyString. reflexivity.
Qed.

Lemma skip_ws_all_ws s : is_empty (skip_ws s) = true -> all_ws s = true.
Proof.
  induction s as [|c s IH]; simpl; [reflexivity|].
  destruct (is_json_ws c) eqn:E; [|discriminate].
  intros H. rewrite (json_ws_is_ws _ E), (IH H). reflexivity.
Qed.

Lemma suffix_cons c s rest :
  (exists pre, s = pre ++ rest) -> exists pre, String c s = pre ++ rest.
Proof. intros [pre ->]. exists (String c pre). reflexivity. Qed.

Lemma suffix_trans a b c :
  (exists pre, a = pre ++ b) -> (exists pre, b = pre ++ c) ->
  exists pre, a = pre ++ c.
Proof.
  intros [p ->] [q ->]. exists (p ++ q).
  clear. induction p; simpl; congruence.
Qed.

Lemma suffix_skip_ws s rest :
  (exists pre, skip_ws s = pre ++ rest) -> exists pre, s = pre ++ rest.
Proof. intros H. exact (suffix_trans _ _ _ (skip_ws_suffix s) H). Qed.

Lemma includes_suffix c s rest :
  (exists pre, s = pre ++ rest) -> includes c rest = true -> includes c s = true.
Proof.
  intros [pre ->] H. induction pre as [|d pre IH]; simpl; [exact H|].
  rewrite IH. apply orb_true_r.
Qed.

Lemma parse_hex4_suffix s x rest :
  parse_hex4 s = Some (x, rest) -> exists pre, s = pre ++ rest.
Proof.
  unfold parse_hex4.
  destruct s as [|a [|b [|c [|d r]]]]; try discriminate.
  destruct (hex_val a), (hex_val b), (hex_val c), (hex_val d); try discriminate.
  destruct (_ <? 256); [|discriminate].
  intros [= _ <-].
  exists (String a (String b (String c (String d EmptyString)))). reflexivity.
Qed.

Lemma parse_chars_suffix fuel : forall s t rest,
  parse_chars fuel s = Some (t, rest) -> exists pre, s = pre ++ rest.
Proof.
  induction fuel as [|fuel IH]; intros s t rest; simpl; [discriminate|].
  destruct s as [|c r]; [discriminate|].
  destruct (code c =? 34).
  { intros [= _ <-]. exists (String c EmptyString). reflexivity. }
  destruct (code c =? 92).
  { destruct r as [|e r']; [discriminate|].
    repeat match goal with
           | |- context [if ?b then _ else _] => destruct b
           end;
      try discriminate;
      try (destruct (parse_chars fuel r') as [[t' rest']|] eqn:E; [|discriminate];
           intros [= _ <-]; do 2 apply suffix_cons; exact (IH _ _ _ E)).
    destruct (parse_hex4 r') as [[x r'']|] eqn:Hx; [|discriminate].
    destruct (parse_chars fuel r'') as [[t' rest']|] eqn:E; [|discriminate].
    intros [= _ <-]. do 2 apply suffix_cons.
    exact (suffix_trans _ _ _ (parse_hex4_suffix _ _ _ Hx) (IH _ _ _ E)). }
  destruct (code c <? 32); [discriminate|].
  destruct (parse_chars fuel r) as [[t' rest']|] eqn:E; [|discriminate].
  intros [= _ <-]. apply suffix_cons. exact (IH _ _ _ E).
Qed.

Lemma take_digits_suffix s : forall d rest,
  take_digits s = (d, rest) -> exists pre, s = pre ++ rest.
Proof.
  induction s as [|c r IH]; simpl; intros d rest.
  - intros [= _ <-]. exists EmptyString. reflexivity.
  - destruct (is_digit c).
    + destruct (take_digits r) as [d' rest'] eqn:E.
      intros [= _ <-]. apply suffix_cons. exact (IH _ _ eq_refl).
    + intros [= _ <-]. exists EmptyString. reflexivity.
Qed.

Lemma suffix_refl (s : string) : exists pre, s = pre ++ s.
Proof. exists EmptyString. reflexivity. Qed.

Lemma take_sign_suffix s : exists pre, s = pre ++ snd (take_sign s).
Proof.
  unfold take_sign. destruct s as [|c r]; [apply suffix_refl|].
  destruct (code c =? 45); simpl; [apply suffix_cons|]; apply suffix_refl.
Qed.

Lemma take_fraction_suffix s fr rest :
  take_fraction s = Some (fr, rest) -> exists pre, s = pre ++ rest.
Proof.
  unfold take_fraction. destruct s as [|c r].
  - intros [= _ <-]. apply suffix_refl.
  - destruct (code c =? 46).
    + destruct (take_digits r) as [d rest'] eqn:E.
      destruct (is_empty d); [discriminate|].
      intros [= _ <-]. apply suffix_cons. exact (take_digits_suffix _ _ _ E).
    + intros [= _ <-]. apply suffix_refl.
Qed.

Lemma take_exponent_suffix s ex rest :
  take_exponent s = Some (ex, rest) -> exists pre, s = pre ++ rest.
Proof.
  unfold take_exponent. destruct s as [|c r].
  - intros [= _ <-]. apply suffix_refl.
  - destruct ((code c =? 101) || (code c =? 69)).
    + destruct r as [|d r'].
      * simpl. intros [=].
      * destruct ((code d =? 43) || (code d =? 45)).
        -- destruct (take_digits r') as [ds rest'] eqn:E.
           destruct (is_empty ds); [discriminate|].
           intros [= _ <-]. do 2 apply suffix_cons.
           exact (take_digits_suffix _ _ _ E).
        -- destruct (take_digits (String d r')) as [ds rest'] eqn:E.
           destruct (is_empty ds); [discriminate|].
           intros [= _ <-]. apply suffix_cons.
           exact (take_digits_suffix _ _ _ E).
    + intros [= _ <-]. apply suffix_refl.
Qed.

Lemma parse_number_suffix s lit rest :
  parse_number s = Some (lit, rest) -> exists pre, s = pre ++ rest.
Proof.
  unfold parse_number.
  pose proof (take_sign_suffix s) as H1.
  destruct (take_sign s) as [sign s1]. simpl in H1.
  destruct (take_digits s1) as [int s2] eqn:E2.
  destruct (negb (int_ok int)); [discriminate|].
  destruct (take_fraction s2) as [[fr s3]|] eqn:E3; [|discriminate].
  destruct (take_exponent s3) as [[ex s4]|] eqn:E4; [|discriminate].
  intros [= _ <-].
  exact (suffix_trans _ _ _ H1
           (suffix_trans _ _ _ (take_digits_suffix _ _ _ E2)
              (suffix_trans _ _ _ (take_fraction_suffix _ _ _ E3)
                 (take_exponent_suffix _ _ _ E4)))).
Qed.

Lemma strip_prefix_suffix p : forall s rest,
  strip_prefix p s = Some rest -> exists pre, s = pre ++ rest.
Proof.
  induction p as [|a p IH]; simpl; intros s rest.
  - intros [= <-]. apply suffix_refl.
  - destruct s as [|b s]; [discriminate|].
    destruct (Ascii.eqb a b); [|discriminate].
    intros H. apply suffix_cons. exact (IH _ _ H).
Qed.

End JsonFacts.

Section JsonObjects.
Import Json TextSpec.
#[local] Arguments strip_prefix : simpl never.
#[local] Arguments parse_number : simpl never.

Lemma code_char c n : code c = n -> c = ascii_of_nat n.
Proof. unfold code. intros <-. symmetry. apply ascii_nat_embedding. Qed.

Lemma code_eqb c n : (code c =? n) = true -> c = ascii_of_nat n.
Proof. intros H. apply code_char, Nat.eqb_eq, H. Qed.

Ltac char_of E := apply code_eqb in E; vm_compute in E; subst.

Lemma set_not_nil {V} k (v : V) o : Obj.set k v o <> [].
Proof. destruct o as [|[k' v'] o]; simpl; [|destruct (String.eqb k' k)]; discriminate. Qed.

Lemma parse_elements_array fuel : forall s acc v rest,
  parse_elements fuel s acc = Some (v, rest) -> exists items, v = JArray items.
Proof.
  induction fuel as [|fuel IH]; intros s acc v rest; simpl; [discriminate|].
  destruct (parse_value fuel s) as [[v1 r1]|]; [|discriminate].
  destruct (skip_ws r1) as [|e r2]; [discriminate|].
  destruct (code e =? 93); [intros [= <- _]; eauto|].
  destruct (code e =? 44); [|discriminate].
  apply IH.
Qed.

Lemma parse_members_object fuel : forall s acc v rest,
  parse_members fuel s acc = Some (v, rest) ->
  exists ms, v = JObject ms /\ ms <> [].
Proof.
  induction fuel as [|fuel IH]; intros s acc v rest; simpl; [discriminate|].
  destruct s as [|q r]; [discriminate|].
  destruct (code q =? 34); [|discriminate].
  destruct (parse_chars (String.length r) r) as [[k r1]|]; [|discriminate].
  destruct (skip_ws r1) as [|colon r2]; [discriminate|].
  destruct (code colon =? 58); [|discriminate].
  destruct (parse_value fuel r2) as [[v1 r3]|]; [|discriminate].
  destruct (skip_ws r3) as [|e r4]; [discriminate|].
  destruct (code e =? 125).
  { intros [= <- _]. eexists. split; [reflexivity | apply set_not_nil]. }
  destruct (code e =? 44); [|discriminate].
  apply IH.
Qed.

Lemma parse_members_colon fuel s acc v rest :
  parse_members fuel s acc = Some (v, rest) -> includes ":" s = true.
Proof.
  destruct fuel as [|fuel]; simpl; [discriminate|].
  destruct s as [|q r]; [discriminate|].
  destruct (code q =? 34); [|discriminate].
  destruct (parse_chars (String.length r) r) as [[k r1]|] eqn:Ek; [|discriminate].
  destruct (skip_ws r1) as [|colon r2] eqn:Ec; [discriminate|].
  destruct (code colon =? 58) eqn:E58; [|discriminate].
  intros _. char_of E58.
  apply (includes_suffix _ _ (String ":" r2)); [|reflexivity].
  apply suffix_cons.
  apply (suffix_trans _ r1); [exact (parse_chars_suffix _ _ _ _ Ek)|].
  rewrite <- Ec. apply skip_ws_suffix.
Qed.

Lemma suffix_step s c r rest :
  skip_ws s = String c r -> (exists pre, r = pre ++ rest) ->
  exists pre, s = pre ++ rest.
Proof.
  intros E H. apply suffix_skip_ws. rewrite E. apply suffix_cons. exact H.
Qed.

Lemma parse_suffix fuel :
  (forall s v rest,
      parse_value fuel s = Some (v, rest) -> exists pre, s = pre ++ rest)
  /\ (forall s acc v rest,
        parse_members fuel s acc = Some (v, rest) ->
        exists pre, s = pre ++ String "}" rest)
  /\ (forall s acc v rest,
        parse_elements fuel s acc = Some (v, rest) -> exists pre, s = pre ++ rest).
Proof.
  induction fuel as [|fuel (IHv & IHm & IHe)];
    [repeat split; intros; discriminate|].
  split; [|split].
  - intros s v rest. simpl.
    destruct (skip_ws s) as [|c r] eqn:Es; [discriminate|].
    destruct (code c =? 123).
    { destruct (skip_ws r) as [|d r'] eqn:Er; [discriminate|].
      destruct (code d =? 125).
      - intros [= _ <-]. apply (suffix_step _ _ _ _ Es).
        apply (suffix_step _ _ _ _ Er). apply suffix_refl.
      - intros H. apply (suffix_step _ _ _ _ Es).
        apply suffix_skip_ws. rewrite Er.
        destruct (IHm _ _ _ _ H) as [pre Hp].
        exists (pre ++ "}"). rewrite Hp.
        clear. induction pre; simpl; congruence. }
    destruct (code c =? 91).
    { destruct (skip_ws r) as [|d r'] eqn:Er; [discriminate|].
      destruct (code d =? 93).
      - intros [= _ <-]. apply (suffix_step _ _ _ _ Es).
        apply (suffix_step _ _ _ _ Er). apply suffix_refl.
      - intros H. apply (suffix_step _ _ _ _ Es).
        apply suffix_skip_ws. rewrite Er. exact (IHe _ _ _ _ H). }
    destruct (code c =? 34).
    { destruct (parse_chars (String.length r) r) as [[t rest']|] eqn:E;
        [|discriminate].
      intros [= _ <-]. apply (suffix_step _ _ _ _ Es).
      exact (parse_chars_suffix _ _ _ _ E). }
    destruct ((code c =? 45) || is_digit c).
    { destruct (parse_number (String c r)) as [[lit rest']|] eqn:E;
        [|discriminate].
      intros [= _ <-]. apply suffix_skip_ws. rewrite Es.
      exact (parse_number_suffix _ _ _ E). }
    destruct (strip_prefix "true" (String c r)) as [rest'|] eqn:E1.
    { intros [= _ <-]. apply suffix_skip_ws. rewrite Es.
      exact (strip_prefix_suffix _ _ _ E1). }
    destruct (strip_prefix "false" (String c r)) as [rest'|] eqn:E2.
    { intros [= _ <-]. apply suffix_skip_ws. rewrite Es.
      exact (strip_prefix_suffix _ _ _ E2). }
    destruct (strip_prefix "null" (String c r)) as [rest'|] eqn:E3;
      [|discriminate].
    intros [= _ <-]. apply suffix_skip_ws. rewrite Es.
    exact (strip_prefix_suffix _ _ _ E3).
  - intros s acc v rest. simpl.
    destruct s as [|q r]; [discriminate|].
    destruct (code q =? 34); [|discriminate].
    destruct (parse_chars (String.length r) r) as [[k r1]|] eqn:Ek; [|discriminate].
    destruct (skip_ws r1) as [|colon r2] eqn:Ec; [discriminate|].
    destruct (code colon =? 58); [|discriminate].
    destruct (parse_value fuel r2) as [[v1 r3]|] eqn:Ev; [|discriminate].
    destruct (skip_ws r3) as [|e r4] eqn:Ee; [discriminate|].
    assert (Hr3 : forall tail, (exists pre, r3 = pre ++ tail) ->
                               exists pre, String q r = pre ++ tail).
    { intros tail H. apply suffix_cons.
      apply (suffix_trans _ r1); [exact (parse_chars_suffix _ _ _ _ Ek)|].
      apply (suffix_step _ _ _ _ Ec).
      exact (suffix_trans _ _ _ (IHv _ _ _ Ev) H). }
    destruct (code e =? 125) eqn:E125.
    { intros [= _ <-]. char_of E125.
      apply Hr3. rewrite <- Ee. apply skip_ws_suffix. }
    destruct (code e =? 44); [|discriminate].
    intros H. apply Hr3. apply (suffix_step _ _ _ _ Ee).
    apply suffix_skip_ws. exact (IHm _ _ _ _ H).
  - intros s acc v rest. simpl.
    destruct (parse_value fuel s) as [[v1 r1]|] eqn:Ev; [|discriminate].
    destruct (skip_ws r1) as [|e r2] eqn:Ee; [discriminate|].
    destruct (code e =? 93).
    { intros [= _ <-]. apply (suffix_trans _ _ _ (IHv _ _ _ Ev)).
      apply (suffix_step _ _ _ _ Ee). apply suffix_refl. }
    destruct (code e =? 44); [|discriminate].
    intros H. apply (suffix_trans _ _ _ (IHv _ _ _ Ev)).
    apply (suffix_step _ _ _ _ Ee). exact (IHe _ _ _ _ H).
Qed.

(** A text that parses to an object starts, after white space, with an
    opening brace, has a closing brace right before what is left, and
    holds a colon when the object has a member. *)
Lemma parse_value_object fuel s ms rest :
  parse_value fuel s = Some (JObject ms, rest) ->
  startsWith "{" (skip_ws s) = true
  /\ (exists pre, s = pre ++ String "}" rest)
  /\ (ms <> [] -> includes ":" s = true).
Proof.
  destruct fuel as [|fuel]; simpl; [discriminate|].
  destruct (skip_ws s) as [|c r] eqn:Es; [discriminate|].
  destruct (code c =? 123) eqn:E123.
  { char_of E123.
    destruct (skip_ws r) as [|d r'] eqn:Er; [discriminate|].
    destruct (code d =? 125) eqn:E125.
    - intros [= <- <-]. char_of E125.
      split; [reflexivity|]. split; [|congruence].
      apply (suffix_step _ _ _ _ Es). rewrite <- Er. apply skip_ws_suffix.
    - intros H. split; [reflexivity|]. split.
      + apply (suffix_step _ _ _ _ Es). apply suffix_skip_ws. rewrite Er.
        exact (proj1 (proj2 (parse_suffix fuel)) _ _ _ _ H).
      + intros _. apply (includes_suffix _ _ (String d r')).
        * apply (suffix_step _ _ _ _ Es). rewrite <- Er. apply skip_ws_suffix.
        * exact (parse_members_colon _ _ _ _ _ H). }
  destruct (code c =? 91).
  { destruct (skip_ws r) as [|d r'] eqn:Er; [discriminate|].
    destruct (code d =? 93); [discriminate|].
    intros H. destruct (parse_elements_array _ _ _ _ _ H) as [items [=]]. }
  destruct (code c =? 34).
  { destruct (parse_chars (String.length r) r) as [[t rest']|]; discriminate. }
  destruct ((code c =? 45) || is_digit c).
  { destruct (parse_number (String c r)) as [[lit rest']|]; discriminate. }
  destruct (strip_prefix "true" (String c r)); [discriminate|].
  destruct (strip_prefix "false" (String c r)); [discriminate|].
  destruct (strip_prefix "null" (String c r)); discriminate.
Qed.

Lemma trimEnd_idem s : trimEnd (trimEnd s) = trimEnd s.
Proof.
  induction s as [|c s IH]; simpl; [reflexivity|].
  destruct (is_ws c && is_empty (trimEnd s)) eqn:E; [reflexivity|].
  simpl. rewrite IH, E. reflexivity.
Qed.

Lemma trimEnd_fixed_app a rest :
  trimEnd (a ++ rest) = a ++ rest -> all_ws rest = true -> rest = EmptyString.
Proof.
  induction a as [|c a IH]; simpl.
  - intros H W. rewrite (trimEnd_all_ws _ W) in H. congruence.
  - destruct (is_ws c && is_empty (trimEnd (a ++ rest))); [discriminate|].
    intros [= H]. exact (IH H).
Qed.

Lemma endsWith_app_last a c : endsWith c (a ++ String c EmptyString) = true.
Proof.
  induction a as [|d a IH]; simpl; [apply Ascii.eqb_refl|].
  destruct (a ++ String c EmptyString) eqn:E; [|exact IH].
  destruct a; discriminate.
Qed.

Lemma trimStart_head s c r : trimStart s = String c r -> is_ws c = false.
Proof.
  induction s as [|d s IH]; simpl; [discriminate|].
  destruct (is_ws d) eqn:E; [exact IH|].
  intros [= <- _]. exact E.
Qed.

Lemma trim_head s c r : trim s = String c r -> is_ws c = false.
Proof.
  unfold trim. destruct (trimStart s) as [|d t] eqn:E; simpl; [discriminate|].
  destruct (is_ws d && is_empty (trimEnd t)); [discriminate|].
  intros [= <- _]. exact (trimStart_head _ _ _ E).
Qed.

Lemma skip_ws_head c r : is_ws c = false -> skip_ws (String c r) = String c r.
Proof.
  intros H. simpl. destruct (is_json_ws c) eqn:E; [|reflexivity].
  rewrite (json_ws_is_ws _ E) in H. discriminate.
Qed.

Lemma includes_trim c s : includes c (trim s) = true -> includes c s = true.
Proof.
  unfold trim. intros H.
  assert (H1 : includes c (trimStart s) = true).
  { revert H. generalize (trimStart s). intros t.
    induction t as [|d t IH]; simpl; [auto|].
    destruct (is_ws d && is_empty (trimEnd t)); simpl; [discriminate|].
    destruct (Ascii.eqb d c); simpl; auto. }
  clear H. induction s as [|d s IH]; simpl in *; [exact H1|].
  destruct (is_ws d); [rewrite (IH H1); apply orb_true_r | exact H1].
Qed.

(** The trimmed text of a JSON object is in braces, and holds a colon
    when the object has a member. *)
Lemma json_object_text text members :
  parse (trim text) = Some (JObject members) ->
  TextParser.braced (trim text) = true
  /\ (members <> [] -> includes ":" (trim text) = true).
Proof.
  unfold parse.
  destruct (parse_value (2 * String.length (trim text) + 2) (trim text))
    as [[v rest]|] eqn:E; [|discriminate].
  destruct (is_empty (skip_ws rest)) eqn:Er; [|discriminate].
  intros [= ->].
  destruct (parse_value_object _ _ _ _ E) as (Hs & [pre Hp] & Hc).
  assert (Hrest : rest = EmptyString).
  { apply (trimEnd_fixed_app (pre ++ "}")); [|exact (skip_ws_all_ws _ Er)].
    assert (Ha : (pre ++ "}") ++ rest = trim text).
    { rewrite Hp. clear. induction pre; simpl; congruence. }
    rewrite Ha. unfold trim. apply trimEnd_idem. }
  subst rest.
  split; [|exact Hc].
  unfold TextParser.braced. apply andb_true_iff. split.
  - destruct (trim text) as [|c r] eqn:Et; [discriminate|].
    rewrite (skip_ws_head _ _ (trim_head _ _ _ Et)) in Hs. exact Hs.
  - rewrite Hp. apply endsWith_app_last.
Qed.

End JsonObjects.

Section JsonLineClaim.
Import TextParser TextSpec.



End JsonLineClaim.


(* ------------------------------------------------------------------ *)
(** *** Parsing the serialization of a parse *)

Section Reparse.
Import TextParser TextSpec.

Lemma get_of_In {V} (o : Obj.t V) k v :
  NoDup (Obj.keys o) -> In (k, v) o -> Obj.get o k = Some v.
Proof.
  intros ND Hin. destruct (Obj.get o k) as [v'|] eqn:E.
  - f_equal. exact (NoDup_keys_In o k v' v ND (get_In _ _ _ E) Hin).
  - destruct (get_None_keys _ _ E).
    change k with (fst (k, v)). apply in_map. exact Hin.
Qed.

Lemma NoDup_assign_json fields j :
  NoDup (Obj.keys fields) -> NoDup (Obj.keys (assign_json fields j)).
Proof.
  intros ND. destruct j; simpl; try exact ND.
  apply NoDup_keys_assign. exact ND.
Qed.

Lemma NoDup_parseLine fields line :
  NoDup (Obj.keys fields) -> NoDup (Obj.keys (parseLine fields line)).
Proof.
  intros ND. unfold parseLine.
  destruct (is_empty (trim line)); [exact ND|].
  repeat match goal with
         | |- context [match try_kv ?sep ?l with _ => _ end] =>
             destruct (try_kv sep l) as [[? ?]|];
             [apply NoDup_keys_set; exact ND|]
         end.
  destruct (if braced (trim line) then Json.parse (trim line) else None);
    [apply NoDup_assign_json; exact ND|].
  destruct (includes (ascii_of_nat 9) (trim line)); [|exact ND].
  destruct (tab_parts (trim line)) as [|k [|v [|? ?]]]; try exact ND.
  apply NoDup_keys_set. exact ND.
Qed.

Lemma NoDup_parseFields text : NoDup (Obj.keys (parseFields text)).
Proof.
  unfold parseFields.
  assert (H : forall lines fields,
             NoDup (Obj.keys fields) ->
             NoDup (Obj.keys (fold_left parseLine lines fields))).
  { induction lines as [|l lines IH]; simpl; intros fields ND; [exact ND|].
    apply IH, NoDup_parseLine, ND. }
  specialize (H (split (ascii_of_nat 10) text) Obj.empty (NoDup_nil _)).
  destruct (braced (trim text)); [|exact H].
  destruct (Json.parse (trim text)); [|exact H].
  apply NoDup_assign_json. exact H.
Qed.

Lemma keys_app {V} (a b : Obj.t V) :
  Obj.keys (a ++ b)%list = (Obj.keys a ++ Obj.keys b)%list.
Proof. apply map_app. Qed.

Lemma NoDup_keys_fresh {V} (acc : Obj.t V) k v o :
  NoDup (Obj.keys (acc ++ (k, v) :: o)%list) -> ~ In k (Obj.keys acc).
Proof.
  rewrite keys_app. simpl. intros ND Hin.
  apply NoDup_remove_2 in ND. apply ND. apply in_or_app. auto.
Qed.

Lemma app_cons_assoc {A} (acc : list A) x o :
  (acc ++ x :: o = (acc ++ [x]) ++ o)%list.
Proof. rewrite <- app_assoc. reflexivity. Qed.

(** Copying the fields under their own headers gives them back. *)
Lemma copy_row (fields o : Obj.t JsValue) : forall acc,
  NoDup (Obj.keys (acc ++ o)%list) ->
  (forall k v, In (k, v) o -> lookup fields k = v) ->
  fold_left (fun row header => Obj.set header (lookup fields header) row)
            (Obj.keys o) acc
  = (acc ++ o)%list.
Proof.
  induction o as [|[k v] o IH]; simpl; intros acc ND Hl.
  - rewrite app_nil_r. reflexivity.
  - rewrite (Hl k v (or_introl eq_refl)).
    rewrite (set_fresh _ _ _ (NoDup_keys_fresh _ _ _ _ ND)).
    rewrite (app_cons_assoc acc (k, v) o). apply IH.
    + rewrite <- app_cons_assoc. exact ND.
    + intros k' v' H. apply Hl. right. exact H.
Qed.

Lemma lookup_of_In fields k v :
  NoDup (Obj.keys fields) -> In (k, v) fields -> lookup fields k = v.
Proof. intros ND H. unfold lookup. rewrite (get_of_In _ _ _ ND H). reflexivity. Qed.

Lemma parseText_fields text :
  parseText text
  = {| headers := Obj.keys (parseFields text);
       rows := [parseFields text];
       rowCount := 1 |}.
Proof.
  unfold parseText. f_equal. f_equal.
  apply (copy_row (parseFields text) (parseFields text) []).
  - apply NoDup_parseFields.
  - intros k v. apply lookup_of_In, NoDup_parseFields.
Qed.

Lemma serializeLines_canonical (fields o : Obj.t JsValue) :
  (forall k v, In (k, v) o -> lookup fields k = v) ->
  forallb canonical_entry o = true ->
  serializeLines (Obj.keys o) fields = Some (map line_of o).
Proof.
  induction o as [|[k v] o IH]; simpl; intros Hl Hc; [reflexivity|].
  apply andb_true_iff in Hc. destruct Hc as [Hkv Hc].
  rewrite (Hl k v (or_introl eq_refl)).
  rewrite IH; [|intros k' v' H; apply Hl; right; exact H | exact Hc].
  destruct v; try discriminate. reflexivity.
Qed.

Lemma clean_text_inv s :
  clean_text s = true ->
  exists c r, s = String c r /\ is_ws c = false
              /\ trimEnd s = s /\ single_line s = true.
Proof.
  unfold clean_text. intros H.
  apply andb_true_iff in H. destruct H as [H Hl].
  apply andb_true_iff in H. destruct H as [Hc Ht].
  apply String.eqb_eq in Ht.
  destruct s as [|c r]; [discriminate|].
  apply negb_true_iff in Hc. eauto 6.
Qed.

Lemma trim_line c k' v :
  is_ws c = false -> trimEnd v = v -> v <> EmptyString ->
  trim (String c k' ++ ": " ++ v) = String c k' ++ ": " ++ v.
Proof.
  intros Hc Hv Hne.
  rewrite <- (append_assoc (String c k') ": " v).
  unfold trim.
  assert (E : trimStart ((String c k' ++ ": ") ++ v) = (String c k' ++ ": ") ++ v)
    by (simpl; rewrite Hc; reflexivity).
  rewrite E. apply trimEnd_app_kept; assumption.
Qed.

(** A line of the serialization is read back as its entry. *)
Lemma parseLine_canonical fields k v :
  canonical_entry (k, JString v) = true ->
  parseLine fields (k ++ ": " ++ v) = Obj.set k (JString v) fields.
Proof.
  simpl. unfold clean_key. intros H.
  apply andb_true_iff in H. destruct H as [H Hv].
  apply andb_true_iff in H. destruct H as [Hk Hcolon].
  destruct (clean_text_inv _ Hk) as (c & k' & -> & Hc & Htk & Hlk).
  destruct (clean_text_inv _ Hv) as (d & v' & -> & Hd & Htv & Hlv).
  apply negb_true_iff in Hcolon.
  set (v := String d v') in *. set (k := String c k') in *.
  assert (Hline : trim (k ++ ": " ++ v) = k ++ ": " ++ v).
  { subst k. apply trim_line; [exact Hc | exact Htv | discriminate]. }
  assert (Hvalue : value_match (String " " v) = Some v).
  { subst v. simpl. rewrite Hd. unfold dot_plus_end.
    unfold single_line in Hlv. rewrite Hlv. reflexivity. }
  assert (Hk' : single_line k' = true).
  { unfold single_line in *. simpl in Hlk. apply andb_true_iff in Hlk. tauto. }
  destruct (try_kv_first_gen ":" c (k' ++ String ":" (String " " v)) v Hc)
    as (key & Hkey & Htrim).
  - apply (includes_suffix _ _ (String ":" (String " " v)));
      [eexists; reflexivity | reflexivity].
  - rewrite before_app_sep by exact Hcolon. exact Hk'.
  - rewrite after_app_sep by exact Hcolon. exact Hvalue.
  - rewrite before_app_sep in Htrim by exact Hcolon.
    unfold parseLine.
    change (": " ++ v) with (String ":" (String " " v)) in Hline.
    rewrite Hline.
    change (k ++ String ":" (String " " v))
      with (String c (k' ++ String ":" (String " " v))).
    rewrite Hkey, Htrim. fold k. rewrite Htk.
    replace (trim v) with v; [reflexivity|].
    unfold trim. subst v. simpl trimStart. rewrite Hd. symmetry. exact Htv.
Qed.

Lemma parse_lines (o : Obj.t JsValue) : forall acc,
  NoDup (Obj.keys (acc ++ o)%list) ->
  forallb canonical_entry o = true ->
  fold_left parseLine (map line_of o) acc = (acc ++ o)%list.
Proof.
  induction o as [|[k v] o IH]; simpl; intros acc ND Hc.
  - rewrite app_nil_r. reflexivity.
  - apply andb_true_iff in Hc. destruct Hc as [Hkv Hc].
    destruct v; try discriminate.
    unfold line_of at 1. simpl fst. simpl snd.
    rewrite (parseLine_canonical _ _ _ Hkv).
    rewrite (set_fresh _ _ _ (NoDup_keys_fresh _ _ _ _ ND)).
    rewrite (app_cons_assoc acc (k, JString s) o). apply IH; [|exact Hc].
    rewrite <- app_cons_assoc. exact ND.
Qed.

Lemma line_single (entry : string * JsValue) :
  canonical_entry entry = true ->
  includes (ascii_of_nat 10) (line_of entry) = false.
Proof.
  destruct entry as [k v]. destruct v; try discriminate.
  simpl. unfold clean_key, line_of. intros H.
  apply andb_true_iff in H. destruct H as [H Hv].
  apply andb_true_iff in H. destruct H as [Hk _].
  destruct (clean_text_inv _ Hk) as (_ & _ & _ & _ & _ & Hlk).
  destruct (clean_text_inv _ Hv) as (_ & _ & _ & _ & _ & Hlv).
  apply single_line_no_lf. simpl fst. simpl snd.
  rewrite !single_line_app, Hlk, Hlv. reflexivity.
Qed.

Lemma split_join (ls : list string) :
  ls <> [] ->
  (forall l, In l ls -> includes (ascii_of_nat 10) l = false) ->
  split (ascii_of_nat 10) (join lf ls) = ls.
Proof.
  induction ls as [|l ls IH]; [congruence|].
  intros _ H. destruct ls as [|l2 ls].
  - simpl. apply split_no_sep. apply H. left. reflexivity.
  - change (join lf (l :: l2 :: ls))
      with (l ++ String (ascii_of_nat 10) (join lf (l2 :: ls))).
    rewrite split_app by (apply H; left; reflexivity).
    f_equal. apply IH; [discriminate|].
    intros l' Hl'. apply H. right. exact Hl'.
Qed.

(** The line loop reads the serialization of canonical fields back. *)
Lemma parse_serialized (fields : Obj.t JsValue) :
  NoDup (Obj.keys fields) ->
  forallb canonical_entry fields = true ->
  fold_left parseLine (split (ascii_of_nat 10) (join lf (map line_of fields)))
            Obj.empty
  = fields.
Proof.
  intros ND Hc. destruct fields as [|e fields]; [reflexivity|].
  rewrite split_join.
  - apply (parse_lines (e :: fields) []); assumption.
  - discriminate.
  - intros l Hl. apply in_map_iff in Hl. destruct Hl as (entry & <- & Hin).
    apply line_single. rewrite forallb_forall in Hc. apply Hc, Hin.
Qed.

(** C3, as the code has it: when a parse yields only clean entries
    (keys and string values that are not empty, have no white space at
    either end and no line break, keys having no colon after their first
    character) and the serialization of the result is not enclosed in
    braces, so that the whole-text JSON merge leaves it alone, parsing
    that serialization gives the same headers and the same row again. *)
Theorem C3_reparse_canonical text serialized
        (Hclean : canonical (parseText text) = true)
        (Hserialized : serialize (parseText text) = Some serialized)
        (Hplain : braced (trim serialized) = false) :
  parseText serialized = parseText text.
Proof.
  rewrite (parseText_fields text) in *.
  unfold canonical in Hclean. simpl in Hclean.
  pose proof (NoDup_parseFields text) as ND.
  set (fields := parseFields text) in *.
  unfold serialize in Hserialized. simpl in Hserialized.
  rewrite (serializeLines_canonical fields fields) in Hserialized;
    [|intros k v; apply lookup_of_In; exact ND | exact Hclean].
  injection Hserialized as <-.
  rewrite parseText_fields.
  assert (E : parseFields (join lf (map line_of fields)) = fields).
  { unfold parseFields.
    rewrite (parse_serialized fields ND Hclean), Hplain. reflexivity. }
  rewrite E. reflexivity.
Qed.

End Reparse.

(** C3, as stated, fails on a one-line JSON object whose key holds a
    colon: the parse has the headers [{"a] and [a:b], its serialization
    is read back with the headers [{"a] and [a]. *)
Lemma C3_counterexample :
  headers (TextParser.parseText Samples3.colon_key_json)
  = ["{" ++ dq ++ "a"; "a:b"]
  /\ TextParser.serialize (TextParser.parseText Samples3.colon_key_json)
     = Some ("{" ++ dq ++ "a: b" ++ dq ++ ": " ++ dq ++ "c" ++ dq ++ "}"
             ++ lf ++ "a:b: c")
  /\ headers (TextParser.parseText
                ("{" ++ dq ++ "a: b" ++ dq ++ ": " ++ dq ++ "c" ++ dq ++ "}"
                 ++ lf ++ "a:b: c"))
     = ["{" ++ dq ++ "a"; "a"]
  /\ TextParser.parseText
       ("{" ++ dq ++ "a: b" ++ dq ++ ": " ++ dq ++ "c" ++ dq ++ "}"
        ++ lf ++ "a:b: c")
     <> TextParser.parseText Samples3.colon_key_json.
Proof.
  repeat split; try (vm_compute; reflexivity).
  vm_compute. discriminate.
Qed.

Lemma C3_reparse_canonical_witness :
  TextParser.parseText ("Name: Jane Doe" ++ lf ++ "Email: jane@x.com" ++ lf
                        ++ "Phone: 555-1234")
  = TextParser.parseText Samples.scenario_text.
Proof.
  apply (C3_reparse_canonical Samples.scenario_text
           ("Name: Jane Doe" ++ lf ++ "Email: jane@x.com" ++ lf ++ "Phone: 555-1234")).
  - vm_compute. reflexivity.
  - vm_compute. reflexivity.
  - vm_compute. reflexivity.
Defined.

(* ================================================================== *)
(** ** Further properties of the code *)

Import JsString.

(* ------------------------------------------------------------------ *)
(** *** The free-text parser *)

Section TextParserMore.
Import TextParser TextSpec.






(** X1: the headers [parseText] returns are pairwise distinct, its single
    row has exactly the headers as its keys, in the order of the headers,
    and so holds a value under every header. *)
Theorem X1_parseText_headers_and_row text :
  NoDup (headers (parseText text))
  /\ (exists row, rows (parseText text) = [row]
                  /\ Obj.keys row = headers (parseText text)
                  /\ forall h, In h (headers (parseText text)) ->
                               exists v, Obj.get row h = Some v)
  /\ rowCount (parseText text) = 1.
Proof.
  rewrite parseText_fields. simpl.
  split; [apply NoDup_parseFields|]. split; [|reflexivity].
  exists (parseFields text). split; [reflexivity|]. split; [reflexivity|].
  intros h. apply In_keys_get.
Qed.


Lemma trimStart_all_ws s : all_ws s = true -> trimStart s = EmptyString.
Proof.
  induction s as [|c s IH]; simpl; [reflexivity|].
  intros H. apply andb_true_iff in H. destruct H as [Hc Hs].
  rewrite Hc. exact (IH Hs).
Qed.

Lemma trim_all_ws s : all_ws s = true -> trim s = EmptyString.
Proof. intros H. unfold trim. rewrite (trimStart_all_ws _ H). reflexivity. Qed.

Lemma split_all_ws sep s :
  all_ws s = true -> forall l, In l (split sep s) -> all_ws l = true.
Proof.
  induction s as [|c s IH]; simpl.
  - intros _ l [<-|[]]. reflexivity.
  - intros H. apply andb_true_iff in H. destruct H as [Hc Hs].
    specialize (IH Hs).
    destruct (Ascii.eqb c sep).
    + intros l [<-|Hl]; [reflexivity | exact (IH l Hl)].
    + destruct (split sep s) as [|h t] eqn:E.
      * intros l [<-|[]]. simpl. rewrite Hc. reflexivity.
      * intros l [<-|Hl].
        -- simpl. rewrite Hc. apply IH. left. reflexivity.
        -- apply IH. right. exact Hl.
Qed.

(** X3: a text made of white space only (blank lines, spaces, tabs)
    parses to no header and one empty row. *)
Theorem X3_blank_text text (Hblank : all_ws text = true) :
  parseText text = {| headers := []; rows := [[]]; rowCount := 1 |}.
Proof.
  rewrite parseText_fields.
  assert (E : parseFields text = []).
  { unfold parseFields. rewrite (trim_all_ws _ Hblank). simpl.
    pose proof (split_all_ws (ascii_of_nat 10) text Hblank) as Hl.
    induction (split (ascii_of_nat 10) text) as [|l ls IH]; [reflexivity|].
    simpl. unfold parseLine at 2.
    rewrite (trim_all_ws l (Hl l (or_introl eq_refl))). simpl.
    apply IH. intros l' H'. apply Hl. right. exact H'. }
  rewrite E. reflexivity.
Qed.

Lemma skip_to_sep_parts sep s rest :
  skip_to_sep sep s = Some rest ->
  exists w, s = w ++ String sep rest /\ all_ws w = true.
Proof.
  revert rest. induction s as [|c s IH]; simpl; intros rest; [discriminate|].
  destruct (Ascii.eqb_spec c sep) as [->|N].
  - intros [= <-]. exists EmptyString. auto.
  - destruct (is_ws c) eqn:W; [|discriminate].
    intros H. destruct (IH _ H) as (w & -> & Hw).
    exists (String c w). simpl. rewrite W, Hw. auto.
Qed.

Lemma value_match_parts r v :
  value_match r = Some v ->
  exists w, r = w ++ v /\ all_ws w = true
            /\ v <> EmptyString /\ single_line v = true.
Proof.
  assert (D : forall s, dot_plus_end s = Some v ->
                        s = v /\ v <> EmptyString /\ single_line v = true).
  { intros s. unfold dot_plus_end.
    destruct (truthy s && dot_plus_end_ok s) eqn:E; [|discriminate].
    intros [= <-]. apply andb_true_iff in E. destruct E as [E1 E2].
    repeat split; [|exact E2]. destruct s; [discriminate | discriminate]. }
  revert v D. induction r as [|c r IH]; simpl; intros v D; [discriminate|].
  destruct (is_ws c) eqn:W.
  - destruct (value_match r) as [v'|] eqn:E.
    + intros [= <-]. destruct (IH v' D eq_refl) as (w & -> & Hw & Hv).
      exists (String c w). simpl. rewrite W, Hw. auto.
    + intros H. destruct (D _ H) as (<- & Hv). exists EmptyString. auto.
  - intros H. destruct (D _ H) as (<- & Hv). exists EmptyString. auto.
Qed.

Lemma lazy_key_parts sep s : forall k v,
  lazy_key sep s = Some (k, v) ->
  (exists w1 w2, s = k ++ w1 ++ String sep (w2 ++ v)
                 /\ all_ws w1 = true /\ all_ws w2 = true)
  /\ single_line k = true /\ v <> EmptyString /\ single_line v = true.
Proof.
  induction s as [|c s IH]; intros k v.
  - simpl. discriminate.
  - change (lazy_key sep (String c s))
      with (match after_key sep (String c s) with
            | Some v => Some (EmptyString, v)
            | None => if is_lt c then None
                      else match lazy_key sep s with
                           | Some (k, v) => Some (String c k, v)
                           | None => None
                           end
            end).
    unfold after_key.
    destruct (skip_to_sep sep (String c s)) as [rest|] eqn:Hskip.
    + destruct (value_match rest) as [v'|] eqn:Hv.
      * intros [= <- <-].
        destruct (skip_to_sep_parts _ _ _ Hskip) as (w1 & Hs & Hw1).
        destruct (value_match_parts _ _ Hv) as (w2 & -> & Hw2 & Hne & Hl).
        split; [|auto]. exists w1, w2. simpl. auto.
      * destruct (is_lt c) eqn:L; [discriminate|].
        destruct (lazy_key sep s) as [[k' v']|] eqn:E; [|discriminate].
        intros [= <- <-].
        destruct (IH _ _ eq_refl) as ((w1 & w2 & -> & Hw) & Hk & Hv').
        split; [exists w1, w2; auto|].
        unfold single_line in *. simpl. rewrite L, Hk. auto.
    + destruct (is_lt c) eqn:L; [discriminate|].
      destruct (lazy_key sep s) as [[k' v']|] eqn:E; [|discriminate].
      intros [= <- <-].
      destruct (IH _ _ eq_refl) as ((w1 & w2 & -> & Hw) & Hk & Hv').
      split; [exists w1, w2; auto|].
      unfold single_line in *. simpl. rewrite L, Hk. auto.
Qed.

(** On a line without line terminator the lazy key stops at the first
    separator. *)
Lemma lazy_key_stops sep s : forall k v,
  single_line s = true ->
  lazy_key sep s = Some (k, v) -> includes sep k = false.
Proof.
  unfold single_line.
  induction s as [|c s IH]; intros k v Hline.
  - simpl. discriminate.
  - change (lazy_key sep (String c s))
      with (match after_key sep (String c s) with
            | Some v => Some (EmptyString, v)
            | None => if is_lt c then None
                      else match lazy_key sep s with
                           | Some (k, v) => Some (String c k, v)
                           | None => None
                           end
            end).
    destruct (after_key sep (String c s)) as [v'|] eqn:Ha.
    + intros [= <- <-]. reflexivity.
    + destruct (is_lt c); [discriminate|].
      destruct (lazy_key sep s) as [[k' v']|] eqn:E; [|discriminate].
      intros [= <- <-]. simpl in Hline.
      apply andb_true_iff in Hline. destruct Hline as [_ Hline].
      simpl. rewrite (IH _ _ Hline eq_refl), orb_false_r.
      destruct (Ascii.eqb_spec c sep) as [->|]; [|reflexivity].
      exfalso. unfold after_key in Ha. simpl in Ha. rewrite Ascii.eqb_refl in Ha.
      destruct s as [|d s']; [simpl in E; discriminate|].
      destruct (value_match_total (String d s') ltac:(discriminate) Hline)
        as [x Hx].
      rewrite Hx in Ha. discriminate.
Qed.

(** X4: when one of the four key/value patterns matches a line, the line
    is the key, white space, the separator, white space and the value;
    neither group is empty or holds a line terminator; and on a line
    without line terminator the key stops at the first separator after
    the first character of the line. *)
Theorem X4_pattern_splits_the_line sep line key value
        (Hmatch : try_kv sep line = Some (key, value)) :
  (exists w1 w2, line = key ++ w1 ++ String sep (w2 ++ value)
                 /\ all_ws w1 = true /\ all_ws w2 = true)
  /\ key <> EmptyString /\ value <> EmptyString
  /\ single_line key = true /\ single_line value = true
  /\ (single_line line = true ->
      exists c k, key = String c k /\ includes sep k = false).
Proof.
  unfold try_kv, match_kv in Hmatch.
  destruct line as [|c s]; [discriminate|].
  destruct (is_lt c) eqn:L; [discriminate|].
  destruct (lazy_key sep s) as [[k v]|] eqn:E; [|discriminate].
  destruct (truthy (String c k) && truthy v); [|discriminate].
  injection Hmatch as <- <-.
  destruct (lazy_key_parts _ _ _ _ E) as ((w1 & w2 & -> & Hw) & Hk & Hne & Hv).
  split; [exists w1, w2; auto|].
  split; [discriminate|]. split; [exact Hne|].
  split; [unfold single_line in *; simpl; rewrite L, Hk; reflexivity|].
  split; [exact Hv|].
  intros Hline. exists c, k. split; [reflexivity|].
  refine (lazy_key_stops sep _ k v _ E).
  unfold single_line in *. simpl in Hline.
  apply andb_true_iff in Hline. tauto.
Qed.

Lemma includes_app c a b : includes c (a ++ b) = includes c a || includes c b.
Proof.
  induction a as [|d a IH]; simpl; [reflexivity|].
  rewrite IH. apply orb_assoc.
Qed.

Lemma includes_not_trim c s : includes c s = false -> includes c (trim s) = false.
Proof.
  intros H. destruct (includes c (trim s)) eqn:E; [|reflexivity].
  apply includes_trim in E. congruence.
Qed.

Lemma try_kv_needs_sep sep line :
  includes sep line = false -> try_kv sep line = None.
Proof.
  intros H. destruct (try_kv sep line) as [[key value]|] eqn:E; [|reflexivity].
  unfold try_kv, match_kv in E.
  destruct line as [|c s]; [discriminate|].
  destruct (is_lt c); [discriminate|].
  destruct (lazy_key sep s) as [[k v]|] eqn:L; [|discriminate].
  destruct (lazy_key_parts sep s k v L) as ((w1 & w2 & -> & _) & _).
  simpl in H. rewrite !includes_app in H. simpl in H.
  rewrite Ascii.eqb_refl in H. simpl in H.
  rewrite !orb_true_r in H. discriminate.
Qed.

(** X5: a line that holds no colon, no equals sign, no dash, no bar
    and no tab adds nothing to the fields: it is dropped without a
    word, also when it is in braces. *)
Theorem X5_line_without_separator_is_dropped fields line
        (Hcolon : includes ":" line = false)
        (Hequals : includes "=" line = false)
        (Hdash : includes "-" line = false)
        (Hbar : includes "|" line = false)
        (Htab : includes (ascii_of_nat 9) line = false) :
  parseLine fields line = fields.
Proof.
  unfold parseLine.
  destruct (is_empty (trim line)); [reflexivity|].
  rewrite (try_kv_needs_sep ":" _ (includes_not_trim _ _ Hcolon)),
    (try_kv_needs_sep "=" _ (includes_not_trim _ _ Hequals)),
    (try_kv_needs_sep "-" _ (includes_not_trim _ _ Hdash)),
    (try_kv_needs_sep "|" _ (includes_not_trim _ _ Hbar)).
  rewrite (includes_not_trim _ _ Htab).
  destruct (braced (trim line)); [|reflexivity].
  destruct (Json.parse (trim line)) as [jsonData|] eqn:P; [|reflexivity].
  destruct jsonData as [| | | | | |members]; try reflexivity.
  destruct (json_object_text line members P) as [_ Hm].
  destruct members as [|m members]; [reflexivity|].
  rewrite (includes_not_trim _ _ Hcolon) in Hm.
  discriminate Hm. discriminate.
Qed.

End TextParserMore.

Lemma X3_blank_text_witness :
  TextParser.parseText ("  " ++ lf ++ tab ++ lf)
  = {| headers := []; rows := [[]]; rowCount := 1 |}.
Proof.
  apply (X3_blank_text ("  " ++ lf ++ tab ++ lf)). reflexivity.
Defined.

Lemma X4_pattern_splits_the_line_witness :
  exists w1 w2, "Phone :  555-1234" = "Phone" ++ w1 ++ String ":" (w2 ++ "555-1234")
                /\ TextSpec.all_ws w1 = true /\ TextSpec.all_ws w2 = true.
Proof.
  exact (proj1 (X4_pattern_splits_the_line ":" "Phone :  555-1234"
                  "Phone" "555-1234" eq_refl)).
Defined.

Lemma X1_parseText_headers_and_row_witness :
  exists row, rows (TextParser.parseText Samples.scenario_text) = [row]
              /\ exists v, Obj.get row "Email" = Some v.
Proof.
  destruct (X1_parseText_headers_and_row Samples.scenario_text)
    as (_ & (row & Hrows & _ & Hget) & _).
  exists row. split; [exact Hrows|].
  apply Hget. vm_compute. auto.
Defined.

Lemma X5_line_without_separator_is_dropped_witness :
  TextParser.parseLine [("Name", JString "Jane")] "  call me later "
  = [("Name", JString "Jane")].
Proof.
  apply (X5_line_without_separator_is_dropped
           [("Name", JString "Jane")] "  call me later ");
    reflexivity.
Defined.

(* ------------------------------------------------------------------ *)
(** *** The converter, the preview and the generated mappings *)

Section ConverterMore.
Import CsvParser.

Lemma emit_fresh mappings row : forall acc,
  NoDup (Obj.keys row) ->
  (forall k, In k (Obj.keys acc) -> ~ In k (Obj.keys row)) ->
  fold_left (emitField mappings) row acc
  = (acc ++ map (fun entry : string * JsValue =>
                   (fst entry,
                    {| value := trim (js_toString (snd entry));
                       description := describe mappings (fst entry) |}))
               (filter (fun entry : string * JsValue =>
                          js_truthy (snd entry)
                          && negb (is_empty (trim (js_toString (snd entry)))))
                       row))%list.
Proof.
  induction row as [|[k v] row IH]; simpl; intros acc ND Hacc.
  - rewrite app_nil_r. reflexivity.
  - inversion ND as [|? ? Hk ND']; subst.
    assert (Hfresh : ~ In k (Obj.keys acc)).
    { intros H. apply (Hacc k H). left. reflexivity. }
    destruct (js_truthy v && negb (is_empty (trim (js_toString v)))) eqn:E.
    + rewrite (set_fresh _ _ _ Hfresh). rewrite IH; [|exact ND'|].
      * simpl. rewrite <- app_assoc. reflexivity.
      * intros k' Hk'. unfold Obj.keys in Hk'. rewrite map_app in Hk'.
        apply in_app_or in Hk'. destruct Hk' as [Hk'|[<-|[]]].
        -- intros Hin. apply (Hacc k' Hk'). right. exact Hin.
        -- exact Hk.
    + apply IH; [exact ND'|].
      intros k' Hk' Hin. apply (Hacc k' Hk'). right. exact Hin.
Qed.


(** X7: the "Field Mappings Preview" of the selected row lists exactly
    what the fill sends when the preview's mappings are passed on as
    custom mappings: one item per sent column, in the same order, the
    shown PDF field being the sent description and the sent value the
    trimmed text of the shown value. *)
Theorem X7_preview_agrees_with_fill row fieldMappings
        (Hobject : NoDup (Obj.keys row)) :
  convertRowToFieldData row (Some fieldMappings)
  = map (fun item =>
           (CsvPreview.column item,
            {| value := trim (js_toString (CsvPreview.shown item));
               description := CsvPreview.target item |}))
        (CsvPreview.mappingItems row fieldMappings).
Proof.
  rewrite convert_fold.
  rewrite (emit_fresh _ row Obj.empty Hobject) by (intros k []).
  simpl. clear Hobject. unfold CsvPreview.mappingItems.
  induction row as [|[k v] row IH]; simpl; [reflexivity|].
  destruct (js_truthy v && negb (is_empty (trim (js_toString v)))); simpl;
    rewrite IH; reflexivity.
Qed.

End ConverterMore.

Section MappingsMore.
Import CsvParser.

Lemma word_found w : forall b c,
  toLowerCase b = w -> Rules.word w (b ++ c) = Some c.
Proof.
  induction w as [|p w IH]; intros b c H.
  - destruct b; [reflexivity | discriminate].
  - destruct b as [|x b]; [discriminate|].
    simpl in H. injection H as Hx Hb. simpl.
    unfold Rules.same_letter. rewrite Hx, Ascii.eqb_refl. apply IH, Hb.
Qed.

Lemma test_found pattern w a b c :
  In [w] pattern -> toLowerCase b = w ->
  Rules.test pattern (a ++ b ++ c) = true.
Proof.
  intros Hin Hb.
  assert (Here : existsb (fun words => Rules.alternative words (b ++ c)) pattern = true).
  { apply existsb_exists. exists [w]. split; [exact Hin|].
    simpl. rewrite (word_found w b c Hb). reflexivity. }
  induction a as [|x a IH]; simpl.
  - destruct (b ++ c); simpl in *; rewrite Here; reflexivity.
  - rewrite IH. apply orb_true_r.
Qed.

Lemma firstMatch_in rules header d :
  Rules.firstMatch rules header = Some d -> In d (map snd rules).
Proof.
  induction rules as [|[pattern description] rules IH]; simpl; [discriminate|].
  destruct (Rules.test pattern header).
  - intros [= <-]. left. reflexivity.
  - intros H. right. exact (IH H).
Qed.

Lemma find_append {A} (p : A -> bool) l1 l2 :
  find p (l1 ++ l2)%list
  = match find p l1 with Some x => Some x | None => find p l2 end.
Proof.
  induction l1 as [|a l1 IH]; simpl; [reflexivity|].
  destruct (p a); [reflexivity | exact IH].
Qed.

Lemma get_fold_set {V} (f : string -> string) (g : string -> V) hs : forall acc k,
  Obj.get (fold_left (fun m h => Obj.set (f h) (g h) m) hs acc) k
  = match find (fun h => String.eqb (f h) k) (rev hs) with
    | Some h => Some (g h)
    | None => Obj.get acc k
    end.
Proof.
  induction hs as [|h hs IH]; simpl; intros acc k; [reflexivity|].
  rewrite IH, find_append.
  destruct (find (fun h0 => String.eqb (f h0) k) (rev hs)); [reflexivity|].
  simpl. destruct (String.eqb_spec (f h) k) as [<-|N].
  - apply get_set_same.
  - apply get_set_other. exact N.
Qed.

Lemma find_none_iff {A} (p : A -> bool) l :
  find p l = None <-> forall x, In x l -> p x = false.
Proof.
  split.
  - intros H x Hx. exact (find_none p l H x Hx).
  - induction l as [|a l IH]; simpl; [reflexivity|].
    intros H. rewrite (H a (or_introl eq_refl)). apply IH.
    intros x Hx. apply H. right. exact Hx.
Qed.

Lemma normalizeKey_empty k : normalizeKey k = EmptyString -> k = EmptyString.
Proof.
  assert (H : forall s, replace_ws_runs "_" s = EmptyString -> s = EmptyString).
  { induction s as [|c s IH]; [reflexivity|].
    simpl. destruct (is_ws c); [|discriminate].
    destruct s as [|d s']; [discriminate|].
    destruct (is_ws d); [|discriminate].
    intros E. specialize (IH E). discriminate. }
  unfold normalizeKey. intros E. apply H in E.
  destruct k; [reflexivity | discriminate].
Qed.

Lemma describeText_cases h :
  TextMappings.describeHeader h = h
  \/ In (TextMappings.describeHeader h) (map snd TextMappings.fieldPatterns).
Proof.
  unfold TextMappings.describeHeader.
  destruct (Rules.firstMatch TextMappings.fieldPatterns h) eqn:E; [|auto].
  right. exact (firstMatch_in _ _ _ E).
Qed.

Lemma text_lookup_hit headers h :
  In h headers ->
  Obj.get (TextMappings.generateTextFieldMappings headers) h
  = Some (TextMappings.describeHeader h).
Proof.
  intros Hin. unfold TextMappings.generateTextFieldMappings.
  rewrite (get_fold_set (fun h => h) TextMappings.describeHeader).
  destruct (find (fun h0 => String.eqb h0 h) (rev headers)) as [h'|] eqn:E.
  - apply find_some in E. destruct E as [_ E].
    apply String.eqb_eq in E. subst h'. reflexivity.
  - exfalso. rewrite find_none_iff in E.
    specialize (E h (proj1 (in_rev _ _) Hin)).
    rewrite String.eqb_refl in E. discriminate.
Qed.

Lemma text_lookup_miss headers k :
  ~ In k headers ->
  Obj.get (TextMappings.generateTextFieldMappings headers) k = None.
Proof.
  intros Hnot. unfold TextMappings.generateTextFieldMappings.
  rewrite (get_fold_set (fun h => h) TextMappings.describeHeader).
  destruct (find (fun h0 => String.eqb h0 k) (rev headers)) as [h'|] eqn:E;
    [|reflexivity].
  apply find_some in E. destruct E as [Hin E].
  apply String.eqb_eq in E. subst h'.
  destruct Hnot. apply in_rev. exact Hin.
Qed.

(** X8: [generateTextFieldMappings] gives every header an entry, under
    the header itself: the description of the first rule that matches the
    header, or the header when none does; as the name rule comes first,
    every header that holds the word name, in any case, is described as
    Name. *)
Theorem X8_text_mappings_lookup :
  (forall headers h,
      In h headers ->
      Obj.get (TextMappings.generateTextFieldMappings headers) h
      = Some (TextMappings.describeHeader h))
  /\ (forall headers k,
        ~ In k headers ->
        Obj.get (TextMappings.generateTextFieldMappings headers) k = None)
  /\ (forall h,
        TextMappings.describeHeader h = h
        \/ In (TextMappings.describeHeader h)
              ["Name"; "Email Address"; "Phone Number"; "Address"; "City";
               "State/Province"; "Postal Code"; "Country"; "Company Name";
               "Job Title"; "Date"; "Signature"])
  /\ (forall a b c,
        toLowerCase b = "name" ->
        TextMappings.describeHeader (a ++ b ++ c) = "Name").
Proof.
  split; [exact text_lookup_hit|].
  split; [exact text_lookup_miss|].
  split; [exact describeText_cases|].
  intros a b c Hb. unfold TextMappings.describeHeader. simpl.
  rewrite (test_found _ "name" a b c); [reflexivity | simpl; auto | exact Hb].
Qed.



Lemma describeCsv_cases h :
  CsvMappings.describeHeader h = h
  \/ In (CsvMappings.describeHeader h) (map snd CsvMappings.fieldPatterns).
Proof.
  unfold CsvMappings.describeHeader.
  destruct (Rules.firstMatch CsvMappings.fieldPatterns h) eqn:E; [|auto].
  right. exact (firstMatch_in _ _ _ E).
Qed.

Lemma describeCsv_empty h :
  CsvMappings.describeHeader h = EmptyString -> h = EmptyString.
Proof.
  intros H. destruct (describeCsv_cases h) as [E|E]; [congruence|].
  rewrite H in E. simpl in E.
  repeat (destruct E as [E|E]; [discriminate|]). destruct E.
Qed.

Lemma csv_lookup headers h :
  In h headers ->
  exists h', In h' headers
             /\ normalizeKey h' = normalizeKey h
             /\ Obj.get (CsvMappings.generateFieldMappings headers) (normalizeKey h)
                = Some (CsvMappings.describeHeader h')
             /\ (NoDup (map normalizeKey headers) -> h' = h).
Proof.
  intros Hin. unfold CsvMappings.generateFieldMappings.
  rewrite (get_fold_set normalizeKey CsvMappings.describeHeader).
  destruct (find (fun h0 => String.eqb (normalizeKey h0) (normalizeKey h))
                 (rev headers)) as [h'|] eqn:E.
  - apply find_some in E. destruct E as [Hin' E].
    apply String.eqb_eq in E. apply in_rev in Hin'.
    exists h'. repeat split; auto.
    intros ND. clear - ND Hin Hin' E. revert ND Hin Hin'.
    induction headers as [|x xs IH]; intros ND Hin Hin'; [destruct Hin|].
    simpl in ND. inversion ND as [|? ? Hx ND']; subst.
    destruct Hin as [->|Hin], Hin' as [->|Hin'].
    + reflexivity.
    + destruct Hx. rewrite <- E. apply in_map. exact Hin'.
    + destruct Hx. rewrite E. apply in_map. exact Hin.
    + exact (IH ND' Hin Hin').
  - exfalso. rewrite find_none_iff in E.
    specialize (E h (proj1 (in_rev _ _) Hin)).
    rewrite String.eqb_refl in E. discriminate.
Qed.

(** X10: [generateFieldMappings] stores, under the normalized name of
    every header, the description generated for a header of that
    normalized name (the last one; the header itself when normalized names
    are distinct).  Passed on to the fill as custom mappings, it makes
    every sent column of such a table carry the description of the first
    rule its header matches, or its own name when none matches. *)
Theorem X10_csv_mappings_reach_the_fill headers row key d
        (Hheader : In key headers)
        (Hsent : Obj.get (convertRowToFieldData row
                            (Some (CsvMappings.generateFieldMappings headers)))
                         key = Some d) :
  (exists h, In h headers /\ normalizeKey h = normalizeKey key
             /\ description d = CsvMappings.describeHeader h)
  /\ (NoDup (map normalizeKey headers) ->
      description d = CsvMappings.describeHeader key).
Proof.
  rewrite convert_fold in Hsent.
  destruct (emitted_entry _ _ _ _ _ Hsent) as [H|(v & _ & _ & _ & ->)];
    [discriminate|].
  cbn [description]. unfold describe.
  destruct (csv_lookup headers key Hheader) as (h & Hin & Hn & Hget & Hsame).
  rewrite Hget.
  assert (E : (if truthy (CsvMappings.describeHeader h)
               then CsvMappings.describeHeader h else key)
              = CsvMappings.describeHeader h).
  { destruct (CsvMappings.describeHeader h) eqn:E; [|reflexivity].
    simpl. apply describeCsv_empty in E. subst h.
    symmetry in Hn. apply normalizeKey_empty in Hn. exact Hn. }
  rewrite E. split.
  - exists h. auto.
  - intros ND. rewrite (Hsame ND). reflexivity.
Qed.

(** X11: the rules of [generateFieldMappings] are tried in order and the
    fifth one matches the word number, so a header that holds number, in
    any case, is described by one of the first five rules: never as Bank
    Account Number or Routing Number, whose rules come later. *)
Theorem X11_number_rule_shadows_later_rules a b c
        (Hnumber : toLowerCase b = "number") :
  In (CsvMappings.describeHeader (a ++ b ++ c))
     ["Title or Company Name"; "Surname or Last Name"; "First Name";
      "Street Address"; "Street Number"].
Proof.
  unfold CsvMappings.describeHeader, CsvMappings.fieldPatterns.
  cbn [Rules.firstMatch].
  rewrite (test_found [["number"]; ["street"; "number"]] "number" a b c);
    [|simpl; auto | exact Hnumber].
  repeat match goal with
         | |- context [if ?t then _ else _] => destruct t
         end; simpl; auto 6.
Qed.

End MappingsMore.


Lemma X10_csv_mappings_reach_the_fill_witness :
  description {| value := "021000021"; description := "Street Number" |}
  = CsvMappings.describeHeader "Routing Number".
Proof.
  apply (proj2 (X10_csv_mappings_reach_the_fill
                  ["name"; "Routing Number"]
                  [("name", JString "Jane"); ("Routing Number", JString "021000021")]
                  "Routing Number"
                  {| value := "021000021"; description := "Street Number" |}
                  ltac:(simpl; auto) ltac:(vm_compute; reflexivity))).
  vm_compute. repeat constructor; simpl; intuition discriminate.
Defined.

Lemma X11_number_rule_shadows_later_rules_witness :
  In (CsvMappings.describeHeader "routing_number")
     ["Title or Company Name"; "Surname or Last Name"; "First Name";
      "Street Address"; "Street Number"].
Proof.
  apply (X11_number_rule_shadows_later_rules "routing_" "number" EmptyString).
  reflexivity.
Defined.


Lemma X7_preview_agrees_with_fill_witness :
  CsvParser.convertRowToFieldData
    [("name", JString " Jane "); ("note", JString " ")] (Some [("name", "First Name")])
  = [("name", {| value := "Jane"; description := "First Name" |})].
Proof.
  apply (X7_preview_agrees_with_fill
           [("name", JString " Jane "); ("note", JString " ")]
           [("name", "First Name")]).
  repeat constructor; simpl; intuition discriminate.
Defined.

Lemma X8_text_mappings_lookup_witness :
  Obj.get (TextMappings.generateTextFieldMappings ["Full Name"; "Bank Name"]) "Bank Name"
  = Some (TextMappings.describeHeader "Bank Name").
Proof.
  apply (proj1 X8_text_mappings_lookup ["Full Name"; "Bank Name"] "Bank Name").
  simpl. auto.
Defined.

(* ------------------------------------------------------------------ *)
(** *** The fill client: how a call ends *)

Section PollingMore.
Import DatalabService.
Variable remote : Remote.
Variables requestId outputPath apiKey : string.
Variables maxAttempts intervalMs : nat.

Local Abbreviation loop fuel attempts :=
  (pollLoop remote fuel requestId outputPath apiKey maxAttempts intervalMs attempts).
Local Abbreviation run :=
  (pollAndDownloadPDF remote requestId outputPath apiKey maxAttempts intervalMs).

#[local] Set Warnings "-inconsistent-scopes".

(** How a call that made [turns] waiting turns may end: [rest] is what
    its trace holds after them. *)
Local Abbreviation ending turns rest out :=
  (match out with
   | Returned result =>
       turns < maxAttempts
       /\ success result = true /\ filePath result = outputPath
       /\ ((exists payload,
              rest = [EvPoll requestId;
                      EvWriteFile outputPath (FromBase64 payload)])
           \/ (exists fileUrl,
                 rest = [EvPoll requestId; EvFetch fileUrl;
                         EvWriteFile outputPath (FromUrl fileUrl)]))
   | Thrown message =>
       (turns = maxAttempts /\ rest = []
        /\ message = "Timeout waiting for form filling to complete")
       \/ (turns < maxAttempts /\ rest = [EvPoll requestId]
           /\ exists detail,
                message = "Status check error: " ++ detail
                \/ message = "Form filling failed: " ++ detail
                \/ message = "No output data in completed response. Available fields: "
                             ++ detail)
       \/ (turns < maxAttempts
           /\ exists fileUrl detail,
                rest = [EvPoll requestId; EvFetch fileUrl]
                /\ message = "Download error: " ++ detail)
   | OutOfFuel => False
   end).

Lemma finish_ending s turns :
  turns < maxAttempts ->
  ending turns (EvPoll requestId :: fst (finish remote s outputPath))
         (snd (finish remote s outputPath)).
Proof.
  intros Hlt. unfold finish, downloadFilledPDF.
  destruct (inlinePayload s) as [p|].
  { simpl. repeat split; auto. left. exists p. reflexivity. }
  destruct (outputUrl s) as [u|].
  - destruct (fetch_reply remote u) as [msg|[]]; simpl.
    + right. right. split; [exact Hlt|]. exists u, msg. auto.
    + repeat split; auto. right. exists u. reflexivity.
  - simpl. right. left. repeat split; auto.
    exists (join ", " (own_keys s)). auto.
Qed.

Lemma pollLoop_shape fuel : forall a,
  a <= maxAttempts ->
  maxAttempts - a < fuel ->
  exists n rest,
    fst (loop fuel a) = (waiting requestId intervalMs n ++ rest)%list
    /\ a + n <= maxAttempts
    /\ ending (a + n) rest (snd (loop fuel a)).
Proof.
  induction fuel as [|fuel IH]; intros a Hle Hfuel; [lia|].
  simpl pollLoop.
  destruct (a <? maxAttempts) eqn:Hlt.
  2:{ apply Nat.ltb_ge in Hlt. exists 0, []. simpl.
      split; [reflexivity|]. split; [lia|]. left. split; [lia|]. auto. }
  apply Nat.ltb_lt in Hlt.
  unfold checkFillStatus.
  destruct (poll_reply remote requestId a) as [msg|s]; simpl.
  { exists 0, [EvPoll requestId]. simpl.
    split; [reflexivity|]. split; [lia|]. right. left.
    split; [lia|]. split; [reflexivity|]. exists msg. auto. }
  destruct (is_complete s).
  { exists 0, (EvPoll requestId :: fst (finish remote s outputPath)).
    pose proof (finish_ending s (a + 0) ltac:(lia)) as E.
    destruct (finish remote s outputPath) as [tr r]. simpl in *.
    split; [reflexivity|]. split; [lia|]. exact E. }
  destruct (is_failed s).
  { exists 0, [EvPoll requestId]. simpl.
    split; [reflexivity|]. split; [lia|]. right. left.
    split; [lia|]. split; [reflexivity|]. exists (failureDetail s). auto. }
  destruct (IH (S a) ltac:(lia) ltac:(lia)) as (n & rest & Htr & Hn & E).
  exists (S n), rest.
  destruct (loop fuel (S a)) as [tr r]. simpl in *.
  split; [rewrite Htr; reflexivity|]. split; [lia|].
  replace (a + S n) with (S (a + n)) by lia. exact E.
Qed.


(** X13: a status check that fails in transport is not retried: after
    any number of pending polls, the first poll that throws ends the call
    with the status-check error, without sleeping or polling again. *)
Theorem X13_failed_poll_ends_the_call n message
        (Hn : n < maxAttempts)
        (Hwait : forall i, i < n -> pending remote requestId i)
        (Hpoll : poll_reply remote requestId n = inl message) :
  run = ((waiting requestId intervalMs n ++ [EvPoll requestId])%list,
         Thrown ("Status check error: " ++ message)).
Proof.
  rewrite (run_reaches remote requestId outputPath apiKey maxAttempts intervalMs
                       n Hn Hwait).
  simpl pollLoop. apply Nat.ltb_lt in Hn. rewrite Hn.
  unfold checkFillStatus. rewrite Hpoll. reflexivity.
Qed.

End PollingMore.

Lemma X13_failed_poll_ends_the_call_witness :
  DatalabService.pollAndDownloadPDF Samples4.flaky_remote
    "req-1" "uploads/filled-1.pdf" "key" 90 3000
  = ([EvPoll "req-1"; EvSleep 3000; EvPoll "req-1"],
     Thrown "Status check error: socket hang up").
Proof.
  apply (X13_failed_poll_ends_the_call Samples4.flaky_remote
           "req-1" "uploads/filled-1.pdf" "key" 90 3000 1 "socket hang up").
  - lia.
  - intros i Hi. exists Samples2.pending_status.
    split; [destruct i; [reflexivity | lia]|].
    simpl. intuition discriminate.
  - reflexivity.
Defined.

(* ------------------------------------------------------------------ *)
(** *** The fill route: what a request can lead to *)

Section RouteMore.
Import FormFilling.
Variable parseFieldsFromText : string -> Obj.t JsValue.
Variable w : World.

Local Abbreviation outputFilename := ("filled-" ++ now w ++ ".pdf").
Local Abbreviation outputPath := ("uploads/" ++ "filled-" ++ now w ++ ".pdf").

(** The trace holds no write to a file. *)
Local Abbreviation writes_nothing tr :=
  (forall path content, ~ In (EvWriteFile path content) tr).

Lemma submits_app tr1 tr2 : submits (tr1 ++ tr2)%list = submits tr1 || submits tr2.
Proof. apply existsb_app. Qed.

Lemma calls_remote_app tr1 tr2 :
  calls_remote (tr1 ++ tr2)%list = calls_remote tr1 || calls_remote tr2.
Proof. apply existsb_app. Qed.

Lemma submits_waiting requestId intervalMs n :
  submits (DatalabService.waiting requestId intervalMs n) = false.
Proof. induction n as [|n IH]; [reflexivity | exact IH]. Qed.

Lemma parseCSV_cases filePath :
  exists out, CsvParser.parseCSV (csv w) filePath = ([EvReadCsv filePath], out)
              /\ out <> OutOfFuel.
Proof.
  unfold CsvParser.parseCSV.
  destruct (CsvParser.readFile (csv w) filePath) as [msg|fileContent]; simpl.
  { eexists. split; [reflexivity | discriminate]. }
  destruct (0 <? List.length (CsvParser.errors (CsvParser.Papa_parse (csv w) fileContent)));
    simpl; eexists; (split; [reflexivity | discriminate]).
Qed.

Lemma parsePDF_cases pdfPath apiKey :
  submits (fst (PdfParser.parsePDF parseFieldsFromText (pdfs w) pdfPath apiKey)) = false
  /\ snd (PdfParser.parsePDF parseFieldsFromText (pdfs w) pdfPath apiKey) <> OutOfFuel
  /\ writes_nothing (fst (PdfParser.parsePDF parseFieldsFromText (pdfs w) pdfPath apiKey)).
Proof.
  unfold PdfParser.parsePDF, PdfParser.extractPDFData,
    PdfParser.extractFormFields, PdfParser.extractWithPdf2Json,
    PdfParser.extractWithOCR.
  simpl.
  repeat match goal with
         | |- context [if ?b then _ else _] => destruct b; simpl
         | |- context [PdfParser.text ?f] => destruct (PdfParser.text f); simpl
         | |- context [match apiKey with _ => _ end] =>
             destruct apiKey as [[|? ?]|]; simpl
         end;
    (split; [reflexivity|]; split; [discriminate|]);
    intros p c H; simpl in H; intuition discriminate.
Qed.

(** The parsing stage: it ends, it submits nothing, and without a key
    it sends nothing to the remote service. *)
Lemma parseSource_cases req :
  submits (fst (parseSource parseFieldsFromText w req)) = false
  /\ (given (DATALAB_API_KEY w) = false ->
      calls_remote (fst (parseSource parseFieldsFromText w req)) = false)
  /\ writes_nothing (fst (parseSource parseFieldsFromText w req))
  /\ match snd (parseSource parseFieldsFromText w req) with
     | Returned (inl early) =>
         early = {| statusCode := 500;
                    body := ErrorBody "DATALAB_API_KEY not configured" |}
     | Returned (inr parsedData) => True
     | Thrown _ => True
     | OutOfFuel => False
     end.
Proof.
  unfold parseSource.
  destruct (given (textData req)); [simpl; repeat split; auto|].
  destruct (given (csvPath req)).
  { destruct (parseCSV_cases (text_of (csvPath req))) as (out & -> & Hout).
    destruct out; simpl; repeat split; auto;
      intros p c H; simpl in H; intuition discriminate. }
  destruct (given (DATALAB_API_KEY w)) eqn:K; simpl; [|repeat split; auto].
  destruct (parsePDF_cases (text_of (dataPdfPath req)) (DATALAB_API_KEY w))
    as (Hs & Hout & Hw).
  destruct (PdfParser.parsePDF parseFieldsFromText (pdfs w)
              (text_of (dataPdfPath req)) (DATALAB_API_KEY w)) as [tr [r| |]];
    simpl in *; rewrite ?app_nil_r; repeat split; auto; discriminate.
Qed.

(** The filling stage of a request whose row index is in range and
    whose key is set: one submission, then the polling. *)
Lemma fillRow_in_range req index parsedData :
  (0 <= index < Z.of_nat (List.length (rows parsedData)))%Z ->
  given (DATALAB_API_KEY w) = true ->
  let fieldData :=
    CsvParser.convertRowToFieldData
      (nth (Z.to_nat index) (rows parsedData) Obj.empty) (customMappings req) in
  let submission :=
    EvSubmit (text_of (pdfPath req)) fieldData (text_of (context req)) in
  match DatalabService.submit_reply (remote w) (text_of (pdfPath req)) fieldData
          (text_of (context req)) with
  | inl message =>
      fillRow w req index parsedData
      = ([submission], Thrown ("Datalab API error: " ++ message))
  | inr reply =>
      let poll :=
        DatalabService.pollAndDownloadPDF (remote w)
          (DatalabService.request_id reply) outputPath
          (text_of (DATALAB_API_KEY w))
          DatalabService.default_maxAttempts DatalabService.default_intervalMs in
      fillRow w req index parsedData
      = (submission :: fst poll,
         match snd poll with
         | Returned result =>
             Returned {| statusCode := 200;
                         body := FilledBody outputPath outputFilename
                                   (DatalabService.fieldsFilledCount_result result)
                                   (DatalabService.request_id reply) |}
         | Thrown message => Thrown message
         | OutOfFuel => OutOfFuel
         end)
  end.
Proof.
  intros Hin K fieldData submission. unfold fillRow.
  assert (C : (index <? 0)%Z
              || (index >=? Z.of_nat (List.length (rows parsedData)))%Z = false).
  { apply orb_false_iff. split; [apply Z.ltb_ge | rewrite Z.geb_leb; apply Z.leb_gt]; lia. }
  rewrite C, K. unfold DatalabService.fillPDFForm. fold fieldData.
  destruct (DatalabService.submit_reply (remote w) (text_of (pdfPath req)) fieldData
              (text_of (context req))) as [message|reply];
    cbv beta iota zeta
        delta [Eff.bind Eff.catch Eff.await Eff.ret Eff.throw negb
               DatalabService.requestId fst snd];
    [reflexivity|].
  destruct (DatalabService.pollAndDownloadPDF (remote w)
              (DatalabService.request_id reply) outputPath
              (text_of (DATALAB_API_KEY w))
              DatalabService.default_maxAttempts DatalabService.default_intervalMs)
    as [tr [result|message|]]; rewrite ?app_nil_r; reflexivity.
Qed.

Lemma fillRow_keyless req index parsedData :
  given (DATALAB_API_KEY w) = false ->
  exists code message,
    fillRow w req index parsedData
    = ([], Returned {| statusCode := code; body := ErrorBody message |})
    /\ (code = 400 \/ code = 500).
Proof.
  intros K. unfold fillRow. rewrite K.
  destruct ((index <? 0)%Z || (index >=? Z.of_nat (List.length (rows parsedData)))%Z);
    simpl; unfold respond, Eff.ret; eexists _, _; (split; [reflexivity | auto]).
Qed.

Lemma poll_outcomes requestId path apiKey :
  let poll :=
    DatalabService.pollAndDownloadPDF (remote w) requestId path apiKey
      DatalabService.default_maxAttempts DatalabService.default_intervalMs in
  match snd poll with
  | Returned result =>
      exists trpoll content,
        fst poll = (trpoll ++ [EvWriteFile path content])%list
        /\ submits trpoll = false /\ writes_nothing trpoll
  | Thrown _ => writes_nothing (fst poll)
  | OutOfFuel => False
  end.
Proof.
  intros poll.
  assert (W : forall n, writes_nothing
                          (DatalabService.waiting requestId
                             DatalabService.default_intervalMs n)).
  { induction n as [|n IH]; intros p c H; [destruct H|].
    destruct H as [H|[H|H]]; try discriminate. exact (IH p c H). }
  destruct (pollLoop_shape (remote w) requestId path apiKey
              DatalabService.default_maxAttempts DatalabService.default_intervalMs
              (S DatalabService.default_maxAttempts) 0 ltac:(lia) ltac:(lia))
    as (n & rest & Htr & _ & E).
  fold (DatalabService.pollAndDownloadPDF (remote w) requestId path apiKey
          DatalabService.default_maxAttempts DatalabService.default_intervalMs)
    in Htr, E.
  fold poll in Htr, E.
  destruct (snd poll) as [result|message|]; [| |exact E].
  - destruct E as (_ & _ & _ & [(p & ->)|(u & ->)]).
    + exists (DatalabService.waiting requestId DatalabService.default_intervalMs n
              ++ [EvPoll requestId])%list, (FromBase64 p).
      split; [rewrite Htr, <- app_assoc; reflexivity|].
      split; [rewrite submits_app, submits_waiting; reflexivity|].
      intros p' c H. apply in_app_or in H.
      destruct H as [H|[H|[]]]; [exact (W n p' c H) | discriminate].
    + exists (DatalabService.waiting requestId DatalabService.default_intervalMs n
              ++ [EvPoll requestId; EvFetch u])%list, (FromUrl u).
      split; [rewrite Htr, <- app_assoc; reflexivity|].
      split; [rewrite submits_app, submits_waiting; reflexivity|].
      intros p' c H. apply in_app_or in H.
      destruct H as [H|[H|[H|[]]]]; [exact (W n p' c H) | discriminate..].
  - rewrite Htr. intros p' c H. apply in_app_or in H.
    destruct H as [H|H]; [exact (W n p' c H)|].
    destruct E as [(_ & -> & _)|[(_ & -> & _)|(_ & u & d & -> & _)]];
      simpl in H; intuition discriminate.
Qed.

(** What [fillRow] can end in. *)
Lemma fillRow_cases req index parsedData :
  match snd (fillRow w req index parsedData) with
  | Returned resp =>
      (exists message,
         body resp = ErrorBody message
         /\ (statusCode resp = 400 \/ statusCode resp = 500)
         /\ fst (fillRow w req index parsedData) = [])
      \/ ((0 <= index < Z.of_nat (List.length (rows parsedData)))%Z
          /\ exists reply count trpoll content,
               let fieldData :=
                 CsvParser.convertRowToFieldData
                   (nth (Z.to_nat index) (rows parsedData) Obj.empty)
                   (customMappings req) in
               DatalabService.submit_reply (remote w) (text_of (pdfPath req))
                 fieldData (text_of (context req)) = inr reply
               /\ resp = {| statusCode := 200;
                            body := FilledBody outputPath outputFilename count
                                      (DatalabService.request_id reply) |}
               /\ fst (fillRow w req index parsedData)
                  = (EvSubmit (text_of (pdfPath req)) fieldData (text_of (context req))
                     :: trpoll ++ [EvWriteFile outputPath content])%list
               /\ submits trpoll = false /\ writes_nothing trpoll)
  | Thrown _ => writes_nothing (fst (fillRow w req index parsedData))
  | OutOfFuel => False
  end.
Proof.
  destruct (given (DATALAB_API_KEY w)) eqn:K.
  2:{ destruct (fillRow_keyless req index parsedData K) as (code & message & -> & Hc).
      simpl. left. exists message. auto. }
  destruct ((index <? 0)%Z || (index >=? Z.of_nat (List.length (rows parsedData)))%Z)
    eqn:C.
  { unfold fillRow. rewrite C. simpl. left. eexists. eauto. }
  apply orb_false_iff in C. destruct C as [C1 C2].
  apply Z.ltb_ge in C1. rewrite Z.geb_leb in C2. apply Z.leb_gt in C2.
  pose proof (fillRow_in_range req index parsedData (conj C1 C2) K) as F.
  cbv zeta in F.
  destruct (DatalabService.submit_reply (remote w) (text_of (pdfPath req))
              (CsvParser.convertRowToFieldData
                 (nth (Z.to_nat index) (rows parsedData) Obj.empty)
                 (customMappings req))
              (text_of (context req))) as [message|reply] eqn:S.
  { rewrite F. intros p c H. simpl in H. intuition discriminate. }
  rewrite F.
  pose proof (poll_outcomes (DatalabService.request_id reply) outputPath
                            (text_of (DATALAB_API_KEY w))) as P.
  cbv zeta in P.
  destruct (DatalabService.pollAndDownloadPDF (remote w)
              (DatalabService.request_id reply) outputPath
              (text_of (DATALAB_API_KEY w))
              DatalabService.default_maxAttempts DatalabService.default_intervalMs)
    as [tr [result|message|]]; cbn [fst snd] in *; [| |exact P].
  - destruct P as (trpoll & content & -> & Hs & Hw).
    right. split; [auto|].
    exists reply, (DatalabService.fieldsFilledCount_result result), trpoll, content.
    cbv zeta. auto.
  - intros p c [H|H]; [discriminate | exact (P p c H)].
Qed.

(** The route past its three checks of the request. *)
Lemma fill_form_parsed req index :
  given (pdfPath req) = true ->
  given (csvPath req) || given (dataPdfPath req) || given (textData req) = true ->
  rowIndex req = Some index ->
  fill_form parseFieldsFromText w req
  = Eff.catch
      (Eff.bind (parseSource parseFieldsFromText w req)
         (fun parsed => match parsed with
                        | inl early => Eff.ret early
                        | inr parsedData => fillRow w req index parsedData
                        end))
      (fun msg => respond 500 msg).
Proof.
  intros Hpdf Hsource Hindex. unfold fill_form. rewrite Hpdf, Hindex.
  destruct (given (csvPath req)), (given (dataPdfPath req)),
    (given (textData req)); simpl in *; congruence.
Qed.


(** X15: a 200 answer of the fill route means that the request gave a
    row index within the parsed rows, that exactly one fill was
    submitted, for the form of the request with
    [convertRowToFieldData] of the selected row and the custom mappings
    of the request, and that the last thing done was to write the file
    named in the answer. *)
Theorem X15_success_means_one_submission_and_a_file req tr resp
        (Hrun : fill_form parseFieldsFromText w req = (tr, Returned resp))
        (Hok : statusCode resp = 200) :
  exists index parsedData trparse reply count trpoll content,
    let fieldData :=
      CsvParser.convertRowToFieldData
        (nth (Z.to_nat index) (rows parsedData) Obj.empty) (customMappings req) in
    rowIndex req = Some index
    /\ parseSource parseFieldsFromText w req = (trparse, Returned (inr parsedData))
    /\ (0 <= index < Z.of_nat (List.length (rows parsedData)))%Z
    /\ DatalabService.submit_reply (remote w) (text_of (pdfPath req)) fieldData
         (text_of (context req)) = inr reply
    /\ tr = (trparse
             ++ EvSubmit (text_of (pdfPath req)) fieldData (text_of (context req))
             :: trpoll
             ++ [EvWriteFile ("uploads/" ++ "filled-" ++ now w ++ ".pdf") content])%list
    /\ submits trparse = false /\ submits trpoll = false
    /\ resp = {| statusCode := 200;
                 body := FilledBody ("uploads/" ++ "filled-" ++ now w ++ ".pdf")
                                    ("filled-" ++ now w ++ ".pdf") count
                                    (DatalabService.request_id reply) |}.
Proof.
  destruct (given (pdfPath req)) eqn:Hpdf.
  2:{ unfold fill_form in Hrun. rewrite Hpdf in Hrun. simpl in Hrun.
      injection Hrun as <- <-. discriminate. }
  destruct (given (csvPath req) || given (dataPdfPath req) || given (textData req))
    eqn:Hsource.
  2:{ unfold fill_form in Hrun. rewrite Hpdf in Hrun.
      destruct (given (csvPath req)), (given (dataPdfPath req)),
        (given (textData req)); try discriminate.
      simpl in Hrun. injection Hrun as <- <-. discriminate. }
  destruct (rowIndex req) as [index|] eqn:Hindex.
  2:{ unfold fill_form in Hrun. rewrite Hpdf, Hindex in Hrun.
      destruct (given (csvPath req)), (given (dataPdfPath req)),
        (given (textData req)); try discriminate;
        simpl in Hrun; injection Hrun as <- <-; discriminate. }
  rewrite (fill_form_parsed req index Hpdf Hsource Hindex) in Hrun.
  destruct (parseSource_cases req) as (Hs & _ & _ & Hp).
  destruct (parseSource parseFieldsFromText w req)
    as [trp [[early|parsedData]|message|]] eqn:P; cbn [fst snd] in Hs, Hp.
  - subst early. simpl in Hrun. injection Hrun as <- <-. discriminate.
  - cbv beta iota delta [Eff.bind Eff.catch] in Hrun.
    pose proof (fillRow_cases req index parsedData) as F.
    destruct (fillRow w req index parsedData) as [trf [resp'|message|]] eqn:R;
      cbn [fst snd] in F; simpl in Hrun.
    + injection Hrun as <- <-.
      destruct F as [(message & Hb & [Hc|Hc] & _)|(Hin & reply & count & trpoll & content & F)];
        try congruence.
      cbv zeta in F. destruct F as (Hsub & -> & -> & Hpoll & _).
      exists index, parsedData, trp, reply, count, trpoll, content.
      cbv zeta. repeat split; auto; apply Hin.
    + injection Hrun as <- <-. discriminate.
    + destruct F.
  - simpl in Hrun. injection Hrun as <- <-. discriminate.
  - destruct Hp.
Qed.


(** X17: without the environment variable DATALAB_API_KEY the fill
    route never sends anything to the remote service, whatever the
    request, and never answers 200: its answer is an error body under
    400 or 500. *)
Theorem X17_no_key_no_remote_call req
        (Hkey : given (DATALAB_API_KEY w) = false) :
  calls_remote (Eff.trace (fill_form parseFieldsFromText w req)) = false
  /\ exists code message,
       Eff.outcome (fill_form parseFieldsFromText w req)
       = Returned {| statusCode := code; body := ErrorBody message |}
       /\ (code = 400 \/ code = 500).
Proof.
  unfold Eff.trace, Eff.outcome.
  destruct (given (pdfPath req)) eqn:Hpdf.
  2:{ unfold fill_form. rewrite Hpdf. simpl. eauto 6. }
  destruct (given (csvPath req) || given (dataPdfPath req) || given (textData req))
    eqn:Hsource.
  2:{ unfold fill_form. rewrite Hpdf.
      destruct (given (csvPath req)), (given (dataPdfPath req)),
        (given (textData req)); try discriminate.
      simpl. eauto 6. }
  destruct (rowIndex req) as [index|] eqn:Hindex.
  2:{ unfold fill_form. rewrite Hpdf, Hindex.
      destruct (given (csvPath req)), (given (dataPdfPath req)),
        (given (textData req)); try discriminate; simpl; eauto 6. }
  rewrite (fill_form_parsed req index Hpdf Hsource Hindex).
  destruct (parseSource_cases req) as (_ & Hr & _ & Hp).
  specialize (Hr Hkey).
  destruct (parseSource parseFieldsFromText w req)
    as [trp [[early|parsedData]|message|]]; cbn [fst snd] in Hr, Hp.
  - subst early. simpl. rewrite app_nil_r. eauto 6.
  - destruct (fillRow_keyless req index parsedData Hkey)
      as (code & message & F & Hc).
    cbv beta iota delta [Eff.bind Eff.catch]. rewrite F. simpl.
    rewrite app_nil_r. eauto 6.
  - simpl. rewrite app_nil_r. eauto 6.
  - destruct Hp.
Qed.

Lemma single_row_sources req tr parsedData :
  parseSource parseFieldsFromText w req = (tr, Returned (inr parsedData)) ->
  given (textData req) = true \/ given (csvPath req) = false ->
  List.length (rows parsedData) = 1.
Proof.
  unfold parseSource. intros H Hsingle.
  destruct (given (textData req)).
  { injection H as <- <-. reflexivity. }
  destruct Hsingle as [Hs|Hs]; [discriminate|]. rewrite Hs in H.
  destruct (given (DATALAB_API_KEY w)); simpl in H; [|discriminate].
  destruct (PdfParser.parsePDF parseFieldsFromText (pdfs w)
              (text_of (dataPdfPath req)) (DATALAB_API_KEY w)) as [tr' [r| |]] eqn:E;
    simpl in H; try discriminate.
  injection H as <- <-.
  destruct (parsePDF_shape _ _ _ _ _ _ E) as [_ (extracted & ->)]. reflexivity.
Qed.

(** X18: text data and a data PDF always give a table of one row, so
    with either of them only row index 0 can be filled: any other index
    is answered 400, invalid row index, after the parsing and nothing
    else.  Text data comes first: when a request holds text, its CSV
    path and data PDF path are not even read. *)
Theorem X18_single_row_sources_take_index_zero req index tr parsedData
        (Hpdf : given (pdfPath req) = true)
        (Hindex : rowIndex req = Some index)
        (Hsingle : given (textData req) = true
                   \/ (given (csvPath req) = false
                       /\ given (dataPdfPath req) = true))
        (Hparsed : parseSource parseFieldsFromText w req
                   = (tr, Returned (inr parsedData)))
        (Hother : index <> 0%Z) :
  fill_form parseFieldsFromText w req
  = (tr, Returned {| statusCode := 400; body := ErrorBody "Invalid row index" |})
  /\ (given (textData req) = true -> tr = []).
Proof.
  split.
  - rewrite (fill_form_parsed req index Hpdf); [| |exact Hindex].
    2:{ destruct Hsingle as [->|[_ ->]];
          destruct (given (csvPath req)), (given (dataPdfPath req)); reflexivity. }
    rewrite Hparsed.
    assert (L : List.length (rows parsedData) = 1).
    { apply (single_row_sources req tr parsedData Hparsed). tauto. }
    unfold Eff.bind, fillRow. rewrite L.
    assert (C : (index <? 0)%Z || (index >=? Z.of_nat 1)%Z = true).
    { apply orb_true_iff.
      destruct (Z.ltb_spec index 0); [left; reflexivity | right].
      apply Z.geb_le. lia. }
    rewrite C. simpl. rewrite app_nil_r. reflexivity.
  - intros Ht. unfold parseSource in Hparsed. rewrite Ht in Hparsed.
    injection Hparsed as <- _. reflexivity.
Qed.

(** X19: with a CSV file as data, a file that cannot be read, or in
    which Papa Parse reports any error at all, makes the fill route
    answer 500 with the message of the parser after the read alone: no
    row of such a file can be filled, and nothing is sent to the remote
    service. *)
Theorem X19_csv_errors_stop_the_fill req index
        (Hpdf : given (pdfPath req) = true)
        (Hindex : rowIndex req = Some index)
        (Htext : given (textData req) = false)
        (Hcsv : given (csvPath req) = true) :
  match CsvParser.readFile (csv w) (text_of (csvPath req)) with
  | inl message =>
      fill_form parseFieldsFromText w req
      = ([EvReadCsv (text_of (csvPath req))],
         Returned {| statusCode := 500;
                     body := ErrorBody ("Failed to read CSV file: " ++ message) |})
  | inr fileContent =>
      CsvParser.errors (CsvParser.Papa_parse (csv w) fileContent) <> [] ->
      fill_form parseFieldsFromText w req
      = ([EvReadCsv (text_of (csvPath req))],
         Returned {| statusCode := 500;
                     body := ErrorBody
                               ("CSV parsing errors: ["
                                ++ join "," (CsvParser.errors
                                               (CsvParser.Papa_parse (csv w) fileContent))
                                ++ "]") |})
  end.
Proof.
  rewrite (fill_form_parsed req index Hpdf); [| |exact Hindex].
  2:{ rewrite Hcsv. reflexivity. }
  unfold parseSource. rewrite Htext, Hcsv. unfold CsvParser.parseCSV.
  destruct (CsvParser.readFile (csv w) (text_of (csvPath req)))
    as [message|fileContent]; [reflexivity|].
  intros Herr. cbv beta iota zeta delta [Eff.bind Eff.catch Eff.await].
  destruct (CsvParser.errors (CsvParser.Papa_parse (csv w) fileContent)) as [|e es];
    [congruence|].
  reflexivity.
Qed.

End RouteMore.

Lemma X15_success_means_one_submission_and_a_file_witness :
  exists index parsedData trparse reply count trpoll content,
    FormFilling.rowIndex Samples4.first_row_request = Some index
    /\ FormFilling.parseSource Samples.no_heuristics Samples2.two_rows_world
         Samples4.first_row_request = (trparse, Returned (inr parsedData))
    /\ (0 <= index < Z.of_nat (List.length (rows parsedData)))%Z
    /\ DatalabService.submit_reply Samples2.third_time_remote "uploads/form.pdf"
         (CsvParser.convertRowToFieldData
            (nth (Z.to_nat index) (rows parsedData) Obj.empty) None)
         EmptyString = inr reply
    /\ Eff.trace (FormFilling.fill_form Samples.no_heuristics Samples2.two_rows_world
                    Samples4.first_row_request)
       = (trparse
          ++ EvSubmit "uploads/form.pdf"
               (CsvParser.convertRowToFieldData
                  (nth (Z.to_nat index) (rows parsedData) Obj.empty) None)
               EmptyString
          :: trpoll
          ++ [EvWriteFile "uploads/filled-1700000000000.pdf" content])%list
    /\ FormFilling.submits trparse = false /\ FormFilling.submits trpoll = false
    /\ {| FormFilling.statusCode := 200;
          FormFilling.body :=
            FormFilling.FilledBody "uploads/filled-1700000000000.pdf"
                                   "filled-1700000000000.pdf" 4 "req-1" |}
       = {| FormFilling.statusCode := 200;
            FormFilling.body :=
              FormFilling.FilledBody "uploads/filled-1700000000000.pdf"
                                     "filled-1700000000000.pdf" count
                                     (DatalabService.request_id reply) |}.
Proof.
  apply (X15_success_means_one_submission_and_a_file
           Samples.no_heuristics Samples2.two_rows_world Samples4.first_row_request
           (Eff.trace (FormFilling.fill_form Samples.no_heuristics
                         Samples2.two_rows_world Samples4.first_row_request))
           {| FormFilling.statusCode := 200;
              FormFilling.body :=
                FormFilling.FilledBody "uploads/filled-1700000000000.pdf"
                                       "filled-1700000000000.pdf" 4 "req-1" |}).
  - vm_compute. reflexivity.
  - reflexivity.
Defined.

Lemma X17_no_key_no_remote_call_witness :
  FormFilling.calls_remote
    (Eff.trace (FormFilling.fill_form Samples.no_heuristics Samples4.keyless_world
                  Samples4.first_row_request)) = false
  /\ exists code message,
       Eff.outcome (FormFilling.fill_form Samples.no_heuristics Samples4.keyless_world
                      Samples4.first_row_request)
       = Returned {| FormFilling.statusCode := code;
                     FormFilling.body := FormFilling.ErrorBody message |}
       /\ (code = 400 \/ code = 500).
Proof.
  apply (X17_no_key_no_remote_call Samples.no_heuristics Samples4.keyless_world
           Samples4.first_row_request).
  reflexivity.
Defined.

Lemma X18_single_row_sources_take_index_zero_witness :
  FormFilling.fill_form Samples.no_heuristics Samples2.two_rows_world
                        Samples4.text_second_row_request
  = ([], Returned {| FormFilling.statusCode := 400;
                     FormFilling.body := FormFilling.ErrorBody "Invalid row index" |}).
Proof.
  apply (proj1 (X18_single_row_sources_take_index_zero
                  Samples.no_heuristics Samples2.two_rows_world
                  Samples4.text_second_row_request 1%Z []
                  (TextParser.parseText "Name: Jane")
                  eq_refl eq_refl (or_introl eq_refl) eq_refl
                  ltac:(discriminate))).
Defined.

Lemma X19_csv_errors_stop_the_fill_witness :
  exists message,
    FormFilling.fill_form Samples.no_heuristics Samples5.ragged_world
                          Samples4.first_row_request
    = ([EvReadCsv "uploads/data.csv"],
       Returned {| FormFilling.statusCode := 500;
                   FormFilling.body := FormFilling.ErrorBody message |}).
Proof.
  eexists.
  apply (X19_csv_errors_stop_the_fill Samples.no_heuristics Samples5.ragged_world
           Samples4.first_row_request 0%Z eq_refl eq_refl eq_refl eq_refl).
  discriminate.
Defined.


(* ------------------------------------------------------------------ *)
(** *** The local strategies of the document extractor *)

Section FormFieldsMore.
Import PdfParser.

Local Abbreviation keep :=
  (fun (extractedFields : Obj.t JsValue) (field : PDFField) =>
     match fieldValue (content field) with
     | Some v =>
         if truthy v && negb (is_empty (trim v))
         then Obj.set (getName field) (JString (trim v)) extractedFields
         else extractedFields
     | None => extractedFields
     end).

Lemma kept_test v :
  truthy v && negb (is_empty (trim v)) = negb (is_empty (trim v)).
Proof. destruct v; reflexivity. Qed.

Lemma not_empty s : is_empty s = false <-> s <> EmptyString.
Proof. destruct s; simpl; split; congruence. Qed.

Lemma keep_last fields field acc :
  fold_left keep (fields ++ [field])%list acc = keep (fold_left keep fields acc) field.
Proof. rewrite fold_left_app. reflexivity. Qed.

Lemma keep_NoDup fields : forall acc,
  NoDup (Obj.keys acc) -> NoDup (Obj.keys (fold_left keep fields acc)).
Proof.
  induction fields as [|f fields IH]; intros acc ND; [exact ND|].
  simpl. apply IH.
  destruct (fieldValue (content f)) as [v|]; [|exact ND].
  destruct (truthy v && negb (is_empty (trim v))); [|exact ND].
  apply NoDup_keys_set, ND.
Qed.

(** The field that wrote an entry is the last one of its name that has
    a value worth keeping. *)
Lemma keep_get fields : forall k x,
  Obj.get (fold_left keep fields Obj.empty) k = Some x ->
  exists before field after v,
    fields = (before ++ field :: after)%list
    /\ getName field = k
    /\ fieldValue (content field) = Some v
    /\ trim v <> EmptyString
    /\ x = JString (trim v)
    /\ forall later v', In later after -> getName later = k ->
         fieldValue (content later) = Some v' -> trim v' = EmptyString.
Proof.
  induction fields as [|f fields IH] using rev_ind; intros k x H.
  { discriminate. }
  rewrite keep_last in H.
  assert (Hold : Obj.get (fold_left keep fields Obj.empty) k = Some x ->
                 (forall v', getName f = k -> fieldValue (content f) = Some v' ->
                             trim v' = EmptyString) ->
                 exists before field after v,
                   (fields ++ [f])%list = (before ++ field :: after)%list
                   /\ getName field = k
                   /\ fieldValue (content field) = Some v
                   /\ trim v <> EmptyString
                   /\ x = JString (trim v)
                   /\ forall later v', In later after -> getName later = k ->
                        fieldValue (content later) = Some v' -> trim v' = EmptyString).
  { intros Hg Hf.
    destruct (IH k x Hg) as (before & field & after & v & -> & Hn & Hv & Ht & Hx & Hl).
    exists before, field, (after ++ [f])%list, v.
    split; [rewrite <- app_assoc; reflexivity|].
    repeat split; auto.
    intros later v' Hin Hn' Hv'. apply in_app_or in Hin.
    destruct Hin as [Hin|[<-|[]]]; eauto. }
  destruct (fieldValue (content f)) as [v|] eqn:Hv.
  2:{ apply Hold; [exact H | discriminate]. }
  rewrite kept_test in H.
  destruct (is_empty (trim v)) eqn:E; simpl in H.
  { apply Hold; [exact H|].
    intros v' _ [= <-]. destruct (trim v); [reflexivity | discriminate]. }
  destruct (String.eqb_spec (getName f) k) as [Hk|Hk].
  - subst k. rewrite get_set_same in H. injection H as <-.
    exists fields, f, [], v. repeat split; auto.
    + apply not_empty, E.
    + intros later v' [].
  - rewrite (get_set_other _ _ _ _ Hk) in H.
    apply Hold; [exact H|]. intros v' Hn. contradiction.
Qed.

Lemma keep_keys fields : forall acc k,
  In k (Obj.keys (fold_left keep fields acc))
  <-> In k (Obj.keys acc)
      \/ exists field v, In field fields /\ getName field = k
                         /\ fieldValue (content field) = Some v
                         /\ trim v <> EmptyString.
Proof.
  induction fields as [|f fields IH]; intros acc k.
  { simpl. split; [auto|]. intros [H|(field & v & [] & _)]. exact H. }
  simpl fold_left. rewrite IH. clear IH.
  destruct (fieldValue (content f)) as [v|] eqn:Hv.
  2:{ split; (intros [H|(field & v & Hin & Hn & Hv' & Ht)]; [auto|right]).
      - exists field, v. simpl. auto.
      - destruct Hin as [<-|Hin]; [congruence|]. exists field, v. auto. }
  rewrite kept_test.
  destruct (is_empty (trim v)) eqn:E; simpl.
  { split; (intros [H|(field & v' & Hin & Hn & Hv' & Ht)]; [auto|right]).
    - exists field, v'. auto.
    - destruct Hin as [<-|Hin].
      + rewrite Hv in Hv'. injection Hv' as <-.
        apply not_empty in Ht. congruence.
      + exists field, v'. auto. }
  split.
  - intros [H|(field & v' & Hin & Hn & Hv' & Ht)].
    + destruct (keys_set_inv _ _ _ _ H) as [->|H']; [|auto].
      right. exists f, v. repeat split; auto. apply not_empty, E.
    + right. exists field, v'. auto.
  - intros [H|(field & v' & Hin & Hn & Hv' & Ht)].
    + left. apply keys_set_old, H.
    + destruct Hin as [<-|Hin].
      * left. rewrite <- Hn. apply keys_set_new.
      * right. exists field, v'. auto.
Qed.

(** X20: [extractFormFields] returns one entry for every field name
    that has a value which does not trim to empty, and no other; the
    entry holds the trimmed value of the last such field of that name.
    Empty text fields, groups without selection and fields of other
    kinds leave no entry, and a document that cannot be loaded gives no
    entry at all. *)
Theorem X20_form_fields_kept file :
  NoDup (Obj.keys (readFormFields file))
  /\ (forall k,
        In k (Obj.keys (readFormFields file))
        <-> exists fields field v,
              form file = Some fields /\ In field fields /\ getName field = k
              /\ fieldValue (content field) = Some v /\ trim v <> EmptyString)
  /\ (forall k x,
        Obj.get (readFormFields file) k = Some x ->
        exists before field after v,
          form file = Some (before ++ field :: after)%list
          /\ getName field = k
          /\ fieldValue (content field) = Some v
          /\ trim v <> EmptyString
          /\ x = JString (trim v)
          /\ forall later v', In later after -> getName later = k ->
               fieldValue (content later) = Some v' -> trim v' = EmptyString).
Proof.
  unfold readFormFields. destruct (form file) as [fields|].
  - split; [apply keep_NoDup; constructor|]. split.
    + intros k. rewrite keep_keys. split.
      * intros [[]|(field & v & H)]. exists fields, field, v. auto.
      * intros (fields' & field & v & [= <-] & H). right. exists field, v. exact H.
    + intros k x H.
      destruct (keep_get fields k x H) as (before & field & after & v & -> & R).
      exists before, field, after, v. auto.
  - split; [constructor|]. split.
    + intros k. split; [intros [] | intros (fields & field & v & H & _); discriminate].
    + intros k x H. discriminate.
Qed.

End FormFieldsMore.

Section ChainMore.
Import PdfParser.
Variable parseFieldsFromText : string -> Obj.t JsValue.
Variable files : string -> PdfFile.

Lemma parsePDF_form pdfPath apiKey :
  0 < fieldTotal (readFormFields (files pdfPath)) ->
  parsePDF parseFieldsFromText files pdfPath apiKey
  = ([EvLoadForm pdfPath],
     Returned {| parsed_success := true;
                 parsed_data :=
                   convertExtractedDataToRows (readFormFields (files pdfPath));
                 extractedFieldCount := fieldTotal (readFormFields (files pdfPath));
                 parsed_method := "form-fields" |}).
Proof.
  intros H. unfold parsePDF.
  rewrite (extractPDFData_form parseFieldsFromText files pdfPath H). simpl.
  destruct (fieldTotal (readFormFields (files pdfPath))) eqn:E; [lia|].
  reflexivity.
Qed.

(** X21: a check box always has a value, Yes or No, so a form that
    holds a check box, even an unchecked one on a blank form, is taken
    as a filled form: [parsePDF] answers under the method form-fields
    after the form-field extraction alone and never goes on to the other
    strategies or to the remote OCR. *)
Theorem X21_check_box_counts_as_data pdfPath apiKey fields field checked
        (Hform : form (files pdfPath) = Some fields)
        (Hin : In field fields)
        (Hbox : content field = PDFCheckBox checked) :
  In (getName field) (Obj.keys (readFormFields (files pdfPath)))
  /\ parsePDF parseFieldsFromText files pdfPath apiKey
     = ([EvLoadForm pdfPath],
        Returned {| parsed_success := true;
                    parsed_data :=
                      convertExtractedDataToRows (readFormFields (files pdfPath));
                    extractedFieldCount :=
                      fieldTotal (readFormFields (files pdfPath));
                    parsed_method := "form-fields" |})
  /\ 0 < fieldTotal (readFormFields (files pdfPath)).
Proof.
  assert (K : In (getName field) (Obj.keys (readFormFields (files pdfPath)))).
  { unfold readFormFields. rewrite Hform. apply keep_keys. right.
    exists field, (if checked then "Yes" else "No").
    rewrite Hbox. repeat split; auto. destruct checked; discriminate. }
  assert (P : 0 < fieldTotal (readFormFields (files pdfPath))).
  { unfold fieldTotal.
    destruct (Obj.keys (readFormFields (files pdfPath))); [destruct K | simpl; lia]. }
  split; [exact K|]. split; [|exact P].
  apply parsePDF_form, P.
Qed.

End ChainMore.

Lemma X21_check_box_counts_as_data_witness :
  PdfParser.parsePDF Samples.no_heuristics (fun _ => Samples4.blank_form)
                     "blank.pdf" (Some "key")
  = ([EvLoadForm "blank.pdf"],
     Returned {| PdfParser.parsed_success := true;
                 PdfParser.parsed_data :=
                   {| headers := ["agree"];
                      rows := [[("agree", JString "No")]];
                      rowCount := 1 |};
                 PdfParser.extractedFieldCount := 1;
                 PdfParser.parsed_method := "form-fields" |}).
Proof.
  apply (proj1 (proj2 (X21_check_box_counts_as_data
                         Samples.no_heuristics (fun _ => Samples4.blank_form)
                         "blank.pdf" (Some "key") _
                         (PdfParser.mkField "agree" (PdfParser.PDFCheckBox false))
                         false eq_refl ltac:(simpl; auto) eq_refl))).
Defined.

Lemma X20_form_fields_kept_witness :
  exists before field after v,
    PdfParser.form Samples.filled_form = Some (before ++ field :: after)%list
    /\ PdfParser.getName field = "applicant"
    /\ PdfParser.fieldValue (PdfParser.content field) = Some v
    /\ trim v <> EmptyString
    /\ JString "Jane Doe" = JString (trim v)
    /\ forall later v', In later after -> PdfParser.getName later = "applicant" ->
         PdfParser.fieldValue (PdfParser.content later) = Some v' ->
         trim v' = EmptyString.
Proof.
  apply (proj2 (proj2 (X20_form_fields_kept Samples.filled_form))
               "applicant" (JString "Jane Doe")).
  reflexivity.
Defined.

Section StructureMore.
Import PdfParser.

Lemma pairTexts_undecodable page : forall acc,
  In None page -> 2 <= List.length page -> pairTexts page acc = None.
Proof.
  induction page as [|current rest IH]; intros acc Hin Hlen; [destruct Hin|].
  destruct rest as [|next rest']; [simpl in Hlen; lia|].
  simpl pairTexts.
  destruct current as [currentText|]; [|reflexivity].
  destruct next as [nextText|]; [|reflexivity].
  apply IH.
  - destruct Hin as [H|H]; [discriminate | exact H].
  - destruct Hin as [H|[H|H]]; try discriminate.
    destruct rest'; [destruct H | simpl; lia].
Qed.

Lemma pairPages_undecodable ps page : forall acc,
  In page ps -> In None page -> 2 <= List.length page -> pairPages ps acc = None.
Proof.
  induction ps as [|p ps IH]; intros acc Hin Hnone Hlen; [destruct Hin|].
  simpl. destruct Hin as [->|Hin].
  - rewrite (pairTexts_undecodable page acc Hnone Hlen). reflexivity.
  - destruct (pairTexts p acc); [|reflexivity]. apply IH; assumption.
Qed.

(** X22: one text item that cannot be decoded, on any page of two items
    or more, makes [extractWithPdf2Json] give up everything: the result
    is the empty object, whatever pairs the pages before it held. *)
Theorem X22_undecodable_item_drops_all_pairs file ps page
        (Hpages : pages file = Some ps)
        (Hpage : In page ps)
        (Hitem : In None page)
        (Hlen : 2 <= List.length page) :
  readStructure file = Obj.empty.
Proof.
  unfold readStructure. rewrite Hpages.
  rewrite (pairPages_undecodable ps page Obj.empty Hpage Hitem Hlen). reflexivity.
Qed.

(** An entry of the pairing comes from two adjacent items. *)
Local Abbreviation paired page k x :=
  (exists i currentText nextText,
     nth_error page i = Some (Some currentText)
     /\ nth_error page (S i) = Some (Some nextText)
     /\ x = JString (trim nextText)
     /\ trim nextText <> EmptyString
     /\ ((endsWith ":" (trim currentText) = true
          /\ k = trim (remove_first_colon currentText))
         \/ (endsWith ":" (trim currentText) = false
             /\ 2 < String.length (trim currentText)
             /\ k = trim currentText))).

Lemma length_positive s : (0 <? String.length s) = true -> s <> EmptyString.
Proof. destruct s; [discriminate | discriminate]. Qed.

Lemma pairTexts_sound page : forall acc fields k x,
  pairTexts page acc = Some fields ->
  Obj.get fields k = Some x ->
  Obj.get acc k = Some x \/ paired page k x.
Proof.
  induction page as [|current rest IH]; intros acc fields k x H Hg.
  { injection H as <-. auto. }
  destruct rest as [|next rest'].
  { injection H as <-. auto. }
  simpl pairTexts in H.
  destruct current as [currentText|]; [|discriminate].
  destruct next as [nextText|]; [|discriminate].
  destruct (IH _ _ k x H Hg) as [Hacc|(i & c & n & Hc & Hn & R)].
  2:{ right. exists (S i), c, n. auto. }
  clear IH H Hg.
  destruct (endsWith ":" (trim currentText)) eqn:E; simpl in Hacc.
  - destruct (0 <? String.length (trim nextText)) eqn:L;
      [|rewrite andb_false_r in Hacc; auto].
    destruct (String.eqb_spec (trim (remove_first_colon currentText)) k) as [Hk|Hk].
    + subst k. rewrite get_set_same in Hacc. injection Hacc as <-.
      right. exists 0, currentText, nextText.
      split; [reflexivity|]. split; [reflexivity|]. split; [reflexivity|].
      split; [apply length_positive, L|]. left. auto.
    + rewrite (get_set_other _ _ _ _ Hk) in Hacc. auto.
  - destruct ((2 <? String.length (trim currentText))
              && (0 <? String.length (trim nextText))) eqn:L; [|auto].
    apply andb_true_iff in L. destruct L as [L2 L0].
    destruct (String.eqb_spec (trim currentText) k) as [Hk|Hk].
    + subst k. rewrite get_set_same in Hacc. injection Hacc as <-.
      right. exists 0, currentText, nextText.
      split; [reflexivity|]. split; [reflexivity|]. split; [reflexivity|].
      split; [apply length_positive, L0|]. right.
      split; [exact E|]. split; [apply Nat.ltb_lt, L2 | reflexivity].
    + rewrite (get_set_other _ _ _ _ Hk) in Hacc. auto.
Qed.

Lemma pairPages_sound ps : forall acc fields k x,
  pairPages ps acc = Some fields ->
  Obj.get fields k = Some x ->
  Obj.get acc k = Some x \/ exists page, In page ps /\ paired page k x.
Proof.
  induction ps as [|p ps IH]; intros acc fields k x H Hg.
  { injection H as <-. auto. }
  simpl in H. destruct (pairTexts p acc) as [fields'|] eqn:E; [|discriminate].
  destruct (IH _ _ k x H Hg) as [Hacc|(page & Hin & R)].
  - destruct (pairTexts_sound p acc fields' k x E Hacc) as [Hacc'|R]; [auto|].
    right. exists p. simpl. auto.
  - right. exists page. simpl. auto.
Qed.

Lemma pairTexts_NoDup page : forall acc fields,
  pairTexts page acc = Some fields ->
  NoDup (Obj.keys acc) -> NoDup (Obj.keys fields).
Proof.
  induction page as [|current rest IH]; intros acc fields H ND.
  { injection H as <-. exact ND. }
  destruct rest as [|next rest'].
  { injection H as <-. exact ND. }
  simpl pairTexts in H.
  destruct current as [currentText|]; [|discriminate].
  destruct next as [nextText|]; [|discriminate].
  apply (IH _ _ H).
  repeat match goal with
         | |- context [if ?b then _ else _] => destruct b
         end; try apply NoDup_keys_set; exact ND.
Qed.

Lemma pairPages_NoDup ps : forall acc fields,
  pairPages ps acc = Some fields ->
  NoDup (Obj.keys acc) -> NoDup (Obj.keys fields).
Proof.
  induction ps as [|p ps IH]; intros acc fields H ND.
  { injection H as <-. exact ND. }
  simpl in H. destruct (pairTexts p acc) as [fields'|] eqn:E; [|discriminate].
  apply (IH _ _ H). exact (pairTexts_NoDup p acc fields' E ND).
Qed.

Lemma readStructure_NoDup file : NoDup (Obj.keys (readStructure file)).
Proof.
  unfold readStructure. destruct (pages file) as [ps|]; [|constructor].
  destruct (pairPages ps Obj.empty) as [fields|] eqn:E; [|constructor].
  apply (pairPages_NoDup ps Obj.empty fields E). constructor.
Qed.

(** X23: every entry that [extractWithPdf2Json] returns comes from two
    adjacent text items of one page: its value is the second item,
    trimmed and not empty, and its key is the first item, either with
    its first colon removed and trimmed, when the trimmed item ends with
    a colon, or just trimmed, when it is longer than 2 characters.  The
    window slides by one item, so an item may give a value to the item
    before it and a key to the item after it. *)
Theorem X23_structure_pairs_adjacent_items file k x
        (Hentry : Obj.get (readStructure file) k = Some x) :
  exists ps page i currentText nextText,
    pages file = Some ps /\ In page ps
    /\ nth_error page i = Some (Some currentText)
    /\ nth_error page (S i) = Some (Some nextText)
    /\ x = JString (trim nextText)
    /\ trim nextText <> EmptyString
    /\ ((endsWith ":" (trim currentText) = true
         /\ k = trim (remove_first_colon currentText))
        \/ (endsWith ":" (trim currentText) = false
            /\ 2 < String.length (trim currentText)
            /\ k = trim currentText)).
Proof.
  unfold readStructure in Hentry.
  destruct (pages file) as [ps|]; [|discriminate].
  destruct (pairPages ps Obj.empty) as [fields|] eqn:E; [|discriminate].
  destruct (pairPages_sound ps Obj.empty fields k x E Hentry)
    as [H|(page & Hin & i & c & n & R)]; [discriminate|].
  exists ps, page, i, c, n. auto.
Qed.

End StructureMore.

Lemma X22_undecodable_item_drops_all_pairs_witness :
  PdfParser.readStructure Samples4.broken_page = Obj.empty.
Proof.
  apply (X22_undecodable_item_drops_all_pairs Samples4.broken_page
           [[Some "Name:"; Some "Jane"]; [Some "Email:"; None]]
           [Some "Email:"; None] eq_refl).
  - simpl. auto.
  - simpl. auto.
  - simpl. lia.
Defined.

Lemma X23_structure_pairs_adjacent_items_witness :
  exists ps page i currentText nextText,
    PdfParser.pages Samples4.two_pairs_scan = Some ps /\ In page ps
    /\ nth_error page i = Some (Some currentText)
    /\ nth_error page (S i) = Some (Some nextText)
    /\ JString "Doe" = JString (trim nextText)
    /\ trim nextText <> EmptyString
    /\ ((endsWith ":" (trim currentText) = true
         /\ "Jane" = trim (PdfParser.remove_first_colon currentText))
        \/ (endsWith ":" (trim currentText) = false
            /\ 2 < String.length (trim currentText)
            /\ "Jane" = trim currentText)).
Proof.
  apply (X23_structure_pairs_adjacent_items Samples4.two_pairs_scan "Jane"
           (JString "Doe")).
  reflexivity.
Defined.

Section ParsePdfMore.
Import PdfParser.
Variable parseFieldsFromText : string -> Obj.t JsValue.
Variable files : string -> PdfFile.

(** Every value of the object is a string that is not empty. *)
Local Abbreviation strings o :=
  (forall k x, In (k, x) o -> exists s, x = JString s /\ s <> EmptyString).

Lemma In_set_inv {V} (o : Obj.t V) k k' x v :
  In (k, x) (Obj.set k' v o) -> (k = k' /\ x = v) \/ In (k, x) o.
Proof.
  induction o as [|[k0 v0] o IH]; simpl.
  - intros [[= <- <-]|[]]. auto.
  - destruct (String.eqb_spec k0 k').
    + subst k0. intros [[= <- <-]|H]; auto.
    + intros [H|H]; [auto|]. destruct (IH H); auto.
Qed.

Lemma set_strings (o : Obj.t JsValue) k s :
  strings o -> s <> EmptyString -> strings (Obj.set k (JString s) o).
Proof.
  intros Ho Hs k' x Hin.
  destruct (In_set_inv _ _ _ _ _ Hin) as [[_ ->]|H]; eauto.
Qed.

Lemma readFormFields_strings file : strings (readFormFields file).
Proof.
  unfold readFormFields. destruct (form file) as [fields|]; [|intros k x []].
  assert (G : forall acc : Obj.t JsValue, strings acc ->
            strings (fold_left
                       (fun extractedFields field =>
                          match fieldValue (content field) with
                          | Some v =>
                              if truthy v && negb (is_empty (trim v))
                              then Obj.set (getName field) (JString (trim v))
                                           extractedFields
                              else extractedFields
                          | None => extractedFields
                          end) fields acc)).
  { induction fields as [|f fields IH]; intros acc Hacc; [exact Hacc|].
    simpl. apply IH.
    destruct (fieldValue (content f)) as [v|]; [|exact Hacc].
    destruct (truthy v) ; simpl; [|exact Hacc].
    destruct (is_empty (trim v)) eqn:E; simpl; [exact Hacc|].
    apply set_strings; [exact Hacc | apply not_empty, E]. }
  apply G. intros k x [].
Qed.

Lemma pairTexts_strings page : forall acc fields,
  pairTexts page acc = Some fields -> strings acc -> strings fields.
Proof.
  induction page as [|current rest IH]; intros acc fields H Hacc.
  { injection H as <-. exact Hacc. }
  destruct rest as [|next rest'].
  { injection H as <-. exact Hacc. }
  simpl pairTexts in H.
  destruct current as [currentText|]; [|discriminate].
  destruct next as [nextText|]; [|discriminate].
  apply (IH _ _ H).
  destruct (0 <? String.length (trim nextText)) eqn:L.
  - apply length_positive in L.
    rewrite !andb_true_r.
    destruct (endsWith ":" (trim currentText));
      [|destruct (2 <? String.length (trim currentText))];
      try apply set_strings; assumption.
  - rewrite !andb_false_r. exact Hacc.
Qed.

Lemma readStructure_strings file : strings (readStructure file).
Proof.
  unfold readStructure. destruct (pages file) as [ps|]; [|intros k x []].
  assert (G : forall acc fields,
            pairPages ps acc = Some fields -> strings acc -> strings fields).
  { induction ps as [|p ps IH]; intros acc fields H Hacc.
    - injection H as <-. exact Hacc.
    - simpl in H. destruct (pairTexts p acc) as [fields'|] eqn:E; [|discriminate].
      apply (IH _ _ H). exact (pairTexts_strings p acc fields' E Hacc). }
  destruct (pairPages ps Obj.empty) as [fields|] eqn:E; [|intros k x []].
  apply (G _ _ E). intros k x [].
Qed.

Lemma readFormFields_NoDup file : NoDup (Obj.keys (readFormFields file)).
Proof.
  unfold readFormFields. destruct (form file) as [fields|]; [|constructor].
  apply keep_NoDup. constructor.
Qed.

(** On an object of strings the conversion to a table copies. *)
Lemma convert_strings (extracted : Obj.t JsValue) :
  NoDup (Obj.keys extracted) -> strings extracted ->
  convertExtractedDataToRows extracted
  = {| headers := Obj.keys extracted; rows := [extracted]; rowCount := 1 |}.
Proof.
  intros ND Hs. unfold convertExtractedDataToRows.
  assert (G : forall (o acc : Obj.t JsValue), strings o ->
            fold_left
              (fun row kv =>
                 let '(key, value) := kv in
                 match value with
                 | JObject members =>
                     match Obj.get members "value" with
                     | Some inner => Obj.set key inner row
                     | None => Obj.set key (JString (js_String value)) row
                     end
                 | JString _ | JNumber _ => Obj.set key value row
                 | _ => Obj.set key (JString (js_String value)) row
                 end) o acc
            = fold_left (fun a kv => Obj.set (fst kv) (snd kv) a) o acc).
  { induction o as [|[k v] o IH]; intros acc Ho; [reflexivity|].
    simpl. destruct (Ho k v (or_introl eq_refl)) as (s & -> & _).
    apply IH. intros k' x H. apply (Ho k' x). right. exact H. }
  rewrite (G extracted Obj.empty Hs).
  rewrite (rebuild_from extracted Obj.empty ND). reflexivity.
Qed.

Lemma extractPDFData_count pdfPath tr result :
  extractPDFData parseFieldsFromText files pdfPath = (tr, Returned result) ->
  fieldCount result = fieldTotal (fields result).
Proof.
  unfold extractPDFData, extractFormFields, extractWithPdf2Json. simpl.
  destruct (0 <? fieldTotal (readFormFields (files pdfPath))); simpl.
  { intros [= <- <-]. reflexivity. }
  destruct (5 <? fieldTotal (readStructure (files pdfPath))); simpl.
  { intros [= <- <-]. reflexivity. }
  destruct (text (files pdfPath)) as [msg|pdfText]; simpl; [discriminate|].
  destruct (50 <? String.length pdfText); simpl;
    [destruct (5 <? fieldTotal (parseFieldsFromText pdfText)); simpl|];
    intros [= <- <-]; reflexivity.
Qed.

(** What [parsePDF] returns: the result of the local extraction, or
    the fields of the remote OCR. *)
Lemma parsePDF_returns pdfPath apiKey tr r :
  parsePDF parseFieldsFromText files pdfPath apiKey = (tr, Returned r) ->
  exists tr0 result,
    extractPDFData parseFieldsFromText files pdfPath = (tr0, Returned result)
    /\ ((tr = tr0 \/ tr = (tr0 ++ [EvOcr pdfPath])%list)
        /\ r = {| parsed_success := true;
                  parsed_data := convertExtractedDataToRows (fields result);
                  extractedFieldCount := fieldCount result;
                  parsed_method := method result |}
        \/ (tr = (tr0 ++ [EvOcr pdfPath])%list
            /\ fieldCount result = 0
            /\ 0 < fieldTotal (detected (files pdfPath))
            /\ r = {| parsed_success := true;
                      parsed_data :=
                        convertExtractedDataToRows (detected (files pdfPath));
                      extractedFieldCount := fieldTotal (detected (files pdfPath));
                      parsed_method := "datalab-ocr" |})).
Proof.
  unfold parsePDF.
  destruct (extractPDFData parseFieldsFromText files pdfPath)
    as [tr0 [result|message|]]; cbv beta iota delta [Eff.bind Eff.catch];
    [|discriminate|discriminate].
  intros H. exists tr0, result. split; [reflexivity|].
  destruct ((fieldCount result =? 0)
            && match apiKey with Some k => truthy k | None => false end) eqn:C.
  2:{ simpl in H. injection H as <- <-. rewrite ?app_nil_r. auto. }
  apply andb_true_iff in C. destruct C as [C0 Ck].
  apply Nat.eqb_eq in C0.
  destruct apiKey as [[|c k]|]; try discriminate.
  unfold extractWithOCR in H.
  cbv beta iota delta [Eff.bind Eff.emit Eff.ret] in H.
  destruct (0 <? fieldTotal (detected (files pdfPath))) eqn:D;
    simpl in H; injection H as <- <-.
  - right. rewrite ?app_nil_r. apply Nat.ltb_lt in D. auto.
  - left. rewrite ?app_nil_r. auto.
Qed.

(** X24: when [parsePDF] answers under the method form-fields or
    pdf2json, its table is the extracted object itself: the headers are
    its keys, all different, the single row is the object, every value
    is a string that is not empty, and [extractedFieldCount] is the
    number of headers. *)
Theorem X24_local_results_are_copied pdfPath apiKey tr r
        (Hrun : parsePDF parseFieldsFromText files pdfPath apiKey = (tr, Returned r))
        (Hlocal : parsed_method r = "form-fields" \/ parsed_method r = "pdf2json") :
  exists extracted,
    parsed_data r
    = {| headers := Obj.keys extracted; rows := [extracted]; rowCount := 1 |}
    /\ extractedFieldCount r = List.length (Obj.keys extracted)
    /\ NoDup (Obj.keys extracted)
    /\ (forall k x, Obj.get extracted k = Some x ->
          exists s, x = JString s /\ s <> EmptyString)
    /\ (parsed_method r = "form-fields" ->
        extracted = readFormFields (files pdfPath))
    /\ (parsed_method r = "pdf2json" ->
        extracted = readStructure (files pdfPath)).
Proof.
  destruct (parsePDF_returns _ _ _ _ Hrun) as (tr0 & result & Hres & [[_ ->]|(_ & _ & _ & ->)]).
  2:{ simpl in Hlocal. destruct Hlocal; discriminate. }
  simpl in Hlocal. simpl.
  pose proof (extractPDFData_count _ _ _ Hres) as C0.
  destruct (extractPDFData_accepts _ _ _ _ _ Hres)
    as [(M & C & F)|[(M & C & T & F)|[(M & _)|(M & _)]]];
    try (rewrite M in Hlocal; destruct Hlocal; discriminate).
  - exists (readFormFields (files pdfPath)). rewrite F, M.
    rewrite (convert_strings _ (readFormFields_NoDup _) (readFormFields_strings _)).
    split; [reflexivity|].
    split; [rewrite C0, F; reflexivity|].
    split; [apply readFormFields_NoDup|].
    split; [intros k x H; exact (readFormFields_strings _ k x (get_In _ _ _ H))|].
    split; [reflexivity | discriminate].
  - exists (readStructure (files pdfPath)). rewrite F, M.
    rewrite (convert_strings _ (readStructure_NoDup _) (readStructure_strings _)).
    split; [reflexivity|].
    split; [exact T|].
    split; [apply readStructure_NoDup|].
    split; [intros k x H; exact (readStructure_strings _ k x (get_In _ _ _ H))|].
    split; [discriminate | reflexivity].
Qed.

Lemma extractPDFData_nothing pdfPath pdfText :
  fieldTotal (readFormFields (files pdfPath)) = 0 ->
  fieldTotal (readStructure (files pdfPath)) <= 5 ->
  text (files pdfPath) = inr pdfText ->
  (50 < String.length pdfText -> fieldTotal (parseFieldsFromText pdfText) <= 5) ->
  extractPDFData parseFieldsFromText files pdfPath
  = ([EvLoadForm pdfPath; EvPdf2Json pdfPath; EvPdfParse pdfPath],
     Returned {| success := true; fields := Obj.empty; fieldCount := 0;
                 rawText := None; method := "none";
                 message := Some "Could not extract data. PDF may be empty, encrypted, or have unrecognizable format." |}).
Proof.
  intros Hform Hstruct Htext Hheur.
  unfold extractPDFData, extractFormFields, extractWithPdf2Json. simpl.
  rewrite Hform. simpl.
  assert (E : (5 <? fieldTotal (readStructure (files pdfPath))) = false)
    by (apply Nat.ltb_ge; exact Hstruct).
  rewrite E, Htext. simpl.
  destruct (50 <? String.length pdfText) eqn:L; [|reflexivity].
  apply Nat.ltb_lt in L.
  assert (E' : (5 <? fieldTotal (parseFieldsFromText pdfText)) = false)
    by (apply Nat.ltb_ge; auto).
  rewrite E'. reflexivity.
Qed.

(** X25: pairs found locally count only in number: when the form gives
    nothing, the structure at most 5 pairs and the text heuristics at
    most 5 fields, all of them are dropped.  With an API key the
    document goes to the remote OCR and the answer holds the fields the
    OCR detected, under the method datalab-ocr when there is at least
    one; without a key the answer is the empty table under the method
    none. *)
Theorem X25_few_local_fields_are_dropped pdfPath apiKey pdfText
        (Hform : fieldTotal (readFormFields (files pdfPath)) = 0)
        (Hstruct : fieldTotal (readStructure (files pdfPath)) <= 5)
        (Htext : text (files pdfPath) = inr pdfText)
        (Hheur : 50 < String.length pdfText ->
                 fieldTotal (parseFieldsFromText pdfText) <= 5) :
  parsePDF parseFieldsFromText files pdfPath apiKey
  = if match apiKey with Some k => truthy k | None => false end
    then ([EvLoadForm pdfPath; EvPdf2Json pdfPath; EvPdfParse pdfPath;
           EvOcr pdfPath],
          Returned {| parsed_success := true;
                      parsed_data :=
                        convertExtractedDataToRows (detected (files pdfPath));
                      extractedFieldCount := fieldTotal (detected (files pdfPath));
                      parsed_method :=
                        if 0 <? fieldTotal (detected (files pdfPath))
                        then "datalab-ocr" else "none" |})
    else ([EvLoadForm pdfPath; EvPdf2Json pdfPath; EvPdfParse pdfPath],
          Returned {| parsed_success := true;
                      parsed_data := {| headers := []; rows := [[]]; rowCount := 1 |};
                      extractedFieldCount := 0;
                      parsed_method := "none" |}).
Proof.
  unfold parsePDF.
  rewrite (extractPDFData_nothing pdfPath pdfText Hform Hstruct Htext Hheur).
  destruct apiKey as [[|c k]|]; try reflexivity.
  simpl.
  destruct (detected (files pdfPath)) as [|[k0 v0] more]; reflexivity.
Qed.

(** X26: [parsePDF] sends a document to the remote OCR only as a last
    resort: when a key is given, the form gave no field, the structure
    at most 5 pairs, and the text was read and gave at most 5 fields to
    the heuristics (or was too short to be tried). *)
Theorem X26_ocr_is_the_last_resort pdfPath apiKey sentPath
        (Hocr : In (EvOcr sentPath)
                   (Eff.trace (parsePDF parseFieldsFromText files pdfPath apiKey))) :
  sentPath = pdfPath
  /\ (exists key, apiKey = Some key /\ key <> EmptyString)
  /\ fieldTotal (readFormFields (files pdfPath)) = 0
  /\ fieldTotal (readStructure (files pdfPath)) <= 5
  /\ exists pdfText,
       text (files pdfPath) = inr pdfText
       /\ (50 < String.length pdfText ->
           fieldTotal (parseFieldsFromText pdfText) <= 5).
Proof.
  revert Hocr.
  unfold parsePDF, extractPDFData, extractFormFields, extractWithPdf2Json,
    extractWithOCR, Eff.trace.
  simpl.
  destruct (0 <? fieldTotal (readFormFields (files pdfPath))) eqn:E1; simpl.
  { destruct (fieldTotal (readFormFields (files pdfPath))); [discriminate|].
    simpl. intros [H|[]]. discriminate. }
  destruct (5 <? fieldTotal (readStructure (files pdfPath))) eqn:E2; simpl.
  { destruct (fieldTotal (readStructure (files pdfPath))); [discriminate|].
    simpl. intros [H|[H|[]]]; discriminate. }
  apply Nat.ltb_ge in E1, E2.
  destruct (text (files pdfPath)) as [msg|pdfText] eqn:E3; simpl.
  { intros [H|[H|[H|[]]]]; discriminate. }
  destruct (50 <? String.length pdfText) eqn:E4; simpl.
  - destruct (5 <? fieldTotal (parseFieldsFromText pdfText)) eqn:E5; simpl.
    + destruct (fieldTotal (parseFieldsFromText pdfText)); [discriminate|].
      simpl. intros [H|[H|[H|[]]]]; discriminate.
    + apply Nat.ltb_ge in E5.
      destruct apiKey as [[|c k]|]; simpl;
        try (intros [H|[H|[H|[]]]]; discriminate).
      destruct (0 <? fieldTotal (detected (files pdfPath))); simpl;
        (intros [H|[H|[H|[H|[]]]]]; try discriminate;
         injection H as <-;
         split; [reflexivity|];
         split; [exists (String c k); split; [reflexivity | discriminate]|];
         split; [lia|]; split; [lia|];
         exists pdfText; split; [reflexivity | intros _; exact E5]).
  - apply Nat.ltb_ge in E4.
    destruct apiKey as [[|c k]|]; simpl;
      try (intros [H|[H|[H|[]]]]; discriminate).
    destruct (0 <? fieldTotal (detected (files pdfPath))); simpl;
      (intros [H|[H|[H|[H|[]]]]]; try discriminate;
       injection H as <-;
       split; [reflexivity|];
       split; [exists (String c k); split; [reflexivity | discriminate]|];
       split; [lia|]; split; [lia|];
       exists pdfText; split; [reflexivity | intros L; lia]).
Qed.

End ParsePdfMore.

Lemma X24_local_results_are_copied_witness :
  exists extracted,
    {| headers := ["applicant"];
       rows := [[("applicant", JString "Jane Doe")]];
       rowCount := 1 |}
    = {| headers := Obj.keys extracted; rows := [extracted]; rowCount := 1 |}
    /\ 1 = List.length (Obj.keys extracted)
    /\ NoDup (Obj.keys extracted)
    /\ (forall k x, Obj.get extracted k = Some x ->
          exists s, x = JString s /\ s <> EmptyString)
    /\ ("form-fields" = "form-fields" ->
        extracted = PdfParser.readFormFields Samples.filled_form)
    /\ ("form-fields" = "pdf2json" ->
        extracted = PdfParser.readStructure Samples.filled_form).
Proof.
  apply (X24_local_results_are_copied Samples.no_heuristics
           (fun _ => Samples.filled_form) "a.pdf" None
           [EvLoadForm "a.pdf"]
           {| PdfParser.parsed_success := true;
              PdfParser.parsed_data :=
                {| headers := ["applicant"];
                   rows := [[("applicant", JString "Jane Doe")]];
                   rowCount := 1 |};
              PdfParser.extractedFieldCount := 1;
              PdfParser.parsed_method := "form-fields" |}).
  - vm_compute. reflexivity.
  - left. reflexivity.
Defined.

Lemma X25_few_local_fields_are_dropped_witness :
  PdfParser.parsePDF Samples.no_heuristics (fun _ => Samples4.two_pairs_scan)
                     "scan.pdf" (Some "key")
  = ([EvLoadForm "scan.pdf"; EvPdf2Json "scan.pdf"; EvPdfParse "scan.pdf";
      EvOcr "scan.pdf"],
     Returned {| PdfParser.parsed_success := true;
                 PdfParser.parsed_data :=
                   {| headers := ["Name"];
                      rows := [[("Name", JString "Jane Doe")]];
                      rowCount := 1 |};
                 PdfParser.extractedFieldCount := 1;
                 PdfParser.parsed_method := "datalab-ocr" |}).
Proof.
  apply (X25_few_local_fields_are_dropped Samples.no_heuristics
           (fun _ => Samples4.two_pairs_scan) "scan.pdf" (Some "key")
           "Name: Jane Doe").
  - reflexivity.
  - vm_compute. lia.
  - reflexivity.
  - simpl. lia.
Defined.

Lemma X26_ocr_is_the_last_resort_witness :
  "scan.pdf" = "scan.pdf"
  /\ (exists key, Some "key" = Some key /\ key <> EmptyString)
  /\ PdfParser.fieldTotal (PdfParser.readFormFields Samples4.two_pairs_scan) = 0
  /\ PdfParser.fieldTotal (PdfParser.readStructure Samples4.two_pairs_scan) <= 5
  /\ exists pdfText,
       PdfParser.text Samples4.two_pairs_scan = inr pdfText
       /\ (50 < String.length pdfText ->
           PdfParser.fieldTotal (Samples.no_heuristics pdfText) <= 5).
Proof.
  apply (X26_ocr_is_the_last_resort Samples.no_heuristics
           (fun _ => Samples4.two_pairs_scan) "scan.pdf" (Some "key") "scan.pdf").
  vm_compute. auto.
Defined.

(* ------------------------------------------------------------------ *)
(** *** The exchange with the remote OCR *)

Section OcrMore.
Import OcrExchange.
Variable remote : OcrRemote.

Lemma ocr_loop_shape requestId fuel : forall attempts,
  attempts <= maxAttempts ->
  maxAttempts - attempts < fuel ->
  exists n extracted,
    pollLoop remote fuel requestId attempts = (turns requestId n, extracted)
    /\ attempts + n <= maxAttempts
    /\ extracted <> OutOfFuel.
Proof.
  induction fuel as [|fuel IH]; intros attempts Hle Hfuel; [lia|].
  simpl pollLoop.
  destruct (attempts <? maxAttempts) eqn:Hlt.
  2:{ exists 0, (Returned Obj.empty). simpl.
      repeat split; try lia; discriminate. }
  apply Nat.ltb_lt in Hlt.
  destruct (status_reply remote requestId attempts) as [message|s];
    cbv beta iota delta [Eff.bind Eff.emit Eff.await Eff.ret Eff.throw].
  { exists 1, (Thrown message). simpl.
    repeat split; try lia; discriminate. }
  destruct (String.eqb (status s) "complete" || String.eqb (status s) "completed").
  { destruct (fields s) as [message|detected].
    - exists 1, (Thrown message). simpl.
      repeat split; try lia; discriminate.
    - exists 1, (Returned detected). simpl.
      repeat split; try lia; discriminate. }
  destruct (String.eqb (status s) "failed" || String.eqb (status s) "error").
  { exists 1, (Returned Obj.empty). simpl.
    repeat split; try lia; discriminate. }
  destruct (IH (S attempts) ltac:(lia) ltac:(lia)) as (n & extracted & -> & Hn & Hf).
  exists (S n), extracted. simpl.
  repeat split; try lia; exact Hf.
Qed.

Lemma not_listed (s : string) (others : list string) :
  ~ In s others -> forall t, In t others -> String.eqb s t = false.
Proof.
  intros H t Ht. destruct (String.eqb_spec s t); [subst; contradiction | reflexivity].
Qed.

Lemma ocr_loop_wait requestId n : forall fuel attempts,
  (forall i, i < n ->
     exists s, status_reply remote requestId (attempts + i) = inr s
               /\ ~ In (status s) ["complete"; "completed"; "failed"; "error"]) ->
  attempts + n <= maxAttempts ->
  pollLoop remote (n + fuel) requestId attempts
  = ((turns requestId n ++ fst (pollLoop remote fuel requestId (attempts + n)))%list,
     snd (pollLoop remote fuel requestId (attempts + n))).
Proof.
  induction n as [|n IH]; intros fuel attempts Hw Hle.
  - rewrite Nat.add_0_r. simpl.
    destruct (pollLoop remote fuel requestId attempts); reflexivity.
  - change (S n + fuel) with (S (n + fuel)). simpl pollLoop.
    assert (Hlt : (attempts <? maxAttempts) = true) by (apply Nat.ltb_lt; lia).
    rewrite Hlt.
    destruct (Hw 0 ltac:(lia)) as (s & Hs & Hp).
    rewrite Nat.add_0_r in Hs. rewrite Hs.
    cbv beta iota delta [Eff.bind Eff.emit Eff.await Eff.ret Eff.throw].
    rewrite (not_listed _ _ Hp "complete"), (not_listed _ _ Hp "completed"),
      (not_listed _ _ Hp "failed"), (not_listed _ _ Hp "error");
      try (simpl; tauto).
    cbn [orb].
    rewrite (IH fuel (S attempts)).
    + replace (S attempts + n) with (attempts + S n) by lia.
      destruct (pollLoop remote fuel requestId (attempts + S n)); reflexivity.
    + intros i Hi. replace (S attempts + i) with (attempts + S i) by lia.
      apply Hw. lia.
    + lia.
Qed.

(** X27: [extractWithOCR] never throws and never hangs: whatever the
    remote service answers, and whatever goes wrong in the upload, in a
    status check or in reading the detected fields, it returns an
    object.  Without a key it returns the empty object and sends
    nothing; with a key it uploads the document once and then makes at
    most 60 status checks, each after a wait of 3 seconds. *)
Theorem X27_ocr_exchange_always_returns pdfPath apiKey :
  exists tr extracted,
    extractWithOCR remote pdfPath apiKey = (tr, Returned extracted)
    /\ match apiKey with
       | Some (String _ _) =>
           exists requestId n,
             n <= 60 /\ tr = EvOcr pdfPath :: turns requestId n
       | _ => tr = [] /\ extracted = Obj.empty
       end.
Proof.
  unfold extractWithOCR.
  destruct apiKey as [[|c k]|];
    [eexists _, _; simpl; split; [reflexivity | auto] | |
     eexists _, _; simpl; split; [reflexivity | auto]].
  destruct (upload_reply remote pdfPath) as [message|requestId];
    cbv beta iota delta [Eff.bind Eff.catch Eff.await Eff.ret].
  { eexists _, _. split; [reflexivity|]. exists EmptyString, 0. simpl. auto with arith. }
  destruct (ocr_loop_shape requestId (S maxAttempts) 0 ltac:(lia) ltac:(lia))
    as (n & extracted & -> & Hn & Hf).
  destruct extracted as [detected|message|]; [| |contradiction].
  - eexists _, _. split; [reflexivity|]. exists requestId, n.
    split; [exact Hn | reflexivity].
  - eexists _, _. split; [reflexivity|]. exists requestId, n.
    split; [exact Hn|]. simpl. rewrite app_nil_r. reflexivity.
Qed.

(** X28: the OCR loop ends only on the statuses complete, completed,
    failed and error.  A service that answers every status check with
    another status makes [extractWithOCR] wait through all of its 60
    turns and return the empty object; this includes the status
    finished, which [pollAndDownloadPDF] takes as a completion. *)
Theorem X28_ocr_loop_does_not_know_finished pdfPath key requestId
        (Hkey : key <> EmptyString)
        (Hupload : upload_reply remote pdfPath = inr requestId)
        (Hwait : forall i, i < 60 ->
                   exists s, status_reply remote requestId i = inr s
                             /\ ~ In (status s)
                                     ["complete"; "completed"; "failed"; "error"]) :
  extractWithOCR remote pdfPath (Some key)
  = (EvOcr pdfPath :: turns requestId 60, Returned Obj.empty)
  /\ ~ In "finished" ["complete"; "completed"; "failed"; "error"]
  /\ In "finished" DatalabService.complete_statuses.
Proof.
  split; [|split; [simpl; intuition discriminate | simpl; auto]].
  unfold extractWithOCR. destruct key as [|c k]; [contradiction|].
  rewrite Hupload.
  cbv beta iota delta [Eff.bind Eff.catch Eff.await Eff.ret].
  change (S maxAttempts) with (60 + 1).
  rewrite (ocr_loop_wait requestId 60 1 0 Hwait ltac:(unfold maxAttempts; lia)).
  change (0 + 60) with 60.
  change (pollLoop remote 1 requestId 60) with (@nil Event, Returned (@Obj.empty JsValue)).
  cbn [fst snd]. rewrite app_nil_r. reflexivity.
Qed.

End OcrMore.

Lemma X28_ocr_loop_does_not_know_finished_witness :
  OcrExchange.extractWithOCR Samples6.finished_remote "scan.pdf" (Some "key")
  = (EvOcr "scan.pdf" :: OcrExchange.turns "req-9" 60, Returned Obj.empty).
Proof.
  apply (proj1 (X28_ocr_loop_does_not_know_finished Samples6.finished_remote
                  "scan.pdf" "key" "req-9" ltac:(discriminate) eq_refl
                  ltac:(intros i _; eexists; split;
                        [reflexivity | simpl; intuition discriminate]))).
Defined.
